(** * Harvesting engine of the social scrapers: a shallow embedding

    The Python sources under [social_scrapers/] (TikTok page, query, comment
    and standalone scrapers, Instagram scraper and standalone scraper) are
    embedded as Rocq functions, one module per source file, and the
    properties of the harvesting engine are proved about those functions.

    Conventions of the embedding.
    - A Python [int] is a [Z]; a Python [str] is a [string] in which every
      [ascii] stands for one code point (texts over code points 0..255).
    - A Python [float] is [FNaN], an infinity, or a finite dyadic [m * 2^e].
      The engagement rate [(total / count) * 100] is computed exactly (as a
      rational) and rounded once, to hundredths; the binary rounding of the
      intermediate floats is not modelled.
    - A JSON object is an association list, [d.get(k)] its first match.
    - A statement that may raise returns an [option] or a [result]; [None]
      stands for the exception being raised. *)

From Stdlib Require Import ZArith List String Ascii Bool Lia Arith DecimalString
  Permutation.
Import ListNotations.
Open Scope string_scope.
Open Scope list_scope.
Open Scope Z_scope.
Set Warnings "-register-all".

(** The option monad: a statement that raises aborts what follows it. *)
Notation "x <- e ;; k" :=
  (match e with Some x => k | None => None end)
  (at level 61, e at next level, right associativity).

(** ** Loops

    [while cond: body] on an explicit state. The fuel bounds the number of
    turns; [None] means the fuel ran out before the condition failed. *)
Module Loop.
Section While.
Context {St : Type} (cond : St -> bool) (body : St -> St).

Fixpoint while (fuel : nat) (s : St) : option St :=
  if cond s then
    match fuel with
    | O => None
    | S fuel' => while fuel' (body s)
    end
  else Some s.

(** The state after [k] turns, whatever the condition says. *)
Fixpoint iterate (k : nat) (s : St) : St :=
  match k with
  | O => s
  | S k' => iterate k' (body s)
  end.

End While.
End Loop.

(** ** Python values *)
Module Py.

Inductive pyfloat :=
| FNaN
| FPosInf
| FNegInf
| FFinite (m e : Z).

Inductive scalar :=
| PNone
| PBool (b : bool)
| PInt (z : Z)
| PFloat (f : pyfloat)
| PStr (s : string).

Inductive json :=
| JAtom (v : scalar)
| JList (l : list json)
| JDict (d : list (string * json)).

Definition JNone : json := JAtom PNone.
Definition JInt (z : Z) : json := JAtom (PInt z).
Definition JStr (s : string) : json := JAtom (PStr s).

(** [bool(v)]: NaN and the infinities are true. *)
Definition truthy (v : scalar) : bool :=
  match v with
  | PNone => false
  | PBool b => b
  | PInt z => negb (z =? 0)
  | PFloat (FFinite m _) => negb (m =? 0)
  | PFloat _ => true
  | PStr s => negb (s =? "")%string
  end.

Definition jtruthy (v : json) : bool :=
  match v with
  | JAtom a => truthy a
  | JList l => match l with [] => false | _ => true end
  | JDict d => match d with [] => false | _ => true end
  end.

(** [a or b] *)
Definition py_or (a b : scalar) : scalar := if truthy a then a else b.
Definition jor (a b : json) : json := if jtruthy a then a else b.

(** [x or 0] on the result of a conversion that may be [None]. *)
Definition or0 (x : option Z) : Z :=
  match x with Some v => v | None => 0 end.

Fixpoint assoc {A : Type} (k : string) (d : list (string * A)) : option A :=
  match d with
  | [] => None
  | (k', v) :: r => if (k =? k')%string then Some v else assoc k r
  end.

(** [v.get(k, default)]; [None] is the AttributeError of a [v] that is not a
    dict. *)
Definition jget_default (v : json) (k : string) (default : json) : option json :=
  match v with
  | JDict d => Some (match assoc k d with Some x => x | None => default end)
  | _ => None
  end.

Definition jget (v : json) (k : string) : option json := jget_default v k JNone.

(** [k in v] for a dict [v]. *)
Definition jhas (d : list (string * json)) (k : string) : bool :=
  match assoc k d with Some _ => true | None => false end.

(** *** [int(...)] *)

(** The characters [str.strip()] removes, and the narrower set [int()]
    skips around a number. *)
Definition is_space (c : ascii) : bool :=
  let n := nat_of_ascii c in
  ((9 <=? n) && (n <=? 13) || (28 <=? n) && (n <=? 32)
   || (n =? 133) || (n =? 160))%nat%bool.

Definition is_int_space (c : ascii) : bool :=
  let n := nat_of_ascii c in
  ((9 <=? n) && (n <=? 13) || (n =? 32) || (n =? 133) || (n =? 160))%nat%bool.

Definition is_decimal (c : ascii) : bool :=
  let n := nat_of_ascii c in ((48 <=? n) && (n <=? 57))%nat.

Definition digit_val (c : ascii) : Z := Z.of_nat (nat_of_ascii c) - 48.

Fixpoint lstrip (space : ascii -> bool) (l : list ascii) : list ascii :=
  match l with
  | c :: r => if space c then lstrip space r else l
  | [] => []
  end.

Definition strip_chars (space : ascii -> bool) (l : list ascii) : list ascii :=
  rev (lstrip space (rev (lstrip space l))).

(** [s.strip()] *)
Definition strip (s : string) : string :=
  string_of_list_ascii (strip_chars is_space (list_ascii_of_string s)).

(** Digits with single underscores between them. *)
Fixpoint parse_digits (acc : Z) (after_digit : bool) (l : list ascii) : option Z :=
  match l with
  | [] => if after_digit then Some acc else None
  | c :: r =>
      if is_decimal c then parse_digits (10 * acc + digit_val c) true r
      else if (Ascii.eqb c "_" && after_digit)%bool then parse_digits acc false r
      else None
  end.

Definition int_of_string (s : string) : option Z :=
  match strip_chars is_int_space (list_ascii_of_string s) with
  | "-"%char :: r => option_map Z.opp (parse_digits 0 false r)
  | "+"%char :: r => parse_digits 0 false r
  | l => parse_digits 0 false l
  end.

(** [int(f)] truncates towards zero; NaN and the infinities raise. *)
Definition int_of_float (f : pyfloat) : option Z :=
  match f with
  | FFinite m e => Some (if 0 <=? e then m * 2 ^ e else Z.quot m (2 ^ (- e)))
  | _ => None
  end.

(** [int(v)]; [None] is ValueError, TypeError or OverflowError. *)
Definition py_int (v : scalar) : option Z :=
  match v with
  | PNone => None
  | PBool b => Some (Z.b2z b)
  | PInt z => Some z
  | PFloat f => int_of_float f
  | PStr s => int_of_string s
  end.

Definition jint (v : json) : option Z :=
  match v with JAtom a => py_int a | _ => None end.

(** *** [==] on hashable values, as a set compares its members *)

Definition numeric (v : scalar) : option (Z * Z) :=
  match v with
  | PBool b => Some (Z.b2z b, 0)
  | PInt z => Some (z, 0)
  | PFloat (FFinite m e) => Some (m, e)
  | _ => None
  end.

Definition dyadic_eqb (x y : Z * Z) : bool :=
  let e := Z.min (snd x) (snd y) in
  fst x * 2 ^ (snd x - e) =? fst y * 2 ^ (snd y - e).

Definition py_eqb (a b : scalar) : bool :=
  match a, b with
  | PNone, PNone => true
  | PStr s, PStr t => (s =? t)%string
  | PFloat FPosInf, PFloat FPosInf => true
  | PFloat FNegInf, PFloat FNegInf => true
  | _, _ =>
      match numeric a, numeric b with
      | Some x, Some y => dyadic_eqb x y
      | _, _ => false
      end
  end.

(** [x in s] for a set [s] kept as the list of its members. *)
Definition py_in (x : scalar) (s : list scalar) : bool := existsb (py_eqb x) s.

(** [for x in v]: a list yields its elements, a dict its keys, a string its
    characters; anything else is not iterable. *)
Definition jiter (v : json) : option (list json) :=
  match v with
  | JList l => Some l
  | JDict d => Some (map (fun kv => JStr (fst kv)) d)
  | JAtom (PStr s) =>
      Some (map (fun c => JStr (String c EmptyString)) (list_ascii_of_string s))
  | JAtom _ => None
  end.

(** [isinstance(v, list)] and [isinstance(v, dict)] *)
Definition is_list (v : json) : bool :=
  match v with JList _ => true | _ => false end.
Definition is_dict (v : json) : bool :=
  match v with JDict _ => true | _ => false end.

(** Whether [len(v)] is defined. *)
Definition has_len (v : json) : bool :=
  match v with
  | JList _ | JDict _ | JAtom (PStr _) => true
  | JAtom _ => false
  end.

(** [len(v)] of a value that has one. *)
Definition jlen (v : json) : nat :=
  match v with
  | JList l => List.length l
  | JDict d => List.length d
  | JAtom (PStr s) => String.length s
  | JAtom _ => O
  end.

(** [v[0]]; a dict whose keys are strings has no key [0]. *)
Definition first_of (v : json) : option json :=
  match v with
  | JList (x :: _) => Some x
  | JAtom (PStr (String c _)) => Some (JStr (String c EmptyString))
  | _ => None
  end.

(** [s.lower()] over the first 256 code points *)
Definition lower_char (c : ascii) : ascii :=
  let n := nat_of_ascii c in
  if ((65 <=? n) && (n <=? 90)
      || (192 <=? n) && (n <=? 222) && negb (n =? 215))%nat%bool
  then ascii_of_nat (n + 32) else c.

Fixpoint lower (s : string) : string :=
  match s with
  | EmptyString => EmptyString
  | String c r => String (lower_char c) (lower r)
  end.

(** [s.isdigit()]: the decimal digits and the superscripts one, two and
    three are the digits below code point 256. *)
Definition is_digit_char (c : ascii) : bool :=
  let n := nat_of_ascii c in
  ((48 <=? n) && (n <=? 57) || (n =? 178) || (n =? 179) || (n =? 185))%nat%bool.

Definition isdigit (s : string) : bool :=
  (negb (s =? "")%string
   && forallb is_digit_char (list_ascii_of_string s))%bool.

(** [s.replace(old, new)] for a non-empty [old]: [skip] counts the
    characters of a match still to be passed over. *)
Fixpoint replace_from (old new : string) (skip : nat) (s : string) : string :=
  match s with
  | EmptyString => EmptyString
  | String c r =>
      match skip with
      | S k => replace_from old new k r
      | O =>
          if prefix old s
          then (new ++ replace_from old new (String.length old - 1) r)%string
          else String c (replace_from old new 0 r)
      end
  end.

Definition replace (old new s : string) : string := replace_from old new 0 s.

(** [str(z)] *)
Definition str_of_int (z : Z) : string := NilZero.string_of_int (Z.to_int z).

(** What the Python runtime decides and the sources do not: the text of a
    finite float, the salted hash of a string, and the order in which a set
    of strings is listed. *)
Class Runtime := {
  float_str : Z -> Z -> string;
  str_hash : string -> Z;
  set_list : list string -> list string;
  set_list_NoDup : forall l, NoDup (set_list l);
  set_list_In : forall l x, In x (set_list l) <-> In x l
}.

(** [str(v)] *)
Definition py_str `{Runtime} (v : scalar) : string :=
  match v with
  | PNone => "None"
  | PBool true => "True"
  | PBool false => "False"
  | PInt z => str_of_int z
  | PFloat FNaN => "nan"
  | PFloat FPosInf => "inf"
  | PFloat FNegInf => "-inf"
  | PFloat (FFinite m e) => float_str m e
  | PStr s => s
  end.

(** [pd.isna(v)] on a scalar *)
Definition pd_isna (v : scalar) : bool :=
  match v with
  | PNone | PFloat FNaN => true
  | _ => false
  end.

(** [re.findall] for a pattern made of a marker character followed by one
    or more characters of a class that does not hold the marker: [cur] is
    the token being read, in reverse, once a marker was seen. *)
Definition emit (marker : ascii) (cur : option (list ascii)) : list string :=
  match cur with
  | Some (c :: tok) => [String marker (string_of_list_ascii (rev (c :: tok)))]
  | _ => []
  end.

Fixpoint scan_tokens (marker : ascii) (cls : ascii -> bool)
    (cur : option (list ascii)) (l : list ascii) : list string :=
  match l with
  | [] => emit marker cur
  | c :: r =>
      match cur with
      | Some tok =>
          if cls c then scan_tokens marker cls (Some (c :: tok)) r
          else emit marker cur
               ++ scan_tokens marker cls
                    (if Ascii.eqb c marker then Some [] else None) r
      | None =>
          scan_tokens marker cls
            (if Ascii.eqb c marker then Some [] else None) r
      end
  end.

Definition findall (marker : ascii) (cls : ascii -> bool) (text : string)
    : list string :=
  scan_tokens marker cls None (list_ascii_of_string text).

(** [\w] below code point 256 *)
Definition is_word (c : ascii) : bool :=
  let n := nat_of_ascii c in
  ((48 <=? n) && (n <=? 57) || (65 <=? n) && (n <=? 90) || (n =? 95)
   || (97 <=? n) && (n <=? 122) || (n =? 170) || (n =? 178) || (n =? 179)
   || (n =? 181) || (n =? 185) || (n =? 186) || (188 <=? n) && (n <=? 190)
   || (192 <=? n) && (n <=? 214) || (216 <=? n) && (n <=? 246)
   || (248 <=? n))%nat%bool.

(** [needle in haystack] on strings *)
Fixpoint contains (needle haystack : string) : bool :=
  (prefix needle haystack
   || match haystack with
      | EmptyString => false
      | String _ r => contains needle r
      end)%bool.

(** [l[:n]] *)
Definition slice_to {A : Type} (n : Z) (l : list A) : list A :=
  if 0 <=? n then firstn (Z.to_nat n) l
  else firstn (List.length l - Z.to_nat (- n)) l.

(** *** Rounding to two decimals

    [round2 n d] is [round(n / d, 2)] for [d > 0], counted in hundredths,
    ties to the even hundredth. *)
Definition round_half_even (n d : Z) : Z :=
  let q := n / d in
  let r := n mod d in
  if 2 * r <? d then q
  else if d <? 2 * r then q + 1
  else if Z.even q then q else q + 1.

Definition round2 (n d : Z) : Z := round_half_even (n * 100) d.

(** *** Splitting and stripping by one character *)

(** [s.split(sep)] for a separator of one character: the pieces between
    the separators, one piece more than there are separators. *)
Fixpoint str_split (sep : ascii) (s : string) : list string :=
  match s with
  | EmptyString => [EmptyString]
  | String c r =>
      if Ascii.eqb c sep then EmptyString :: str_split sep r
      else
        match str_split sep r with
        | p :: ps => String c p :: ps
        | [] => [String c EmptyString]
        end
  end.

(** [s.split(sep, 1)] of a string that holds [sep]: the text before the
    first separator and the text after it; [None] when [sep] is not in
    [s]. *)
Fixpoint str_partition (sep : ascii) (s : string) : option (string * string) :=
  match s with
  | EmptyString => None
  | String c r =>
      if Ascii.eqb c sep then Some (EmptyString, r)
      else option_map (fun p => (String c (fst p), snd p)) (str_partition sep r)
  end.

(** [c in s] for a character [c] *)
Definition has_char (c : ascii) (s : string) : bool :=
  existsb (Ascii.eqb c) (list_ascii_of_string s).

(** [s.strip(c)] for a character [c] *)
Definition strip_char (c : ascii) (s : string) : string :=
  string_of_list_ascii (strip_chars (Ascii.eqb c) (list_ascii_of_string s)).

(** [sep.join(l)] *)
Definition join (sep : string) (l : list string) : string := String.concat sep l.

(** *** Dicts with string keys, in insertion order *)

(** [d[k] = v]: a key the dict has keeps its place. *)
Fixpoint dict_set {A : Type} (k : string) (v : A) (d : list (string * A))
    : list (string * A) :=
  match d with
  | [] => [(k, v)]
  | (k', v') :: r =>
      if (k =? k')%string then (k, v) :: r else (k', v') :: dict_set k v r
  end.

(** [d.setdefault(k, v)], for the dict it leaves. *)
Definition setdefault {A : Type} (k : string) (v : A) (d : list (string * A))
    : list (string * A) :=
  match assoc k d with
  | Some _ => d
  | None => d ++ [(k, v)]
  end.

(** [dict(pairs)] *)
Definition dict_of_pairs {A : Type} (pairs : list (string * A))
    : list (string * A) :=
  fold_left (fun d kv => dict_set (fst kv) (snd kv) d) pairs [].

(** [list(dict.fromkeys(l))]: the first occurrence of every string, in
    order. *)
Fixpoint fromkeys (l : list string) (seen : list string) : list string :=
  match l with
  | [] => []
  | x :: r =>
      if existsb (String.eqb x) seen then fromkeys r seen
      else x :: fromkeys r (x :: seen)
  end.

End Py.

(** ** The HTTP transport and the [tenacity] retry decorator *)
Module Http.
Import Py.

Inductive exn :=
| RequestException
| TikTokHTTPError
| TikTokJSONError
| OtherError.

Inductive result (A : Type) :=
| Ok (a : A)
| Raise (e : exn).
Arguments Ok {A} a.
Arguments Raise {A} e.

(** What the scrapers read of a [requests.Response]; [json_body] is what
    [resp.json()] returns, [None] when it raises a decode error. *)
Record http_response := {
  status_code : Z;
  content_type : string;
  text : string;
  json_body : option json
}.

(** One call of [session.get]: a response, or a [RequestException]
    (connection error, timeout). *)
Inductive outcome :=
| Response (r : http_response)
| NetworkError.

(** [@retry(reraise=True, stop=stop_after_attempt(n), retry=
    retry_if_exception_type(...))] around a function: the [k]-th call is
    [call k], counted from 1. A returned value ends the calls; so does an
    exception the predicate does not select, and a selected one once [n]
    calls were made; both are re-raised as they are. The second component
    is the number of calls made. *)
Fixpoint retry_from {A : Type} (retryable : exn -> bool) (remaining : nat)
    (attempt : nat) (call : nat -> result A) : result A * nat :=
  match call attempt with
  | Ok a => (Ok a, attempt)
  | Raise e =>
      if retryable e then
        match remaining with
        | O => (Raise e, attempt)
        | S remaining' => retry_from retryable remaining' (S attempt) call
        end
      else (Raise e, attempt)
  end.

Definition with_retry {A : Type} (stop_after_attempt : nat)
    (retryable : exn -> bool) (call : nat -> result A) : result A * nat :=
  retry_from retryable (stop_after_attempt - 1) 1 call.

(** [{"comments": [], "has_more": 0}] *)
Definition empty_page : json :=
  JDict [("comments", JList []); ("has_more", JInt 0)].

End Http.

(** ** tiktok_page.py *)
Module TiktokPage.
Import Py.

Definition MAX_IDLE_STEPS : nat := 150.

(** [_to_int]: any value [int()] rejects, and [None], give [None]. *)
Definition _to_int (val : json) : option Z := jint val.

(** [a.get(k) or b.get(k)]: [b] is consulted only when the first value is
    false. *)
Definition get_or (a b : json) (k : string) : option json :=
  x <- jget a k ;;
  if jtruthy x then Some x else jget b k.

(** The engagement fields of the row [tiktok_to_row] builds. The rate is in
    hundredths of a percent point and is [None] where Python leaves it
    [None]. The other fields of the row (author, description, hashtags,
    mentions, music, video) are computed after these and take no part in
    them; they are left out. *)
Record row := {
  follower_count : option Z;
  like_count : option Z;
  comment_count : option Z;
  share_count : option Z;
  repost_count : option Z;
  total_engagement : Z;
  engagement_rate : option Z
}.

Definition rate_of (total_engagement : Z) (followers : option Z) : option Z :=
  match followers with
  | Some f =>
      if (negb (f =? 0) && (0 <? f))%bool
      then Some (round2 (total_engagement * 100) f)
      else None
  | None => None
  end.

(** [None] when one of the statements that compute these fields raises.
    The statements for the fields left out can raise as well, so Python
    returns a row for no more items than this function does. *)
Definition tiktok_to_row (v : json) : option row :=
  stats <- jget_default v "stats" (JDict []) ;;
  statsV2 <- jget_default v "statsV2" (JDict []) ;;
  authorStats <- jget_default v "authorStats" (JDict []) ;;
  likes <- option_map _to_int (get_or statsV2 stats "diggCount") ;;
  comments <- option_map _to_int (get_or statsV2 stats "commentCount") ;;
  shares <- option_map _to_int (get_or statsV2 stats "shareCount") ;;
  reposts <- option_map _to_int (get_or statsV2 stats "collectCount") ;;
  followers <- option_map _to_int (jget authorStats "followerCount") ;;
  let total := or0 likes + or0 comments + or0 shares + or0 reposts in
  Some {| follower_count := followers;
          like_count := likes;
          comment_count := comments;
          share_count := shares;
          repost_count := reposts;
          total_engagement := total;
          engagement_rate := rate_of total followers |}.

(** *** The response interceptor [_collect]

    What [_collect] reads of a response: whether the URL holds
    ["/api/post/item_list"], the status, whether the content type holds
    ["application/json"], and the body as [json.loads] returns it ([None]
    when it raises). The body of [_collect] after [await resp.text()] holds
    no other suspension point, so the calls started by the event loop run
    one after the other on the shared [items], [seen] and [done]. *)
Record response := {
  url_is_item_list : bool;
  status : Z;
  content_type_is_json : bool;
  body : option json
}.

Record harvest := {
  items : list json;
  seen : list scalar;
  done : bool
}.

Definition harvest0 : harvest := {| items := []; seen := []; done := false |}.

(** The loop over [video_list]; the flag tells whether an exception ended
    it. What was appended before stays appended. *)
Fixpoint collect_videos (video_list : list json) (items : list json)
    (seen : list scalar) : list json * list scalar * bool :=
  match video_list with
  | [] => (items, seen, false)
  | v :: rest =>
      match jget v "id" with
      | None => (items, seen, true)
      | Some vid =>
          if jtruthy vid then
            match vid with
            | JAtom a =>
                if py_in a seen then collect_videos rest items seen
                else collect_videos rest (items ++ [v]) (a :: seen)
            | _ => (items, seen, true)
            end
          else collect_videos rest items seen
      end
  end.

Definition _collect (h : harvest) (resp : response) : harvest :=
  if (negb (url_is_item_list resp) || negb (status resp =? 200))%bool then h
  else if negb (content_type_is_json resp) then h
  else
    match body resp with
    | None => h
    | Some data =>
        match jget_default data "itemList" (JList []) with
        | None => h
        | Some video_list =>
            match jiter video_list with
            | None => h
            | Some vs =>
                let '(items', seen', raised) :=
                  collect_videos vs (items h) (seen h) in
                let done' :=
                  if raised then done h
                  else
                    match jget_default data "hasMore" (JInt 1) with
                    | Some more => (done h || negb (jtruthy more))%bool
                    | None => done h
                    end in
                {| items := items'; seen := seen'; done := done' |}
            end
        end
    end.

(** One harvest: the responses of a profile page, in the order the event
    loop hands them to [_collect]. *)
Definition collect_all (resps : list response) : harvest :=
  fold_left _collect resps harvest0.

(** The identifier of a collected item. *)
Definition item_id (v : json) : scalar :=
  match jget v "id" with
  | Some (JAtom a) => a
  | _ => PNone
  end.

(** *** The scroll loop [_scroll]

    [height k] is [document.body.scrollHeight] as read after the [k]-th
    scroll step ([height 0] before the loop); [is_set k] is [done.is_set()]
    as the loop condition reads it after [k] steps. *)
Record scroll_state := {
  idle : nat;
  h_prev : Z;
  steps : nat
}.

Definition scroll_step (h_curr : Z) (st : scroll_state) : scroll_state :=
  {| idle := if h_curr =? h_prev st then S (idle st) else 0%nat;
     h_prev := h_curr;
     steps := S (steps st) |}.

Definition scroll_cond (max_idle : nat) (is_set : nat -> bool)
    (st : scroll_state) : bool :=
  (negb (is_set (steps st)) && (idle st <? max_idle)%nat)%bool.

Definition scroll_body (height : nat -> Z) (st : scroll_state) : scroll_state :=
  scroll_step (height (S (steps st))) st.

Definition scroll_start (height : nat -> Z) : scroll_state :=
  {| idle := 0; h_prev := height 0%nat; steps := 0 |}.

Definition _scroll (is_set : nat -> bool) (height : nat -> Z) (fuel : nat)
    : option scroll_state :=
  Loop.while (scroll_cond MAX_IDLE_STEPS is_set) (scroll_body height) fuel
    (scroll_start height).

(** *** [extract_profile_name] *)
Section Profile.

(** [urlparse(url).path] for a URL with no ["@"]; [None] when [urlparse]
    raises, which the bare [except] turns into the fallback name. *)
Variable urlparse_path : string -> option string.

Definition extract_profile_name (url : string) : string :=
  if has_char "@" url then
    hd "" (str_split "/" (hd "" (str_split "?" (last (str_split "@" url) ""))))
  else
    match urlparse_path url with
    | Some path =>
        match find (fun part =>
                      (negb (part =? "")%string && negb (prefix "@" part))%bool)
                   (str_split "/" (strip_char "/" path)) with
        | Some part => part
        | None => "unknown_profile"
        end
    | None => "unknown_profile"
    end.

End Profile.

End TiktokPage.

(** ** tiktok_query.py *)
Module TiktokQuery.
Import Py.

(** [calculate_engagement]; an argument is an int or [None]. *)
Definition calculate_engagement (likes comments shares reposts : option Z) : Z :=
  or0 likes + or0 comments + or0 shares + or0 reposts.

(** [calculate_engagement_rate], in hundredths. *)
Definition calculate_engagement_rate (engagement : Z) (followers : option Z) : Z :=
  match followers with
  | Some f =>
      if (negb (f =? 0) && (0 <? f))%bool
      then round2 (engagement * 100) f
      else 0
  | None => 0
  end.

(** A raw counter as integer arithmetic can use it: an int (a bool counts
    as one) or [None]. *)
Definition as_count (v : json) : option (option Z) :=
  match v with
  | JAtom PNone => Some None
  | JAtom (PInt z) => Some (Some z)
  | JAtom (PBool b) => Some (Some (Z.b2z b))
  | _ => None
  end.

(** The derived fields of a record: the total and the rate (in
    hundredths). *)
Record engagement := {
  total_engagement : Z;
  engagement_rate : Z
}.

(** The derived fields [_extract_video_data] computes from the counters of
    [item['stats']] and the follower count of [item['authorStats']], when
    these are ints or [None]. On counters of another type Python adds and
    compares floats or strings, or raises; that arithmetic is not modelled
    ([None]). *)
Definition derive (item : json) : option engagement :=
  author_stats <- jget_default item "authorStats" (JDict []) ;;
  stats <- jget_default item "stats" (JDict []) ;;
  likes <- (x <- jget_default stats "diggCount" (JInt 0) ;; as_count x) ;;
  comments <- (x <- jget_default stats "commentCount" (JInt 0) ;; as_count x) ;;
  shares <- (x <- jget_default stats "shareCount" (JInt 0) ;; as_count x) ;;
  reposts <- (x <- jget_default stats "repostCount" (JInt 0) ;; as_count x) ;;
  followers <-
    (x <- jget_default author_stats "followerCount" (JInt 0) ;; as_count x) ;;
  let total := calculate_engagement likes comments shares reposts in
  Some {| total_engagement := total;
          engagement_rate := calculate_engagement_rate total followers |}.

(** A record of [videos_data]: its identifier, [item.get('id')] as it is,
    and the derived fields. The fields copied from the item are left out. *)
Record video := {
  video_id : scalar;
  derived : option engagement
}.

Section Scraper.

(** Whether [_extract_video_data] raises for an item (a field of the wrong
    shape, counters that cannot be added or compared, a timestamp out of
    range): its [try] then returns [None]. The properties below hold
    whichever items these are. *)
Variable raises : json -> bool.

Definition _extract_video_data (item : json) : option video :=
  if raises item then None
  else Some {| video_id := match jget item "id" with
                           | Some (JAtom a) => a
                           | _ => PNone
                           end;
               derived := derive item |}.

Record scraper := {
  videos_data : list video;
  processed_ids : list scalar
}.

Definition scraper0 : scraper := {| videos_data := []; processed_ids := [] |}.

(** [if item and item.get('id') not in self.processed_ids: ...]. The triple
    is [videos_found], [processed_ids] and whether an exception was raised:
    a false item that is not a dict has no [get], an id that is a list or
    a dict cannot be hashed, and [item['id']] needs the key. *)
Definition dedup_item (item : json) (found : list json) (ids : list scalar)
    : list json * list scalar * bool :=
  if jtruthy item then
    match item with
    | JDict d =>
        match assoc "id" d with
        | Some (JAtom a) =>
            if py_in a ids then (found, ids, false)
            else (found ++ [item], a :: ids, false)
        | Some _ => (found, ids, true)
        | None =>
            if py_in PNone ids then (found, ids, false)
            else (found, ids, true)
        end
    | _ => (found, ids, true)
    end
  else (found, ids, false).

(** [section.get('type') == 1 and 'item' in section] *)
Definition is_video_section (d : list (string * json)) : bool :=
  (match assoc "type" d with
   | Some (JAtom a) => py_eqb a (PInt 1)
   | _ => false
   end && jhas d "item")%bool.

Fixpoint process_sections (sections : list json) (found : list json)
    (ids : list scalar) : list json * list scalar * bool :=
  match sections with
  | [] => (found, ids, false)
  | JDict d :: rest =>
      if is_video_section d then
        match assoc "item" d with
        | Some item =>
            let '(found', ids', raised) := dedup_item item found ids in
            if raised then (found', ids', true)
            else process_sections rest found' ids'
        | None => process_sections rest found ids
        end
      else process_sections rest found ids
  | _ :: rest => process_sections rest found ids
  end.

Fixpoint process_item_list (l : list json) (found : list json)
    (ids : list scalar) : list json * list scalar * bool :=
  match l with
  | [] => (found, ids, false)
  | item :: rest =>
      let '(found', ids', raised) := dedup_item item found ids in
      if raised then (found', ids', true)
      else process_item_list rest found' ids'
  end.

Fixpoint extract_all (found : list json) : list video :=
  match found with
  | [] => []
  | item :: rest =>
      match _extract_video_data item with
      | Some v => v :: extract_all rest
      | None => extract_all rest
      end
  end.

(** [_process_api_response]: an exception leaves [videos_data] as it was
    and keeps the ids added before it. A [data] that is not a dict changes
    nothing. *)
Definition _process_api_response (st : scraper) (data : json) : scraper :=
  match data with
  | JDict d =>
      let '(found1, ids1, raised1) :=
        match assoc "data" d with
        | Some (JList sections) => process_sections sections [] (processed_ids st)
        | _ => ([], processed_ids st, false)
        end in
      if raised1 then {| videos_data := videos_data st; processed_ids := ids1 |}
      else
        let '(found2, ids2, raised2) :=
          match assoc "itemList" d with
          | Some (JList l) => process_item_list l found1 ids1
          | _ => (found1, ids1, false)
          end in
        if raised2 then {| videos_data := videos_data st; processed_ids := ids2 |}
        else {| videos_data := videos_data st ++ extract_all found2;
                processed_ids := ids2 |}
  | _ => st
  end.

(** The scroll rounds of [scrape_search_url]. [captured i] is
    [api_responses] as round [i] finds it; [crashes i] tells whether
    [page.evaluate] raises in round [i], which ends the rounds. *)
Fixpoint scroll_rounds (captured : nat -> list json) (crashes : nat -> bool)
    (max_videos : Z) (i rounds : nat) (st : scraper) : scraper :=
  match rounds with
  | O => st
  | S rounds' =>
      if crashes i then st
      else
        let st' := fold_left _process_api_response (captured i) st in
        if Z.of_nat (List.length (videos_data st')) >=? max_videos then st'
        else scroll_rounds captured crashes max_videos (S i) rounds' st'
  end.

Definition scrape_search_url (captured : nat -> list json)
    (crashes : nat -> bool) (max_videos : Z) : list video :=
  slice_to max_videos
    (videos_data (scroll_rounds captured crashes max_videos 0 5 scraper0)).

End Scraper.

End TiktokQuery.

(** ** tiktok_standalone.py *)
Module TiktokStandalone.
Import Py.

(** The [_to_int] local to [_parse_video_from_api]: [None], ValueError and
    TypeError give 0; the OverflowError of an infinity is not caught here
    ([None] below) and makes the enclosing [try] drop the item. *)
Definition _to_int (val : json) : option Z :=
  match val with
  | JAtom (PFloat FPosInf) | JAtom (PFloat FNegInf) => None
  | _ => Some (or0 (jint val))
  end.

(** [item.get(k) or {}] *)
Definition get_dict (item : json) (k : string) : option json :=
  x <- jget item k ;; Some (jor x (JDict [])).

Definition get_or (a b : json) (k : string) : option json :=
  x <- jget a k ;;
  if jtruthy x then Some x else jget b k.

Record video := {
  play_count : Z;
  digg_count : Z;
  comment_count : Z;
  share_count : Z;
  repost_count : Z;
  engagement_rate : Z
}.

(** The statistics of [_parse_video_from_api]; [None] is the [None] the
    function returns for an item with no id or after an exception in the
    statements modelled here. The statements for the fields left out
    (author, music, hashtags, mentions, description) can raise as well, so
    Python returns a record for no more items than this function does. *)
Definition _parse_video_from_api (item : json) : option video :=
  video_id <- jget item "id" ;;
  if negb (jtruthy video_id) then None else
  stats <- get_dict item "stats" ;;
  statsV2 <- get_dict item "statsV2" ;;
  likes <- (x <- get_or statsV2 stats "diggCount" ;; _to_int x) ;;
  comments <- (x <- get_or statsV2 stats "commentCount" ;; _to_int x) ;;
  shares <- (x <- get_or statsV2 stats "shareCount" ;; _to_int x) ;;
  reposts <- (x <- get_or statsV2 stats "collectCount" ;; _to_int x) ;;
  views <- (x <- get_or statsV2 stats "playCount" ;; _to_int x) ;;
  let engagement := likes + comments + shares + reposts in
  Some {| play_count := views;
          digg_count := likes;
          comment_count := comments;
          share_count := shares;
          repost_count := reposts;
          engagement_rate :=
            if 0 <? views then round2 (engagement * 100) views else 0 |}.

(** *** The scroll loop of [scrape_page]

    [len_videos k] is [len(videos_data)] after the [k]-th scroll: the
    response handler runs inside [page.evaluate], so the comparison at the
    end of a turn and the loop condition that follows read the same
    length. *)
Definition max_scrolls : nat := 15.
Definition max_idle : nat := 5.

Record page_scroll := {
  scroll_count : nat;
  idle_count : nat;
  prev_count : nat
}.

Definition page_scroll0 : page_scroll :=
  {| scroll_count := 0; idle_count := 0; prev_count := 0 |}.

Definition page_scroll_step (len_now : nat) (st : page_scroll) : page_scroll :=
  if (len_now =? prev_count st)%nat
  then {| scroll_count := S (scroll_count st);
          idle_count := S (idle_count st);
          prev_count := prev_count st |}
  else {| scroll_count := S (scroll_count st);
          idle_count := 0;
          prev_count := len_now |}.

Definition page_scroll_cond (max_videos : Z) (len_videos : nat -> nat)
    (st : page_scroll) : bool :=
  ((Z.of_nat (len_videos (scroll_count st)) <? max_videos)
   && (scroll_count st <? max_scrolls)%nat
   && (idle_count st <? max_idle)%nat)%bool.

Definition page_scroll_body (len_videos : nat -> nat) (st : page_scroll)
    : page_scroll :=
  page_scroll_step (len_videos (S (scroll_count st))) st.

Definition page_scroll_loop (max_videos : Z) (len_videos : nat -> nat)
    (fuel : nat) : option page_scroll :=
  Loop.while (page_scroll_cond max_videos len_videos)
    (page_scroll_body len_videos) fuel page_scroll0.

(** *** Comment pages *)
Import Http.

Definition retryable (e : exn) : bool :=
  match e with
  | RequestException => true
  | _ => false
  end.

(** The body of [_fetch_comment_page]; [comments_baseqs] is the query
    string of the environment, [None] or empty when it is not set. *)
Definition fetch_comment_page_body (comments_baseqs : option string)
    (o : outcome) : result json :=
  match comments_baseqs with
  | None | Some EmptyString => Ok empty_page
  | Some _ =>
      match o with
      | NetworkError => Ok empty_page
      | Response resp =>
          if status_code resp =? 200 then
            match json_body resp with
            | Some data => Ok data
            | None => Ok empty_page
            end
          else Ok empty_page
      end
  end.

Definition _fetch_comment_page (comments_baseqs : option string)
    (transport : nat -> outcome) : result json * nat :=
  with_retry 3 retryable
    (fun k => fetch_comment_page_body comments_baseqs (transport k)).

Record comment_crawl := {
  cursor : Z;
  page : Z;
  all_comments : list json;
  fetches : nat
}.

Definition comment_crawl0 : comment_crawl :=
  {| cursor := 0; page := 0; all_comments := []; fetches := 0 |}.

(** The loop that appends one [comment_data] per raw comment (kept here
    as the raw comment it is built from); the flag tells whether a comment
    made it raise. *)
Fixpoint append_comments (cs : list json) (acc : list json) : list json * bool :=
  match cs with
  | [] => (acc, false)
  | c :: rest =>
      match (x <- jget c "user" ;; jget (jor x (JDict [])) "uid") with
      | Some _ => append_comments rest (acc ++ [c])
      | None => (acc, true)
      end
  end.

(** One turn of [while page < self.max_comment_pages]. *)
Definition comment_turn (comments_baseqs : option string)
    (api : nat -> Z -> nat -> outcome) (st : comment_crawl)
    : comment_crawl * bool :=
  let fetched acc := {| cursor := cursor st; page := page st;
                        all_comments := acc; fetches := S (fetches st) |} in
  match fst (_fetch_comment_page comments_baseqs (api (fetches st) (cursor st))) with
  | Raise _ => (fetched (all_comments st), false)
  | Ok data =>
      match (x <- jget data "comments" ;; jiter (jor x (JList []))) with
      | None => (fetched (all_comments st), false)
      | Some cs =>
          let '(acc, raised) := append_comments cs (all_comments st) in
          if raised then (fetched acc, false)
          else
            match (x <- jget_default data "has_more" (JInt 0) ;; jint x) with
            | None => (fetched acc, false)
            | Some more =>
                if negb (more =? 1) then (fetched acc, false)
                else
                  match (x <- jget_default data "cursor" (JInt 0) ;; jint x) with
                  | None => (fetched acc, false)
                  | Some next_cursor =>
                      ({| cursor := next_cursor; page := page st + 1;
                          all_comments := acc; fetches := S (fetches st) |},
                       true)
                  end
            end
      end
  end.

Fixpoint comment_loop (comments_baseqs : option string)
    (api : nat -> Z -> nat -> outcome) (max_comment_pages : Z)
    (fuel : nat) (st : comment_crawl) : option comment_crawl :=
  if page st <? max_comment_pages then
    match fuel with
    | O => None
    | S fuel' =>
        let '(st', goes_on) := comment_turn comments_baseqs api st in
        if goes_on
        then comment_loop comments_baseqs api max_comment_pages fuel' st'
        else Some st'
    end
  else Some st.

Definition scrape_comments_for_video (scrape_comments : bool)
    (comments_baseqs : option string) (api : nat -> Z -> nat -> outcome)
    (max_comment_pages : Z) (fuel : nat) : option comment_crawl :=
  if negb scrape_comments then Some comment_crawl0
  else comment_loop comments_baseqs api max_comment_pages fuel comment_crawl0.

(** *** The query parameters of [_fetch_comment_page]

    The loop over the chunks of [comments_baseqs], then the three entries
    of the call; [comments_baseqs] is not empty here. *)
Fixpoint baseqs_params (chunks : list string) (params : list (string * string))
    : list (string * string) :=
  match chunks with
  | [] => params
  | chunk :: rest =>
      match str_partition "=" chunk with
      | Some (k, v) => baseqs_params rest (dict_set k v params)
      | None => baseqs_params rest params
      end
  end.

Definition comment_page_params (comments_baseqs video_id : string) (cursor : Z)
    : list (string * string) :=
  setdefault "count" "20"
    (dict_set "cursor" (str_of_int cursor)
       (dict_set "aweme_id" video_id
          (baseqs_params (str_split "&" comments_baseqs) []))).

(** *** [parse_input] and the file name of [save_to_json] *)

(** [parse_input]: the type and the value, or [None] for the ValueError of
    a URL of another site. [netloc] is [urlparse(input_str).netloc], [None]
    when [urlparse] raises (a ValueError as well). *)
Definition parse_input (netloc : string -> option string) (input_str : string)
    : option (string * string) :=
  let input_str := strip input_str in
  if prefix "http" input_str then
    match netloc input_str with
    | Some n =>
        if contains "tiktok.com" n then Some ("page", input_str) else None
    | None => None
    end
  else Some ("query", input_str).

(** [input_value] and [filename] of [save_to_json]; [timestamp] is
    [datetime.now().strftime('%Y%m%d_%H%M%S')]. *)
Definition input_value (value : string) : string :=
  substring 0 50 (replace "@" "" (replace "/" "_" value)).

Definition filename (input_type value timestamp : string) : string :=
  "tiktok_" ++ input_type ++ "_" ++ input_value value ++ "_" ++ timestamp
  ++ ".json".

End TiktokStandalone.

(** ** tiktok_comment.py *)
Module TiktokComment.
Import Py Http.

Definition _safe_json (resp : http_response) : result json :=
  let ct := lower (content_type resp) in
  if status_code resp =? 200 then
    if (text resp =? "")%string then Raise TikTokJSONError
    else if contains "application/json" ct then
      match json_body resp with
      | Some data => Ok data
      | None => Raise TikTokJSONError
      end
    else Raise TikTokJSONError
  else if existsb (Z.eqb (status_code resp)) [429; 502; 503; 520; 521; 522]
  then Raise TikTokHTTPError
  else Raise TikTokHTTPError.

(** Whether the two debug statements of [fetch_page] run without raising:
    [data] must be a dict and, when it has the key, [data["comments"]] must
    have a length. *)
Definition debug_prints_ok (data : json) : bool :=
  match data with
  | JDict d =>
      match assoc "comments" d with
      | Some v => has_len v
      | None => true
      end
  | _ => false
  end.

(** The [try] block of [fetch_page]. *)
Definition fetch_page_try (o : outcome) : result json :=
  match o with
  | NetworkError => Raise RequestException
  | Response resp =>
      match _safe_json resp with
      | Ok data => if debug_prints_ok data then Ok data else Raise OtherError
      | Raise e => Raise e
      end
  end.

(** The body of [fetch_page]: [except Exception] turns every exception of
    the [try] block into the empty page. *)
Definition fetch_page_body (o : outcome) : result json :=
  match fetch_page_try o with
  | Ok data => Ok data
  | Raise _ => Ok empty_page
  end.

Definition retryable (e : exn) : bool :=
  match e with
  | RequestException | TikTokHTTPError | TikTokJSONError => true
  | OtherError => false
  end.

(** [fetch_page] under its decorator; [transport k] is what the [k]-th
    call of [SESSION.get] meets. *)
Definition fetch_page (transport : nat -> outcome) : result json * nat :=
  with_retry 5 retryable (fun k => fetch_page_body (transport k)).

(** *** [insert_comments] *)

(** The fields of a comment row that depend on the raw comment through a
    branch. Fields copied or converted without one ([comment_id],
    [video_id], [text], counters, timestamps) are left out; none of them
    raises. *)
Record comment_row := {
  parent_comment_id : json;
  user_avatar : json
}.

(** [parent_cid] of [insert_comments]; [JNone] is Python's [None]. *)
Definition parent_cid (c : json) : option json :=
  r <- jget c "reply_id" ;;
  if (jtruthy r
      && negb match r with JAtom (PStr s) => (s =? "0")%string | _ => false end)%bool
  then Some r else Some JNone.

(** [avatar_url] of [insert_comments] for the user [u]. *)
Definition avatar_url (u : json) : option json :=
  at_ <- jget u "avatar_thumb" ;;
  if is_dict at_ then
    url_list <- jget_default at_ "url_list" (JList []) ;;
    if jtruthy url_list then
      if has_len url_list then
        if (0 <? jlen url_list)%nat then first_of url_list else Some JNone
      else None
    else Some JNone
  else Some JNone.

Definition comment_to_row (c : json) : option comment_row :=
  u <- (x <- jget c "user" ;; Some (jor x (JDict []))) ;;
  parent <- parent_cid c ;;
  avatar <- avatar_url u ;;
  Some {| parent_comment_id := parent; user_avatar := avatar |}.

Fixpoint comments_to_rows (cs : list json) : option (list comment_row) :=
  match cs with
  | [] => Some []
  | c :: rest =>
      r <- comment_to_row c ;;
      rs <- comments_to_rows rest ;;
      Some (r :: rs)
  end.

(** [avatar] of [upsert_commenters] for the user [u]; [None] when taking
    the first element raises. *)
Definition commenter_avatar (u : json) : option json :=
  at_ <- (x <- jget u "avatar_thumb" ;; Some (jor x (JDict []))) ;;
  if is_dict at_ then
    x <- jget at_ "url_list" ;;
    first_of (jor x (JList [JNone]))
  else Some JNone.

Fixpoint commenters_ok (cs : list json) : bool :=
  match cs with
  | [] => true
  | c :: rest =>
      match (x <- jget c "user" ;; commenter_avatar (jor x (JDict []))) with
      | Some _ => commenters_ok rest
      | None => false
      end
  end.

(** [insert_comments]: the rows handed to the comments table, or [None]
    when building the rows or the commenters raises. The database calls
    themselves are wrapped in [try] blocks and never raise. *)
Definition insert_comments (comments : json) : option (list comment_row) :=
  if negb (jtruthy comments) then Some []
  else
    cs <- jiter comments ;;
    rows <- comments_to_rows cs ;;
    if commenters_ok cs then Some rows else None.

(** *** [scrape_comments_for_video] *)

Record crawl := {
  cursor : Z;
  page : Z;
  total_fetched : Z;
  fetches : nat;
  inserted : list comment_row
}.

Definition crawl0 : crawl :=
  {| cursor := 0; page := 0; total_fetched := 0; fetches := 0; inserted := [] |}.

(** One turn of the [while True] loop. [api n c] is the transport the
    [n]-th page fetch meets when it asks for cursor [c]. The flag tells
    whether the loop goes on. *)
Definition crawl_turn (api : nat -> Z -> nat -> outcome) (max_pages : Z)
    (st : crawl) : crawl * bool :=
  let fetched := {| cursor := cursor st; page := page st;
                    total_fetched := total_fetched st;
                    fetches := S (fetches st); inserted := inserted st |} in
  match fst (fetch_page (api (fetches st) (cursor st))) with
  | Raise _ => (fetched, false)
  | Ok data =>
      match (x <- jget data "comments" ;; Some (jor x (JList []))) with
      | None => (fetched, false)
      | Some comments =>
          match (if jtruthy comments
                 then (rows <- insert_comments comments ;;
                       if has_len comments then Some (rows, Z.of_nat (jlen comments))
                       else None)
                 else Some ([], 0)) with
          | None => (fetched, false)
          | Some (rows, n) =>
              let stored := {| cursor := cursor st; page := page st;
                               total_fetched := total_fetched st + n;
                               fetches := S (fetches st);
                               inserted := inserted st ++ rows |} in
              match (x <- jget_default data "has_more" (JInt 0) ;; jint x),
                    (x <- jget_default data "cursor" (JInt 0) ;; jint x) with
              | Some more, Some next_cursor =>
                  let has_more := more =? 1 in
                  let page' := page st + 1 in
                  if ((page' >=? max_pages) || negb has_more)%bool
                  then ({| cursor := cursor st; page := page';
                           total_fetched := total_fetched stored;
                           fetches := fetches stored;
                           inserted := inserted stored |}, false)
                  else ({| cursor := next_cursor; page := page';
                           total_fetched := total_fetched stored;
                           fetches := fetches stored;
                           inserted := inserted stored |}, true)
              | _, _ => (stored, false)
              end
          end
      end
  end.

Fixpoint crawl_loop (api : nat -> Z -> nat -> outcome) (max_pages : Z)
    (fuel : nat) (st : crawl) : option crawl :=
  match fuel with
  | O => None
  | S fuel' =>
      let '(st', goes_on) := crawl_turn api max_pages st in
      if goes_on then crawl_loop api max_pages fuel' st' else Some st'
  end.

Definition scrape_comments_for_video (api : nat -> Z -> nat -> outcome)
    (max_pages : Z) (fuel : nat) : option crawl :=
  crawl_loop api max_pages fuel crawl0.

(** *** The query parameters of [fetch_page] *)

(** The loop of [_parse_base_qs] over the chunks: a chunk with no ["="]
    gives no pair. *)
Definition qs_pairs (chunks : list string) : list (string * string) :=
  flat_map (fun chunk =>
              match str_partition "=" chunk with
              | Some kv => [kv]
              | None => []
              end) chunks.

(** [base_qs] is the value of the environment variable, [None] when it is
    not set. *)
Definition _parse_base_qs (base_qs : option string) : list (string * string) :=
  match base_qs with
  | None | Some EmptyString => []
  | Some s => dict_of_pairs (qs_pairs (str_split "&" s))
  end.

(** [params] of [fetch_page] as [urlencode] receives it. *)
Definition fetch_page_params (base_qs : option string) (video_id : string)
    (cursor count : Z) : list (string * string) :=
  setdefault "count" (str_of_int count)
    (dict_set "cursor" (str_of_int cursor)
       (dict_set "aweme_id" video_id (_parse_base_qs base_qs))).

End TiktokComment.

(** ** instagram_scraper.py *)
Module InstagramScraper.
Import Py.

(** [#[\w\u0080-\uFFFF]+] and [@[\w\.]+] *)
Definition hashtag_char (c : ascii) : bool :=
  (is_word c || (128 <=? nat_of_ascii c)%nat)%bool.
Definition mention_char (c : ascii) : bool :=
  (is_word c || Ascii.eqb c ".")%bool.

(** [clean_value] of [safe_json_dumps]: a float that is NaN or an infinity
    becomes [None], dicts and lists are cleaned entry by entry, every other
    value is returned as it is. *)
Fixpoint clean_value (val : json) : json :=
  match val with
  | JAtom (PFloat (FFinite _ _)) => val
  | JAtom (PFloat _) => JNone
  | JAtom _ => val
  | JDict d => JDict (map (fun kv : string * json =>
                      let (k, v) := kv in (k, clean_value v)) d)
  | JList l => JList (map clean_value l)
  end.

Section Normalizer.
Context `{Runtime}.

Definition _extract_hashtags (text : string) : list string :=
  if (text =? "")%string then []
  else firstn 30 (set_list (findall "#" hashtag_char text)).

Definition _extract_mentions (text : string) : list string :=
  if (text =? "")%string then []
  else firstn 30 (set_list (findall "@" mention_char text)).

(** The scalar cells of a row of the DataFrame: [row.get(k)] is [None] for
    a column the frame does not have. The columns that hold lists or dicts
    (taggedUsers, childPosts, latestComments, musicInfo, coauthorProducers)
    are not part of it: they feed only fields that are left out of
    [post_record], through tests that do not raise. *)
Definition row := list (string * scalar).

Definition get (r : row) (k : string) : scalar :=
  match assoc k r with Some v => v | None => PNone end.

Definition get_default (r : row) (k : string) (default : scalar) : scalar :=
  match assoc k r with Some v => v | None => default end.

Definition valid_types : list string :=
  ["Image"; "Video"; "Sidecar"; "Carousel"; "GraphImage"; "GraphVideo";
   "GraphSidecar"].

Definition is_valid_type (post_type : string) : bool :=
  existsb (fun t => (lower post_type =? lower t)%string) valid_types.

Definition safe_int (value : scalar) (default : Z) : Z :=
  if pd_isna value then default
  else
    match value with
    | PFloat FNaN | PFloat FPosInf | PFloat FNegInf => default
    | _ => match py_int value with Some z => z | None => default end
    end.

Definition safe_str (value : scalar) (default : string) : string :=
  if pd_isna value then default else py_str value.

(** [row.get('id') or row.get('pk') or row.get('shortCode') or
    row.get('code')] *)
Definition resolve_post_id (r : row) : scalar :=
  py_or (get r "id") (py_or (get r "pk") (py_or (get r "shortCode") (get r "code"))).

(** [abs(hash(s)) % (10 ** 10)] *)
Definition hash_id (s : string) : Z := Z.abs (str_hash s) mod 10 ^ 10.

(** The [try] block that turns [post_id] into an integer; [None] when it
    raises. *)
Definition post_id_try (idx : Z) (post_id : scalar) : option Z :=
  match post_id with
  | PBool _ | PInt _ | PFloat _ =>
      if negb (pd_isna post_id) then py_int post_id
      else Some (hash_id (str_of_int idx))
  | PStr s => if isdigit s then int_of_string s else Some (hash_id s)
  | PNone => Some (hash_id (str_of_int idx))
  end.

Definition convert_post_id (idx : Z) (r : row) (post_id : scalar) : Z :=
  match post_id_try idx post_id with
  | Some z => z
  | None => hash_id (py_str (get_default r "shortCode" (PInt idx)))
  end.

Record post_record := {
  post_id : Z;
  short_code : string;
  caption : string;
  post_type : string;
  product_type : string;
  likes_count : Z;
  comments_count : Z;
  video_view_count : Z;
  video_play_count : Z;
  dimensions_width : Z;
  dimensions_height : Z;
  owner_id : option Z;
  owner_username : string;
  owner_full_name : string;
  location_id : option Z;
  location_name : string;
  display_url : string;
  video_url : option string;
  url : string;
  input_url : string;
  post_timestamp : string;
  hashtags : list string;
  mentions : list string
}.

(** One turn of the loop of [normalize_and_insert_posts] over the rows:
    the record appended for the row at index [idx], or [None] when the row
    is skipped ([continue], or an exception caught by the [try] of the
    turn). *)
Definition normalize_post (idx : Z) (r : row) : option post_record :=
  let post_type := get r "type" in
  if truthy post_type then
    match post_type with
    | PStr t =>
        let t := strip t in
        if negb (is_valid_type t) then None
        else
          let raw_id := resolve_post_id r in
          if (negb (truthy raw_id) || pd_isna raw_id)%bool then None
          else
            let cap := substring 0 2000 (safe_str (get r "caption") "") in
            Some {|
              post_id := convert_post_id idx r raw_id;
              short_code := safe_str (py_or (get r "shortCode") (get r "code")) "";
              caption := cap;
              post_type := replace "graph" "" (lower t);
              product_type := safe_str (get r "productType") "";
              likes_count := safe_int (get r "likesCount") 0;
              comments_count := safe_int (get r "commentsCount") 0;
              video_view_count := safe_int (get r "videoViewCount") 0;
              video_play_count := safe_int (get r "videoPlayCount") 0;
              dimensions_width := safe_int (get r "dimensionsWidth") 0;
              dimensions_height := safe_int (get r "dimensionsHeight") 0;
              owner_id := if truthy (get r "ownerId")
                          then Some (safe_int (get r "ownerId") 0) else None;
              owner_username := safe_str (get r "ownerUsername") "";
              owner_full_name := safe_str (get r "ownerFullName") "";
              location_id := if truthy (get r "locationId")
                             then Some (safe_int (get r "locationId") 0) else None;
              location_name := safe_str (get r "locationName") "";
              display_url := safe_str (get r "displayUrl") "";
              video_url := if truthy (get r "videoUrl")
                           then Some (safe_str (get r "videoUrl") "") else None;
              url := safe_str (get r "url") "";
              input_url := safe_str (get r "inputUrl") "";
              post_timestamp := safe_str (get r "timestamp") "";
              hashtags := if (cap =? "")%string then [] else _extract_hashtags cap;
              mentions := if (cap =? "")%string then [] else _extract_mentions cap
            |}
    | _ => None
    end
  else None.

(** The caption excerpt [normalize_and_insert_hashtag] stores for a post of
    [topPosts] or [latestPosts], from the value of its [caption] key. *)
Definition newline : string := String (ascii_of_nat 10) EmptyString.
Definition dquote : string := String (ascii_of_nat 34) EmptyString.
Definition backslash : string := String (ascii_of_nat 92) EmptyString.

Definition hashtag_post_caption (v : scalar) : string :=
  if truthy v then
    let c := py_str v in
    let c := replace (backslash ++ "n") newline c in
    let c := replace (backslash ++ "t") " " c in
    let c := replace (backslash ++ dquote) dquote c in
    let c := replace (backslash ++ "'") "'" c in
    substring 0 500 c
  else "".

End Normalizer.

(** *** [prepare_hashtag_input] *)
Definition prepare_hashtag_input (results_limit : Z) (hashtag : string) : json :=
  let clean_hashtag := strip_char "#" hashtag in
  JDict [("addParentData", JAtom (PBool false));
         ("enhanceUserSearchWithFacebookPage", JAtom (PBool false));
         ("isUserReelFeedURL", JAtom (PBool false));
         ("isUserTaggedFeedURL", JAtom (PBool false));
         ("resultsLimit", JInt results_limit);
         ("resultsType", JStr "details");
         ("searchType", JStr "hashtag");
         ("searchLimit", JInt results_limit);
         ("search", JStr clean_hashtag)].

(** *** [normalize_and_insert_hashtag]

    A row of the frame is the dict of its cells; the cells [topPosts] and
    [latestPosts] hold lists of raw posts. *)
Module Hashtag.
Section Normalizer.
Context `{Runtime}.

(** [str(v)] of a list or a dict, which the sources do not fix. *)
Variable container_str : json -> string.

Definition jstr (v : json) : string :=
  match v with
  | JAtom a => py_str a
  | _ => container_str v
  end.

(** The clean post object. *)
Record post_data := {
  id : string;
  shortCode : json;
  caption : string;
  likesCount : Z;
  commentsCount : Z;
  timestamp : json;
  ownerUsername : json;
  type : json
}.

(** [likes] and [comments]: [int(v)] under a bare [except] when [v] is
    true, 0 otherwise. *)
Definition count_of (v : json) : Z :=
  if jtruthy v then match jint v with Some z => z | None => 0 end else 0.

Definition caption_of (v : json) : string :=
  if jtruthy v then
    let c := jstr v in
    let c := replace (backslash ++ "n") newline c in
    let c := replace (backslash ++ "t") " " c in
    let c := replace (backslash ++ dquote) dquote c in
    let c := replace (backslash ++ "'") "'" c in
    substring 0 500 c
  else "".

(** One turn of a loop over posts: the list the post is appended to and
    [total_engagement]. A post that is not a dict, or has no true [id] and
    no true [shortCode], is passed over. The set [unique_users], updated
    after the append, is left out; adding to it is the one statement of the
    turn that can raise, and the [try] of the turn catches that. *)
Definition post_step (post : json) (acc : list post_data * Z)
    : list post_data * Z :=
  match post with
  | JDict d =>
      let get k := match assoc k d with Some v => v | None => JNone end in
      let get_default k default :=
        match assoc k d with Some v => v | None => default end in
      let post_id := jor (get "id") (get "shortCode") in
      if negb (jtruthy post_id) then acc
      else
        let likes := count_of (get "likesCount") in
        let comments := count_of (get "commentsCount") in
        (fst acc ++ [{| id := jstr post_id;
                        shortCode := get_default "shortCode" (JStr "");
                        caption := caption_of (get "caption");
                        likesCount := likes;
                        commentsCount := comments;
                        timestamp := get_default "timestamp" (JStr "");
                        ownerUsername := get_default "ownerUsername" (JStr "");
                        type := get_default "type" (JStr "Image") |}],
         snd acc + (likes + comments))
  | _ => acc
  end.

(** [row[k][:10]] when [row.get(k)] is a list that is not empty. *)
Definition row_posts (row : list (string * json)) (k : string) : list json :=
  match assoc k row with
  | Some (JList l) => firstn 10 l
  | _ => []
  end.

(** The locals [posts_data], [top_posts_data] and [total_engagement]. *)
Definition row_step (st : list post_data * list post_data * Z)
    (row : list (string * json)) : list post_data * list post_data * Z :=
  let '(posts_data, top_posts_data, total_engagement) := st in
  let '(top_posts_data, total_engagement) :=
    fold_left (fun acc post => post_step post acc) (row_posts row "topPosts")
      (top_posts_data, total_engagement) in
  let '(posts_data, total_engagement) :=
    fold_left (fun acc post => post_step post acc) (row_posts row "latestPosts")
      (posts_data, total_engagement) in
  (posts_data, top_posts_data, total_engagement).

(** The record handed to the table [instagram_hashtags]. The keys that do
    not depend on the rows (brand, batch, time) are left out, and so is
    [avg_engagement], the float quotient of [total_engagement] and
    [posts_count], which Python computes before the insert and which raises
    for a total beyond the range of a float. *)
Record hashtag_record := {
  hashtag_name : string;
  hashtag_slug : string;
  posts_count : nat;
  url : string;
  latest_posts : list post_data;
  top_posts : list post_data;
  total_engagement : Z;
  scraped_posts_count : nat
}.

(** [None] when the function returns before the insert: an empty frame, or
    no valid post. *)
Definition normalize_and_insert_hashtag (rows : list (list (string * json)))
    (hashtag : string) : option hashtag_record :=
  let hashtag_clean := lower (strip_char "#" hashtag) in
  let hashtag_slug := replace "#" "" (replace " " "" hashtag_clean) in
  let '(posts_data, top_posts_data, total) := fold_left row_step rows ([], [], 0) in
  match posts_data, top_posts_data with
  | [], [] => None
  | _, _ =>
      Some {| hashtag_name := "#" ++ hashtag_clean;
              hashtag_slug := hashtag_slug;
              posts_count := List.length posts_data + List.length top_posts_data;
              url := "https://www.instagram.com/explore/tags/" ++ hashtag_slug
                     ++ "/";
              latest_posts := posts_data;
              top_posts := top_posts_data;
              total_engagement := total;
              scraped_posts_count :=
                List.length posts_data + List.length top_posts_data |}
  end.

End Normalizer.
End Hashtag.

End InstagramScraper.

(** ** instagram_standalone.py *)
Module InstagramStandalone.
Import Py.

Section Normalizer.
Context `{Runtime}.

(** [_extract_hashtags], [_extract_mentions], [safe_int] and [safe_str]
    have the text they have in instagram_scraper.py. *)
Definition _extract_hashtags := InstagramScraper._extract_hashtags.
Definition _extract_mentions := InstagramScraper._extract_mentions.
Definition safe_int := InstagramScraper.safe_int.
Definition safe_str := InstagramScraper.safe_str.
Definition row := InstagramScraper.row.
Definition get := InstagramScraper.get.
Definition get_default := InstagramScraper.get_default.
Definition is_valid_type := InstagramScraper.is_valid_type.

Definition resolve_post_id (r : row) : scalar :=
  py_or (get r "id") (py_or (get r "pk") (py_or (get r "shortCode") (get r "code"))).

Record post_record := {
  post_id : string;
  short_code : string;
  caption : string;
  post_type : string;
  likes_count : Z;
  comments_count : Z;
  video_view_count : Z;
  owner_username : string;
  owner_full_name : string;
  display_url : string;
  video_url : option string;
  url : string;
  timestamp : string;
  hashtags : list string;
  mentions : list string;
  hashtag_count : nat;
  mention_count : nat;
  location_name : string
}.

(** One turn of the loop of [normalize_profile_data]. A [type] that is
    false skips the check of the type; a [type] that is not a string makes
    [lower()] raise, there or when the record is built. *)
Definition normalize_post (r : row) : option post_record :=
  match get_default r "type" (PStr "") with
  | PStr t =>
      if (negb (t =? "")%string && negb (is_valid_type t))%bool then None
      else
        let raw_id := resolve_post_id r in
        if (negb (truthy raw_id) || pd_isna raw_id)%bool then None
        else
          let cap := substring 0 2000 (safe_str (get r "caption") "") in
          let tags := _extract_hashtags cap in
          let ments := _extract_mentions cap in
          Some {|
            post_id := py_str raw_id;
            short_code := safe_str (py_or (get r "shortCode") (get r "code")) "";
            caption := cap;
            post_type := replace "graph" "" (lower t);
            likes_count := safe_int (get r "likesCount") 0;
            comments_count := safe_int (get r "commentsCount") 0;
            video_view_count := safe_int (get r "videoViewCount") 0;
            owner_username := safe_str (get r "ownerUsername") "";
            owner_full_name := safe_str (get r "ownerFullName") "";
            display_url := safe_str (get r "displayUrl") "";
            video_url := if truthy (get r "videoUrl")
                         then Some (safe_str (get r "videoUrl") "") else None;
            url := safe_str (get r "url") "";
            timestamp := safe_str (get r "timestamp") "";
            hashtags := tags;
            mentions := ments;
            hashtag_count := List.length tags;
            mention_count := List.length ments;
            location_name := safe_str (get r "locationName") ""
          |}
  | _ => None
  end.

(** The caption excerpt of [normalize_hashtag_data]:
    [str(row.get('caption', ''))] with the two-character escape replaced
    by a newline, cut at 500. *)
Definition hashtag_post_caption (r : row) : string :=
  substring 0 500
    (replace (InstagramScraper.backslash ++ "n") InstagramScraper.newline
       (py_str (get_default r "caption" (PStr "")))).

End Normalizer.

(** *** [parse_input], [prepare_hashtag_input] and the file name of
    [save_to_json] *)

(** [parse_input]: the type and the value, or [None] for the ValueError of
    a URL of another site. [netloc] is [urlparse(input_str).netloc], [None]
    when [urlparse] raises (a ValueError as well). *)
Definition parse_input (netloc : string -> option string) (input_str : string)
    (input_type : option string) : option (string * string) :=
  let input_str := strip input_str in
  let detected :=
    if prefix "http" input_str then
      match netloc input_str with
      | Some n =>
          if contains "instagram.com" n then Some ("profile", input_str)
          else None
      | None => None
      end
    else Some ("hashtag", strip_char "#" input_str) in
  match input_type with
  | None | Some EmptyString => detected
  | Some t =>
      if (t =? "hashtag")%string
      then Some ("hashtag", strip_char "#" input_str)
      else if (t =? "profile")%string then
        if prefix "http" input_str then Some ("profile", input_str)
        else Some ("profile",
                   ("https://www.instagram.com/" ++ input_str ++ "/")%string)
      else detected
  end.

Definition prepare_hashtag_input (results_limit : Z) (hashtag : string) : json :=
  let clean_hashtag := strip_char "#" hashtag in
  JDict [("addParentData", JAtom (PBool false));
         ("enhanceUserSearchWithFacebookPage", JAtom (PBool false));
         ("isUserReelFeedURL", JAtom (PBool false));
         ("isUserTaggedFeedURL", JAtom (PBool false));
         ("resultsLimit", JInt results_limit);
         ("resultsType", JStr "posts");
         ("searchType", JStr "hashtag");
         ("searchLimit", JInt results_limit);
         ("search", JStr clean_hashtag)].

(** [input_value] and [filename] of [save_to_json]; [timestamp] is
    [datetime.now().strftime('%Y%m%d_%H%M%S')]. *)
Definition input_value (value : string) : string :=
  substring 0 50 (replace "/" "_" (replace "#" "" value)).

Definition filename (input_type value timestamp : string) : string :=
  "instagram_" ++ input_type ++ "_" ++ input_value value ++ "_" ++ timestamp
  ++ ".json".

(** *** [normalize_hashtag_data]

    With [resultsType] "posts" every row of the frame is a post. *)
Module Hashtag.
Section Normalizer.
Context `{Runtime}.

Record post_data := {
  id : string;
  shortCode : string;
  caption : string;
  likesCount : Z;
  commentsCount : Z;
  timestamp : string;
  ownerUsername : string;
  type : scalar;
  url : string
}.

(** [int(row.get(k, 0)) if not pd.isna(row.get(k)) else 0]; [None] when
    [int] raises. *)
Definition count_of (r : row) (k : string) : option Z :=
  if pd_isna (get r k) then Some 0 else py_int (get_default r k (PInt 0)).

(** The body of the [try] for one row: the post appended, or [None] when
    the row is passed over by a [continue] or by an exception. *)
Definition row_post (r : row) : option post_data :=
  let post_type := get_default r "type" (PStr "") in
  if (truthy post_type
      && negb match post_type with
              | PStr t => is_valid_type t
              | _ => false
              end)%bool
  then None
  else
    let post_id := py_or (get r "id") (py_or (get r "pk") (get r "shortCode")) in
    if (negb (truthy post_id) || pd_isna post_id)%bool then None
    else
      likes <- count_of r "likesCount" ;;
      comments <- count_of r "commentsCount" ;;
      Some {| id := py_str post_id;
              shortCode := py_str (get_default r "shortCode" (PStr ""));
              caption := hashtag_post_caption r;
              likesCount := likes;
              commentsCount := comments;
              timestamp := py_str (get_default r "timestamp" (PStr ""));
              ownerUsername := py_str (get_default r "ownerUsername" (PStr ""));
              type := post_type;
              url := py_str (get_default r "url" (PStr "")) |}.

(** The locals [posts_data], [total_engagement] and [unique_users], the
    set kept as the list of its members. *)
Definition row_step (st : list post_data * Z * list string) (r : row)
    : list post_data * Z * list string :=
  let '(posts_data, total_engagement, unique_users) := st in
  match row_post r with
  | Some post =>
      (posts_data ++ [post],
       total_engagement + (likesCount post + commentsCount post),
       if ((ownerUsername post =? "")%string
           || existsb (String.eqb (ownerUsername post)) unique_users)%bool
       then unique_users
       else ownerUsername post :: unique_users)
  | None => st
  end.

(** The dict the function returns, without [avg_engagement], the float
    quotient of [total_engagement] and [posts_count], which raises for a
    total beyond the range of a float. *)
Record hashtag_data := {
  hashtag_name : string;
  hashtag_slug : string;
  posts_count : nat;
  hashtag_url : string;
  posts : list post_data;
  total_engagement : Z;
  unique_users_count : nat
}.

Definition normalize_hashtag_data (rows : list row) (hashtag : string)
    : option hashtag_data :=
  let hashtag_clean := lower (strip_char "#" hashtag) in
  let '(posts_data, total, unique_users) := fold_left row_step rows ([], 0, []) in
  match posts_data with
  | [] => None
  | _ =>
      Some {| hashtag_name := "#" ++ hashtag_clean;
              hashtag_slug := replace " " "" hashtag_clean;
              posts_count := List.length posts_data;
              hashtag_url := "https://www.instagram.com/explore/tags/"
                             ++ hashtag_clean ++ "/";
              posts := posts_data;
              total_engagement := total;
              unique_users_count := List.length unique_users |}
  end.

End Normalizer.
End Hashtag.

End InstagramStandalone.

(** ** Sample inputs *)
Module Samples.
Import Py.

(** An instance of the runtime for the examples. The samples hold no
    finite float, so the text given to floats is never read, and no example
    depends on the value a hash takes. *)
Definition runtime : Runtime :=
  {| float_str := fun _ _ => "0.0";
     str_hash := fun s => Z.of_nat (String.length s);
     set_list := nodup string_dec;
     set_list_NoDup := NoDup_nodup string_dec;
     set_list_In := fun l x => nodup_In string_dec l x |}.

(** A runtime that lists a set from its last member. *)
Lemma reversed_listing_NoDup (l : list string) :
  NoDup (rev (nodup string_dec l)).
Proof. apply NoDup_rev, NoDup_nodup. Qed.

Lemma reversed_listing_In (l : list string) (x : string) :
  In x (rev (nodup string_dec l)) <-> In x l.
Proof. rewrite <- in_rev. apply nodup_In. Qed.

Definition reversing_runtime : Runtime :=
  {| float_str := fun _ _ => "0.0";
     str_hash := fun s => Z.of_nat (String.length s);
     set_list := fun l => rev (nodup string_dec l);
     set_list_NoDup := reversed_listing_NoDup;
     set_list_In := reversed_listing_In |}.

(** Rows of a posts frame: a post known by its short code only, with a NaN
    like count and no caption; and the same post in a frame that has an
    [id] column, where pandas fills the missing id with NaN. *)
Definition short_code_row : list (string * scalar) :=
  [("type", PStr "Image"); ("likesCount", PFloat FNaN);
   ("shortCode", PStr "abc123")].

Definition nan_id_row : list (string * scalar) :=
  [("type", PStr "Image"); ("id", PFloat FNaN); ("likesCount", PFloat FNaN);
   ("shortCode", PStr "abc123")].

(** A video with likes=100, comments=20, shares=5, reposts=0, views=1000. *)
Definition video_item (followers : Z) : json :=
  JDict [("id", JStr "7301");
         ("stats", JDict [("diggCount", JInt 100); ("commentCount", JInt 20);
                          ("shareCount", JInt 5); ("collectCount", JInt 0);
                          ("repostCount", JInt 0); ("playCount", JInt 1000)]);
         ("authorStats", JDict [("followerCount", JInt followers)])].

(** Transports that fail on every call: a 503, a 200 with an empty body,
    and a connection error. *)
Definition always_503 : nat -> Http.outcome :=
  fun _ => Http.Response {| Http.status_code := 503;
                            Http.content_type := "text/html";
                            Http.text := "Service Unavailable";
                            Http.json_body := None |}.

Definition always_empty_body : nat -> Http.outcome :=
  fun _ => Http.Response {| Http.status_code := 200;
                            Http.content_type := "application/json";
                            Http.text := "";
                            Http.json_body := None |}.

Definition always_unreachable : nat -> Http.outcome :=
  fun _ => Http.NetworkError.

(** A response of the profile feed with the videos of the given ids. *)
Definition profile_response (ids : list string) : TiktokPage.response :=
  {| TiktokPage.url_is_item_list := true;
     TiktokPage.status := 200;
     TiktokPage.content_type_is_json := true;
     TiktokPage.body :=
       Some (JDict [("itemList",
                     JList (map (fun id => JDict [("id", JStr id)]) ids));
                    ("hasMore", JAtom (PBool true))]) |}.

(** A search response with one video, and the responses the scroll rounds
    of a search find: the first reports the end of the results, a second
    one is captured all the same from the second round on. *)
Definition search_response (id : string) (has_more : bool) : json :=
  JDict [("itemList", JList [JDict [("id", JStr id)]]);
         ("has_more", JAtom (PBool has_more))].

Definition captured_past_the_end (round : nat) : list json :=
  match round with
  | O => [search_response "7301" false]
  | S _ => [search_response "7301" false; search_response "7302" true]
  end.

(** A reply to a comment, a top-level comment with the sentinel, and a
    comment with no [reply_id]. *)
Definition reply_comment : json :=
  JDict [("cid", JStr "9002"); ("reply_id", JStr "9001"); ("text", JStr "me too")].
Definition sentinel_comment : json :=
  JDict [("cid", JStr "9001"); ("reply_id", JStr "0"); ("text", JStr "first")].
Definition plain_comment : json :=
  JDict [("cid", JStr "9003"); ("text", JStr "nice")].

(** A hashtag frame as instagram_scraper reads it: one row with two top
    posts, the second with no identifier, and one latest post. *)
Definition hashtag_frame : list (list (string * json)) :=
  [[("name", JStr "tuborg");
    ("topPosts",
     JList [JDict [("id", JStr "3301"); ("caption", JStr "Cheers #tuborg");
                   ("likesCount", JInt 40); ("commentsCount", JInt 2);
                   ("ownerUsername", JStr "anna")];
            JDict [("caption", JStr "no identifier")]]);
    ("latestPosts",
     JList [JDict [("shortCode", JStr "Cx1"); ("likesCount", JInt 5)]])]].

(** A frame of posts as instagram_standalone reads it: two posts of one
    owner and a row that is no post. *)
Definition posts_frame : list (list (string * scalar)) :=
  [[("type", PStr "Image"); ("id", PStr "3301"); ("likesCount", PInt 40);
    ("commentsCount", PInt 2); ("ownerUsername", PStr "anna")];
   [("type", PStr "Video"); ("shortCode", PStr "Cx1"); ("likesCount", PInt 5);
    ("ownerUsername", PStr "anna")];
   [("type", PStr "Story"); ("id", PStr "3302")]].

End Samples.

(** * Properties *)

(** Inversion of a chain of binds that ends in [Some]: every bound
    expression returned a value, and no guard gave up. *)
Ltac unbind H :=
  repeat match type of H with
         | match ?e with Some _ => _ | None => None end = Some _ =>
             destruct e; [ | discriminate H ]
         | (if ?b then None else _) = Some _ =>
             destruct b; [ discriminate H | ]
         end.

(** ** Engagement arithmetic *)
Module Engagement.
Import Py.

(** [rate] is a hundredth nearest to [total / den * 100]. *)
Definition nearest_hundredth (rate total den : Z) : Prop :=
  2 * Z.abs (rate * den - total * 10000) <= den.

Lemma round_half_even_nearest (n d : Z) :
  0 < d -> 2 * Z.abs (round_half_even n d * d - n) <= d.
Proof.
  intros Hd. unfold round_half_even.
  pose proof (Z.div_mod n d ltac:(lia)) as Hdm.
  pose proof (Z.mod_pos_bound n d Hd) as Hr.
  set (q := n / d) in *. set (r := n mod d) in *.
  destruct (Z.ltb_spec (2 * r) d).
  - replace (q * d - n) with (- r) by lia. lia.
  - destruct (Z.ltb_spec d (2 * r)).
    + replace ((q + 1) * d - n) with (d - r) by lia. lia.
    + destruct (Z.even q).
      * replace (q * d - n) with (- r) by lia. lia.
      * replace ((q + 1) * d - n) with (d - r) by lia. lia.
Qed.

Lemma round2_nearest (total den : Z) :
  0 < den -> nearest_hundredth (round2 (total * 100) den) total den.
Proof.
  intros Hd. unfold nearest_hundredth, round2.
  replace (total * 10000) with (total * 100 * 100) by lia.
  now apply round_half_even_nearest.
Qed.

Lemma positive_test (f : Z) :
  (negb (f =? 0) && (0 <? f))%bool = (0 <? f).
Proof.
  destruct (Z.ltb_spec 0 f); destruct (Z.eqb_spec f 0); simpl; auto; lia.
Qed.

Lemma page_rate_of (total : Z) (followers : option Z) :
  TiktokPage.rate_of total followers =
  match followers with
  | Some f => if 0 <? f then Some (round2 (total * 100) f) else None
  | None => None
  end.
Proof.
  destruct followers as [f|]; simpl; auto. now rewrite positive_test.
Qed.

Lemma tiktok_to_row_fields (v : json) (r : TiktokPage.row) :
  TiktokPage.tiktok_to_row v = Some r ->
  TiktokPage.total_engagement r =
    or0 (TiktokPage.like_count r) + or0 (TiktokPage.comment_count r)
    + or0 (TiktokPage.share_count r) + or0 (TiktokPage.repost_count r)
  /\ TiktokPage.engagement_rate r =
     TiktokPage.rate_of (TiktokPage.total_engagement r) (TiktokPage.follower_count r).
Proof.
  unfold TiktokPage.tiktok_to_row. intros Hrow.
  unbind Hrow.
  injection Hrow as <-. simpl. split; reflexivity.
Qed.

Lemma parse_video_fields (item : json) (v : TiktokStandalone.video) :
  TiktokStandalone._parse_video_from_api item = Some v ->
  TiktokStandalone.engagement_rate v =
    let total := TiktokStandalone.digg_count v + TiktokStandalone.comment_count v
                 + TiktokStandalone.share_count v + TiktokStandalone.repost_count v in
    if 0 <? TiktokStandalone.play_count v
    then round2 (total * 100) (TiktokStandalone.play_count v) else 0.
Proof.
  unfold TiktokStandalone._parse_video_from_api. intros Hv.
  unbind Hv.
  injection Hv as <-. reflexivity.
Qed.


(** C1, as amended. The engagement total is the sum of the four resolved
    counters. With a positive follower or view count the rate is a
    hundredth nearest to total / count * 100. With a count that is zero,
    negative or missing the rate is 0 in [calculate_engagement_rate] and in
    [_parse_video_from_api], and null in [tiktok_to_row]. Likes 100,
    comments 20, shares 5, reposts 0 and 1000 views give 125 and 12.50. *)
Theorem engagement_total_and_rate :
  (forall likes comments shares reposts,
      TiktokQuery.calculate_engagement likes comments shares reposts
      = or0 likes + or0 comments + or0 shares + or0 reposts)
  /\ (forall total followers,
         0 < followers ->
         nearest_hundredth
           (TiktokQuery.calculate_engagement_rate total (Some followers))
           total followers)
  /\ (forall total followers,
         followers <= 0 ->
         TiktokQuery.calculate_engagement_rate total (Some followers) = 0)
  /\ (forall total, TiktokQuery.calculate_engagement_rate total None = 0)
  /\ (forall v r,
         TiktokPage.tiktok_to_row v = Some r ->
         TiktokPage.total_engagement r
         = or0 (TiktokPage.like_count r) + or0 (TiktokPage.comment_count r)
           + or0 (TiktokPage.share_count r) + or0 (TiktokPage.repost_count r)
         /\ match TiktokPage.follower_count r with
            | Some followers =>
                if 0 <? followers
                then exists rate,
                    TiktokPage.engagement_rate r = Some rate
                    /\ nearest_hundredth rate (TiktokPage.total_engagement r)
                         followers
                else TiktokPage.engagement_rate r = None
            | None => TiktokPage.engagement_rate r = None
            end)
  /\ (forall item v,
         TiktokStandalone._parse_video_from_api item = Some v ->
         let total := TiktokStandalone.digg_count v
                      + TiktokStandalone.comment_count v
                      + TiktokStandalone.share_count v
                      + TiktokStandalone.repost_count v in
         (0 < TiktokStandalone.play_count v ->
          nearest_hundredth (TiktokStandalone.engagement_rate v) total
            (TiktokStandalone.play_count v))
         /\ (TiktokStandalone.play_count v <= 0 ->
             TiktokStandalone.engagement_rate v = 0))
  /\ TiktokQuery.calculate_engagement (Some 100) (Some 20) (Some 5) (Some 0) = 125
  /\ TiktokQuery.calculate_engagement_rate 125 (Some 1000) = 1250
  /\ option_map TiktokStandalone.engagement_rate
       (TiktokStandalone._parse_video_from_api (Samples.video_item 1000))
     = Some 1250
  /\ option_map
       (fun r => (TiktokPage.total_engagement r, TiktokPage.engagement_rate r))
       (TiktokPage.tiktok_to_row (Samples.video_item 1000))
     = Some (125, Some 1250)
  /\ TiktokQuery.derive (Samples.video_item 1000)
     = Some {| TiktokQuery.total_engagement := 125;
               TiktokQuery.engagement_rate := 1250 |}.
Proof.
  repeat split; try reflexivity.
  - intros total followers Hf. unfold TiktokQuery.calculate_engagement_rate.
    rewrite positive_test.
    destruct (Z.ltb_spec 0 followers); [ | lia ].
    now apply round2_nearest.
  - intros total followers Hf. unfold TiktokQuery.calculate_engagement_rate.
    rewrite positive_test.
    destruct (Z.ltb_spec 0 followers); [ lia | reflexivity ].
  - exact (proj1 (tiktok_to_row_fields _ _ H)).
  - apply tiktok_to_row_fields in H as [_ Hrate].
    rewrite Hrate, page_rate_of.
    destruct (TiktokPage.follower_count r) as [f|]; [ | reflexivity ].
    destruct (Z.ltb_spec 0 f); [ | reflexivity ].
    eexists. split; [ reflexivity | ]. now apply round2_nearest.
  - intros Hviews. rewrite (parse_video_fields _ _ H). cbv zeta.
    destruct (Z.ltb_spec 0 (TiktokStandalone.play_count v)); [ | lia ].
    now apply round2_nearest.
  - intros Hviews. rewrite (parse_video_fields _ _ H). cbv zeta.
    destruct (Z.ltb_spec 0 (TiktokStandalone.play_count v)); [ lia | reflexivity ].
Qed.

Lemma engagement_total_and_rate_witness :
  nearest_hundredth
    (TiktokQuery.calculate_engagement_rate 125 (Some 1000)) 125 1000.
Proof.
  apply (proj1 (proj2 engagement_total_and_rate)). lia.
Defined.

(** C1 as stated fails in [tiktok_to_row]: with a follower count of zero
    the row carries no rate at all, where the claim has 0. *)
Lemma tiktok_to_row_rate_is_null_without_followers :
  option_map TiktokPage.engagement_rate
    (TiktokPage.tiktok_to_row (Samples.video_item 0))
  = Some None.
Proof. reflexivity. Qed.

End Engagement.

(** ** The retry decorator and the page fetch *)
Module Fetch.
Import Py Http.

(** What the decorator does with a function that keeps raising an
    exception it selects: [n] calls, then the exception itself. *)
Lemma retry_from_exhausts {A : Type} (retryable : exn -> bool) (e : exn)
    (call : nat -> result A) (remaining attempt : nat) :
  retryable e = true ->
  (forall k, call k = Raise e) ->
  retry_from retryable remaining attempt call = (Raise e, (attempt + remaining)%nat).
Proof.
  intros He Hcall. revert attempt.
  induction remaining as [|remaining IH]; intros attempt; simpl;
    rewrite Hcall, He.
  - now rewrite Nat.add_0_r.
  - rewrite IH. f_equal. lia.
Qed.

Lemma with_retry_exhausts {A : Type} (retryable : exn -> bool) (e : exn)
    (call : nat -> result A) (n : nat) :
  (1 <= n)%nat ->
  retryable e = true ->
  (forall k, call k = Raise e) ->
  with_retry n retryable call = (Raise e, n).
Proof.
  intros Hn He Hcall. unfold with_retry.
  rewrite (retry_from_exhausts retryable e call _ _ He Hcall). f_equal. lia.
Qed.

(** A function that returns at its first call is called once. *)
Lemma with_retry_returns_at_once {A : Type} (retryable : exn -> bool)
    (call : nat -> result A) (n : nat) (a : A) :
  call 1%nat = Ok a -> with_retry n retryable call = (Ok a, 1%nat).
Proof.
  intros Hcall. unfold with_retry.
  destruct (n - 1)%nat; simpl; now rewrite Hcall.
Qed.

Lemma fetch_page_body_returns (o : outcome) :
  TiktokComment.fetch_page_body o
  = Ok match TiktokComment.fetch_page_try o with
       | Ok data => data
       | Raise _ => empty_page
       end.
Proof.
  unfold TiktokComment.fetch_page_body.
  now destruct (TiktokComment.fetch_page_try o).
Qed.

Lemma fetch_comment_page_body_returns (baseqs : option string) (o : outcome) :
  exists data, TiktokStandalone.fetch_comment_page_body baseqs o = Ok data.
Proof.
  unfold TiktokStandalone.fetch_comment_page_body.
  destruct baseqs as [[|c q]|]; try (eexists; reflexivity).
  destruct o as [resp|]; try (eexists; reflexivity).
  destruct (status_code resp =? 200); try (eexists; reflexivity).
  destruct (json_body resp); eexists; reflexivity.
Qed.

(** C3: the code at the failing input. Whatever the transport does, the
    decorated [fetch_page] and [_fetch_comment_page] call it once and
    return a page; with a transport that answers 503 to every call the
    result is the empty page after one call, where the claim has five
    (three) calls and the error. *)
Theorem fetch_page_stops_after_one_attempt :
  (forall transport,
      snd (TiktokComment.fetch_page transport) = 1%nat
      /\ exists data, fst (TiktokComment.fetch_page transport) = Ok data)
  /\ (forall baseqs transport,
         snd (TiktokStandalone._fetch_comment_page baseqs transport) = 1%nat
         /\ exists data,
             fst (TiktokStandalone._fetch_comment_page baseqs transport) = Ok data)
  /\ TiktokComment.fetch_page Samples.always_503 = (Ok empty_page, 1%nat)
  /\ TiktokStandalone._fetch_comment_page (Some "aid=1988") Samples.always_503
     = (Ok empty_page, 1%nat)
  /\ TiktokStandalone._fetch_comment_page (Some "aid=1988")
       Samples.always_unreachable
     = (Ok empty_page, 1%nat).
Proof.
  repeat split; try reflexivity.
  - unfold TiktokComment.fetch_page.
    erewrite with_retry_returns_at_once by apply fetch_page_body_returns.
    reflexivity.
  - unfold TiktokComment.fetch_page.
    erewrite with_retry_returns_at_once by apply fetch_page_body_returns.
    eexists. reflexivity.
  - unfold TiktokStandalone._fetch_comment_page.
    destruct (fetch_comment_page_body_returns baseqs (transport 1%nat)) as [d Hd].
    now erewrite with_retry_returns_at_once by exact Hd.
  - unfold TiktokStandalone._fetch_comment_page.
    destruct (fetch_comment_page_body_returns baseqs (transport 1%nat)) as [d Hd].
    erewrite with_retry_returns_at_once by exact Hd. now exists d.
Qed.

(** C4: the code at the failing inputs. The page [fetch_page] hands to its
    caller is the data of the first call when the [try] block returns, and
    the empty page whenever it raises: an HTTP error status, an empty body
    and a connection error all arrive as a page with no comments and
    [has_more] 0. *)
Theorem failed_fetch_returns_empty_page :
  (forall transport,
      fst (TiktokComment.fetch_page transport)
      = Ok match TiktokComment.fetch_page_try (transport 1%nat) with
           | Ok data => data
           | Raise _ => empty_page
           end)
  /\ TiktokComment.fetch_page_try (Samples.always_503 1%nat) = Raise TikTokHTTPError
  /\ fst (TiktokComment.fetch_page Samples.always_503) = Ok empty_page
  /\ TiktokComment.fetch_page_try (Samples.always_empty_body 1%nat)
     = Raise TikTokJSONError
  /\ fst (TiktokComment.fetch_page Samples.always_empty_body) = Ok empty_page
  /\ TiktokComment.fetch_page_try (Samples.always_unreachable 1%nat)
     = Raise RequestException
  /\ fst (TiktokComment.fetch_page Samples.always_unreachable) = Ok empty_page
  /\ fst (TiktokStandalone._fetch_comment_page (Some "aid=1988") Samples.always_503)
     = Ok empty_page.
Proof.
  repeat split; try reflexivity.
  intros transport. unfold TiktokComment.fetch_page.
  erewrite with_retry_returns_at_once by apply fetch_page_body_returns.
  reflexivity.
Qed.

End Fetch.

(** ** Comment rows *)
Module Comments.
Import Py.

Definition is_sentinel (r : json) : bool :=
  match r with
  | JAtom (PStr s) => (s =? "0")%string
  | _ => false
  end.

Lemma is_sentinel_spec (r : json) :
  is_sentinel r = true <-> r = JStr "0".
Proof.
  unfold is_sentinel, JStr. split.
  - destruct r as [[| | | |s]| |]; try discriminate.
    intros Hs. apply String.eqb_eq in Hs. now subst.
  - intros ->. reflexivity.
Qed.

Lemma parent_cid_dict (d : list (string * json)) :
  TiktokComment.parent_cid (JDict d)
  = let r := match assoc "reply_id" d with Some x => x | None => JNone end in
    Some (if (jtruthy r && negb (is_sentinel r))%bool then r else JNone).
Proof.
  unfold TiktokComment.parent_cid, jget, jget_default. cbv zeta.
  fold (is_sentinel match assoc "reply_id" d with Some x => x | None => JNone end).
  now destruct (jtruthy _ && negb _)%bool.
Qed.

Lemma comment_to_row_parent (c : json) (row : TiktokComment.comment_row) :
  TiktokComment.comment_to_row c = Some row ->
  TiktokComment.parent_cid c = Some (TiktokComment.parent_comment_id row).
Proof.
  unfold TiktokComment.comment_to_row. intros Hrow.
  destruct (jget c "user"); [ | discriminate ].
  destruct (TiktokComment.parent_cid c); [ | discriminate ].
  destruct (TiktokComment.avatar_url _); [ | discriminate ].
  now injection Hrow as <-.
Qed.

(** C10. For a raw comment (a JSON object) with [reply_id] value [r] ([None]
    when the key is missing), [parent_cid] is [r] when [r] is present (true
    in Python's sense) and is not the string "0", and null otherwise; the
    row built for the comment carries that value, so no row has "0" for its
    parent. Sample comments: a reply, the sentinel, no [reply_id]. *)
Theorem parent_comment_id_is_reply_id_unless_sentinel :
  (forall d,
      let r := match assoc "reply_id" d with Some x => x | None => JNone end in
      exists p,
        TiktokComment.parent_cid (JDict d) = Some p
        /\ (jtruthy r = true /\ r <> JStr "0" -> p = r)
        /\ (jtruthy r = false \/ r = JStr "0" -> p = JNone)
        /\ p <> JStr "0")
  /\ (forall c row,
         TiktokComment.comment_to_row c = Some row ->
         TiktokComment.parent_cid c = Some (TiktokComment.parent_comment_id row)
         /\ TiktokComment.parent_comment_id row <> JStr "0")
  /\ option_map TiktokComment.parent_comment_id
       (TiktokComment.comment_to_row Samples.reply_comment) = Some (JStr "9001")
  /\ option_map TiktokComment.parent_comment_id
       (TiktokComment.comment_to_row Samples.sentinel_comment) = Some JNone
  /\ option_map TiktokComment.parent_comment_id
       (TiktokComment.comment_to_row Samples.plain_comment) = Some JNone.
Proof.
  assert (Hdict : forall d,
      let r := match assoc "reply_id" d with Some x => x | None => JNone end in
      exists p,
        TiktokComment.parent_cid (JDict d) = Some p
        /\ (jtruthy r = true /\ r <> JStr "0" -> p = r)
        /\ (jtruthy r = false \/ r = JStr "0" -> p = JNone)
        /\ p <> JStr "0").
  { intros d r. rewrite parent_cid_dict. fold r. cbv zeta.
    eexists. split; [ reflexivity | ].
    destruct (jtruthy r) eqn:Ht; simpl.
    - destruct (is_sentinel r) eqn:Hs; simpl.
      + apply is_sentinel_spec in Hs.
        repeat split; try discriminate; tauto.
      + assert (r <> JStr "0") as Hne
          by (intros Heq; apply is_sentinel_spec in Heq; congruence).
        repeat split; auto. intros [Hf|Heq]; [ discriminate | contradiction ].
    - repeat split; try discriminate; auto. intros [Hf _]. discriminate. }
  repeat split; try reflexivity.
  - exact Hdict.
  - now apply comment_to_row_parent.
  - apply comment_to_row_parent in H.
    destruct c as [a|l|d]; try discriminate.
    destruct (Hdict d) as (p & Hp & _ & _ & Hne). congruence.
Qed.

Lemma parent_comment_id_is_reply_id_unless_sentinel_witness :
  TiktokComment.parent_cid Samples.reply_comment
  = Some (TiktokComment.parent_comment_id
            {| TiktokComment.parent_comment_id := JStr "9001";
               TiktokComment.user_avatar := JNone |})
  /\ TiktokComment.parent_comment_id
       {| TiktokComment.parent_comment_id := JStr "9001";
          TiktokComment.user_avatar := JNone |} <> JStr "0".
Proof.
  apply (proj1 (proj2 parent_comment_id_is_reply_id_unless_sentinel)).
  reflexivity.
Defined.

End Comments.

(** ** Generic facts about [while] *)
Module LoopFacts.
Import Loop.
Section While.
Context {St : Type} (cond : St -> bool) (body : St -> St).

Lemma iterate_succ (k : nat) (s : St) :
  iterate body (S k) s = body (iterate body k s).
Proof.
  revert s. induction k as [|k IH]; intros s; [ reflexivity | ].
  change (iterate body (S (S k)) s)
    with (iterate body (S k) (body s)).
  now rewrite IH.
Qed.

(** The loop ends in the state of the first turn count at which the
    condition fails. *)
Lemma while_first_stop (fuel : nat) (s s' : St) :
  while cond body fuel s = Some s' ->
  exists k, (k <= fuel)%nat
            /\ s' = iterate body k s
            /\ cond s' = false
            /\ forall j, (j < k)%nat -> cond (iterate body j s) = true.
Proof.
  revert s. induction fuel as [|fuel IH]; intros s; simpl;
    destruct (cond s) eqn:Hc; try discriminate.
  - intros [= <-]. exists 0%nat. repeat split; auto. intros j Hj. lia.
  - intros Hw. destruct (IH _ Hw) as (k & Hk & -> & Hstop & Hbefore).
    exists (S k). repeat split; auto; [ lia | ].
    intros [|j] Hj; simpl; [ assumption | apply Hbefore; lia ].
  - intros [= <-]. exists 0%nat. repeat split; auto; [ lia | ].
    intros j Hj. lia.
Qed.

(** Fuel up to a turn count at which the condition fails is enough. *)
Lemma while_terminates (k : nat) (s : St) :
  cond (iterate body k s) = false ->
  exists s', while cond body k s = Some s'.
Proof.
  revert s. induction k as [|k IH]; intros s Hk; simpl in *.
  - rewrite Hk. now exists s.
  - destruct (cond s); [ now apply IH | now exists s ].
Qed.

Lemma while_more_fuel (fuel fuel' : nat) (s s' : St) :
  (fuel <= fuel')%nat ->
  while cond body fuel s = Some s' -> while cond body fuel' s = Some s'.
Proof.
  revert fuel' s. induction fuel as [|fuel IH]; intros fuel' s Hle; simpl.
  - destruct (cond s) eqn:Hc; [ discriminate | ].
    intros [= <-]. destruct fuel'; simpl; now rewrite Hc.
  - destruct fuel' as [|fuel']; [ lia | ]. simpl.
    destruct (cond s); [ apply IH; lia | auto ].
Qed.

End While.
End LoopFacts.

(** ** Scroll loops *)
Module Scroll.
Import Py Loop LoopFacts.

Section Page.
Import TiktokPage.
Variable is_set : nat -> bool.
Variable height : nat -> Z.

(** The state of [_scroll] after [k] scroll steps. *)
Definition state_after (k : nat) : scroll_state :=
  iterate (scroll_body height) k (scroll_start height).

Lemma state_after_succ (k : nat) :
  state_after (S k) = scroll_step (height (S (steps (state_after k)))) (state_after k).
Proof. unfold state_after. now rewrite iterate_succ. Qed.

Lemma state_after_steps (k : nat) :
  steps (state_after k) = k /\ h_prev (state_after k) = height k.
Proof.
  induction k as [|k [IHs IHh]]; [ now split | ].
  rewrite state_after_succ, IHs. now split; simpl; try rewrite IHs.
Qed.

Lemma state_after_idle (k : nat) :
  idle (state_after (S k))
  = if height (S k) =? height k then S (idle (state_after k)) else 0%nat.
Proof.
  destruct (state_after_steps k) as [Hs Hh].
  rewrite state_after_succ, Hs. simpl. now rewrite Hh.
Qed.

(** Over a stretch of unchanged height the idle counter counts the steps. *)
Lemma idle_on_plateau (n j : nat) :
  (forall k, (n <= k)%nat -> height k = height n) ->
  (j <= idle (state_after (n + j)))%nat.
Proof.
  intros Hflat. induction j as [|j IH]; [ lia | ].
  replace (n + S j)%nat with (S (n + j)) by lia.
  rewrite state_after_idle.
  rewrite (Hflat (S (n + j))), (Hflat (n + j)%nat) by lia.
  rewrite Z.eqb_refl. lia.
Qed.

Lemma idle_grows_by_one (k : nat) :
  (idle (state_after (S k)) <= S (idle (state_after k)))%nat.
Proof.
  rewrite state_after_idle. destruct (height (S k) =? height k); lia.
Qed.

Lemma scroll_result (fuel : nat) (st : scroll_state) :
  _scroll is_set height fuel = Some st ->
  exists k,
    st = state_after k
    /\ (is_set k = true \/ idle st = MAX_IDLE_STEPS)
    /\ forall j, (j < k)%nat ->
                 is_set j = false /\ (idle (state_after j) < MAX_IDLE_STEPS)%nat.
Proof.
  unfold _scroll. intros Hw.
  apply while_first_stop in Hw as (k & _ & Hst & Hstop & Hbefore).
  fold (state_after k) in Hst. exists k.
  assert (Hrun : forall j, (j < k)%nat ->
            is_set j = false /\ (idle (state_after j) < MAX_IDLE_STEPS)%nat).
  { intros j Hj. specialize (Hbefore j Hj). fold (state_after j) in Hbefore.
    unfold scroll_cond in Hbefore.
    rewrite (proj1 (state_after_steps j)) in Hbefore.
    apply andb_prop in Hbefore as [Hd Hi].
    apply negb_true_iff in Hd. apply Nat.ltb_lt in Hi. now split. }
  split; [ exact Hst | split; [ | exact Hrun ] ].
  subst st. unfold scroll_cond in Hstop.
  rewrite (proj1 (state_after_steps k)) in Hstop.
  apply andb_false_iff in Hstop as [Hd|Hi].
  - left. now apply negb_false_iff in Hd.
  - right. apply Nat.ltb_ge in Hi.
    destruct k as [|k].
    + cbn in Hi. unfold MAX_IDLE_STEPS in Hi. lia.
    + pose proof (idle_grows_by_one k) as Hone.
      destruct (Hrun k) as [_ Hlt]; [ lia | lia ].
Qed.

Lemma scroll_terminates_on_plateau (n : nat) :
  (forall k, (n <= k)%nat -> height k = height n) ->
  exists st, _scroll is_set height (n + MAX_IDLE_STEPS) = Some st.
Proof.
  intros Hflat. unfold _scroll. apply while_terminates.
  fold (state_after (n + MAX_IDLE_STEPS)). unfold scroll_cond.
  apply andb_false_iff. right. apply Nat.ltb_ge.
  now apply idle_on_plateau.
Qed.

End Page.

Section Standalone.
Import TiktokStandalone.
Variable max_videos : Z.
Variable len_videos : nat -> nat.

(** The state of the scroll loop of [scrape_page] after [k] scrolls. *)
Definition page_state_after (k : nat) : page_scroll :=
  iterate (page_scroll_body len_videos) k page_scroll0.

Lemma page_state_after_succ (k : nat) :
  page_state_after (S k)
  = page_scroll_step (len_videos (S (scroll_count (page_state_after k))))
      (page_state_after k).
Proof. unfold page_state_after. now rewrite iterate_succ. Qed.

Lemma page_state_after_count (k : nat) :
  scroll_count (page_state_after k) = k.
Proof.
  induction k as [|k IH]; [ reflexivity | ].
  rewrite page_state_after_succ, IH. unfold page_scroll_step.
  destruct (len_videos (S k) =? prev_count (page_state_after k))%nat;
    simpl; now rewrite IH.
Qed.

Lemma page_idle_grows_by_one (k : nat) :
  (idle_count (page_state_after (S k)) <= S (idle_count (page_state_after k)))%nat.
Proof.
  rewrite page_state_after_succ. unfold page_scroll_step.
  destruct (_ =? _)%nat; simpl; lia.
Qed.

Lemma page_scroll_total :
  exists st, page_scroll_loop max_videos len_videos max_scrolls = Some st.
Proof.
  unfold page_scroll_loop. apply while_terminates.
  fold (page_state_after max_scrolls). unfold page_scroll_cond.
  rewrite page_state_after_count, Nat.ltb_irrefl.
  now rewrite andb_false_r.
Qed.

Lemma page_scroll_result (fuel : nat) (st : page_scroll) :
  page_scroll_loop max_videos len_videos fuel = Some st ->
  exists k,
    st = page_state_after k
    /\ (max_videos <= Z.of_nat (len_videos k)
        \/ k = max_scrolls
        \/ idle_count st = max_idle)
    /\ forall j, (j < k)%nat ->
                 Z.of_nat (len_videos j) < max_videos
                 /\ (j < max_scrolls)%nat
                 /\ (idle_count (page_state_after j) < max_idle)%nat.
Proof.
  unfold page_scroll_loop. intros Hw.
  apply while_first_stop in Hw as (k & _ & Hst & Hstop & Hbefore).
  fold (page_state_after k) in Hst. exists k.
  assert (Hrun : forall j, (j < k)%nat ->
            Z.of_nat (len_videos j) < max_videos
            /\ (j < max_scrolls)%nat
            /\ (idle_count (page_state_after j) < max_idle)%nat).
  { intros j Hj. specialize (Hbefore j Hj).
    fold (page_state_after j) in Hbefore. unfold page_scroll_cond in Hbefore.
    rewrite page_state_after_count in Hbefore.
    apply andb_prop in Hbefore as [Hb Hi]. apply andb_prop in Hb as [Hl Hs].
    apply Z.ltb_lt in Hl. apply Nat.ltb_lt in Hs, Hi. now repeat split. }
  split; [ exact Hst | split; [ | exact Hrun ] ].
  subst st. unfold page_scroll_cond in Hstop.
  rewrite page_state_after_count in Hstop.
  apply andb_false_iff in Hstop as [Hb|Hi].
  - apply andb_false_iff in Hb as [Hl|Hs].
    + left. now apply Z.ltb_ge in Hl.
    + right. left. apply Nat.ltb_ge in Hs.
      destruct k as [|k]; [ unfold max_scrolls in Hs; lia | ].
      destruct (Hrun k) as (_ & Hlt & _); lia.
  - right. right. apply Nat.ltb_ge in Hi.
    destruct k as [|k].
    + cbn in Hi. unfold max_idle in Hi. lia.
    + pose proof (page_idle_grows_by_one k) as Hone.
      destruct (Hrun k) as (_ & _ & Hlt); lia.
Qed.

End Standalone.

(** C9. The idle counter of [_scroll] goes up by one on a step that leaves
    the page height unchanged and back to zero otherwise; that of the scroll
    loop of [scrape_page] does the same on the number of collected videos.
    Each loop ends at the first step count at which its condition fails, so
    [_scroll] ends with the idle counter at [MAX_IDLE_STEPS] unless [done]
    was set, and it does end, with [done] never set, once the height stays
    unchanged. The loop of [scrape_page] always ends within [max_scrolls]
    turns, with the idle counter at [max_idle] unless the video cap or the
    scroll cap ended it. *)
Theorem idle_counter_ends_scroll_loop :
  (forall h_curr st,
      TiktokPage.idle (TiktokPage.scroll_step h_curr st)
      = (if h_curr =? TiktokPage.h_prev st then S (TiktokPage.idle st) else 0%nat)
      /\ TiktokPage.h_prev (TiktokPage.scroll_step h_curr st) = h_curr)
  /\ (forall is_set height fuel st,
         TiktokPage._scroll is_set height fuel = Some st ->
         exists k,
           st = state_after height k
           /\ (is_set k = true \/ TiktokPage.idle st = TiktokPage.MAX_IDLE_STEPS)
           /\ forall j, (j < k)%nat ->
                        is_set j = false
                        /\ (TiktokPage.idle (state_after height j)
                            < TiktokPage.MAX_IDLE_STEPS)%nat)
  /\ (forall height n,
         (forall k, (n <= k)%nat -> height k = height n) ->
         exists st,
           TiktokPage._scroll (fun _ => false) height
             (n + TiktokPage.MAX_IDLE_STEPS) = Some st
           /\ TiktokPage.idle st = TiktokPage.MAX_IDLE_STEPS)
  /\ (forall len_now st,
         TiktokStandalone.idle_count (TiktokStandalone.page_scroll_step len_now st)
         = (if (len_now =? TiktokStandalone.prev_count st)%nat
            then S (TiktokStandalone.idle_count st) else 0%nat)
         /\ TiktokStandalone.prev_count (TiktokStandalone.page_scroll_step len_now st)
            = len_now)
  /\ (forall max_videos len_videos,
         exists st k,
           TiktokStandalone.page_scroll_loop max_videos len_videos
             TiktokStandalone.max_scrolls = Some st
           /\ st = page_state_after len_videos k
           /\ (max_videos <= Z.of_nat (len_videos k)
               \/ k = TiktokStandalone.max_scrolls
               \/ TiktokStandalone.idle_count st = TiktokStandalone.max_idle)
           /\ forall j, (j < k)%nat ->
                        (TiktokStandalone.idle_count (page_state_after len_videos j)
                         < TiktokStandalone.max_idle)%nat)
  /\ TiktokStandalone.page_scroll_loop 50 (fun _ => 0%nat)
       TiktokStandalone.max_scrolls
     = Some {| TiktokStandalone.scroll_count := 5;
               TiktokStandalone.idle_count := 5;
               TiktokStandalone.prev_count := 0 |}.
Proof.
  split; [ | split; [ | split; [ | split; [ | split ] ] ] ].
  - intros h_curr st. now split.
  - intros is_set height fuel st. apply scroll_result.
  - intros height n Hflat.
    destruct (scroll_terminates_on_plateau (fun _ => false) height n Hflat)
      as [st Hst].
    exists st. split; [ exact Hst | ].
    apply scroll_result in Hst as (k & _ & [Hset|Hidle] & _);
      [ discriminate | exact Hidle ].
  - intros len_now st. unfold TiktokStandalone.page_scroll_step.
    destruct (Nat.eqb_spec len_now (TiktokStandalone.prev_count st));
      simpl; split; auto.
  - intros max_videos len_videos.
    destruct (page_scroll_total max_videos len_videos) as [st Hst].
    destruct (page_scroll_result _ _ _ _ Hst) as (k & Hk & Hexit & Hrun).
    exists st, k. repeat split; auto. intros j Hj. now apply Hrun.
  - reflexivity.
Qed.

(** A page whose height is 4000 from the start. *)
Lemma idle_counter_ends_scroll_loop_witness :
  exists st,
    TiktokPage._scroll (fun _ => false) (fun _ => 4000)
      (0 + TiktokPage.MAX_IDLE_STEPS) = Some st
    /\ TiktokPage.idle st = TiktokPage.MAX_IDLE_STEPS.
Proof.
  apply (proj1 (proj2 (proj2 idle_counter_ends_scroll_loop)) (fun _ => 4000) 0%nat).
  reflexivity.
Defined.

End Scroll.

(** ** Pagination caps *)
Module Pagination.
Import Py Http.

Section CommentCrawl.
Import TiktokComment.
Variable api : nat -> Z -> nat -> outcome.
Variable max_pages : Z.

(** [has_more] as the loop reads it from a page: [int(data.get("has_more",
    0))]. *)
Definition has_more_of (data : json) : option Z :=
  x <- jget_default data "has_more" (JInt 0) ;; jint x.

Lemma crawl_turn_fetches (st : crawl) :
  fetches (fst (crawl_turn api max_pages st)) = S (fetches st).
Proof.
  unfold crawl_turn.
  repeat match goal with
         | |- context [match ?e with _ => _ end] => destruct e; simpl
         end; reflexivity.
Qed.

(** A turn after which the loop goes on fetched a page with [has_more] 1
    and left the page count below the cap. *)
Lemma crawl_turn_goes_on (st st' : crawl) :
  crawl_turn api max_pages st = (st', true) ->
  page st' = page st + 1
  /\ page st' < max_pages
  /\ exists data,
      fst (fetch_page (api (fetches st) (cursor st))) = Ok data
      /\ has_more_of data = Some 1.
Proof.
  unfold crawl_turn, has_more_of.
  destruct (fst (fetch_page _)) as [data|e]; [ | discriminate ].
  destruct (x <- jget data "comments" ;; Some (jor x (JList [])))
    as [comments|]; [ | discriminate ].
  destruct (if jtruthy comments then _ else _) as [[rows n]|]; [ | discriminate ].
  destruct (x <- jget_default data "has_more" (JInt 0) ;; jint x)
    as [more|] eqn:Hmore; [ | discriminate ].
  destruct (x <- jget_default data "cursor" (JInt 0) ;; jint x)
    as [next_cursor|]; [ | discriminate ].
  destruct (Z.geb_spec (page st + 1) max_pages); simpl; [ discriminate | ].
  destruct (Z.eqb_spec more 1); simpl; [ | discriminate ].
  intros [= <-]. simpl. subst more.
  split; [ reflexivity | split; [ lia | now exists data ] ].
Qed.

Lemma crawl_loop_bound (fuel : nat) (st st' : crawl) :
  Z.of_nat (fetches st) = page st ->
  crawl_loop api max_pages fuel st = Some st' ->
  Z.of_nat (fetches st') <= Z.max (page st + 1) max_pages.
Proof.
  revert st. induction fuel as [|fuel IH]; intros st Hinv; simpl; [ discriminate | ].
  pose proof (crawl_turn_fetches st) as Hf.
  destruct (crawl_turn api max_pages st) as [st1 goes_on] eqn:Hturn.
  simpl in Hf. destruct goes_on.
  - intros Hloop. apply crawl_turn_goes_on in Hturn as (Hp & Hlt & _).
    assert (Z.of_nat (fetches st1) = page st1) as Hinv1 by lia.
    specialize (IH _ Hinv1 Hloop). lia.
  - intros [= <-]. lia.
Qed.

Lemma crawl_loop_terminates (fuel : nat) (st : crawl) :
  (max_pages - page st <= Z.of_nat fuel)%Z ->
  (1 <= fuel)%nat ->
  exists st', crawl_loop api max_pages fuel st = Some st'.
Proof.
  revert st. induction fuel as [|fuel IH]; intros st Hfuel Hone; [ lia | ].
  simpl. destruct (crawl_turn api max_pages st) as [st1 goes_on] eqn:Hturn.
  destruct goes_on; [ | now exists st1 ].
  apply crawl_turn_goes_on in Hturn as (Hp & Hlt & _).
  apply IH; lia.
Qed.

(** With a cap below 2 the loop makes exactly one fetch: the cap is tested
    after the page was fetched. *)
Lemma crawl_loop_fetches_once (fuel : nat) :
  max_pages <= 1 ->
  exists st,
    scrape_comments_for_video api max_pages (S fuel) = Some st
    /\ fetches st = 1%nat.
Proof.
  intros Hcap. unfold scrape_comments_for_video. simpl.
  pose proof (crawl_turn_fetches crawl0) as Hf.
  destruct (crawl_turn api max_pages crawl0) as [st1 goes_on] eqn:Hturn.
  destruct goes_on.
  - apply crawl_turn_goes_on in Hturn as (Hp & Hlt & _). simpl in Hp. lia.
  - exists st1. now split.
Qed.

End CommentCrawl.

Section StandaloneCrawl.
Import TiktokStandalone.
Variable comments_baseqs : option string.
Variable api : nat -> Z -> nat -> outcome.
Variable max_comment_pages : Z.

Lemma comment_turn_fetches (st : comment_crawl) :
  fetches (fst (comment_turn comments_baseqs api st)) = S (fetches st).
Proof.
  unfold comment_turn.
  repeat match goal with
         | |- context [match ?e with _ => _ end] => destruct e; simpl
         end; reflexivity.
Qed.

Lemma comment_turn_goes_on (st st' : comment_crawl) :
  comment_turn comments_baseqs api st = (st', true) ->
  page st' = page st + 1
  /\ exists data,
      fst (_fetch_comment_page comments_baseqs (api (fetches st) (cursor st)))
      = Ok data
      /\ has_more_of data = Some 1.
Proof.
  unfold comment_turn, has_more_of.
  destruct (fst (_fetch_comment_page _ _)) as [data|e]; [ | discriminate ].
  destruct (x <- jget data "comments" ;; jiter (jor x (JList [])))
    as [cs|]; [ | discriminate ].
  destruct (append_comments cs (all_comments st)) as [acc raised].
  destruct raised; [ discriminate | ].
  destruct (x <- jget_default data "has_more" (JInt 0) ;; jint x)
    as [more|] eqn:Hmore; [ | discriminate ].
  destruct (Z.eqb_spec more 1); simpl; [ | discriminate ].
  destruct (x <- jget_default data "cursor" (JInt 0) ;; jint x)
    as [next_cursor|]; [ | discriminate ].
  intros [= <-]. simpl. subst more. split; [ reflexivity | now exists data ].
Qed.

Lemma comment_loop_bound (fuel : nat) (st st' : comment_crawl) :
  Z.of_nat (fetches st) = page st ->
  comment_loop comments_baseqs api max_comment_pages fuel st = Some st' ->
  Z.of_nat (fetches st') <= Z.max (page st) max_comment_pages.
Proof.
  revert st. induction fuel as [|fuel IH]; intros st Hinv; simpl;
    destruct (Z.ltb_spec (page st) max_comment_pages); try discriminate;
    try (intros [= <-]; lia).
  pose proof (comment_turn_fetches st) as Hf.
  destruct (comment_turn comments_baseqs api st) as [st1 goes_on] eqn:Hturn.
  simpl in Hf. destruct goes_on.
  - intros Hloop. apply comment_turn_goes_on in Hturn as (Hp & _).
    assert (Z.of_nat (fetches st1) = page st1) as Hinv1 by lia.
    specialize (IH _ Hinv1 Hloop). lia.
  - intros [= <-]. lia.
Qed.

Lemma comment_loop_terminates (fuel : nat) (st : comment_crawl) :
  max_comment_pages - page st <= Z.of_nat fuel ->
  exists st', comment_loop comments_baseqs api max_comment_pages fuel st = Some st'.
Proof.
  revert st. induction fuel as [|fuel IH]; intros st Hfuel; simpl;
    destruct (Z.ltb_spec (page st) max_comment_pages);
    try (now exists st); try lia.
  destruct (comment_turn comments_baseqs api st) as [st1 goes_on] eqn:Hturn.
  destruct goes_on; [ | now exists st1 ].
  apply comment_turn_goes_on in Hturn as (Hp & _). apply IH. lia.
Qed.

End StandaloneCrawl.

Section SearchCap.
Import TiktokQuery.
Variable raises : json -> bool.

Lemma slice_to_length {A : Type} (n : Z) (l : list A) :
  0 <= n -> Z.of_nat (List.length (slice_to n l)) <= n.
Proof.
  intros Hn. unfold slice_to. destruct (Z.leb_spec 0 n); [ | lia ].
  pose proof (firstn_le_length (Z.to_nat n) l). lia.
Qed.

(** Only the five rounds count. *)
Lemma scroll_rounds_ext (captured captured' : nat -> list json)
    (crashes crashes' : nat -> bool) (max_videos : Z) (rounds i : nat)
    (st : scraper) :
  (forall j, (i <= j < i + rounds)%nat ->
             captured j = captured' j /\ crashes j = crashes' j) ->
  scroll_rounds raises captured crashes max_videos i rounds st
  = scroll_rounds raises captured' crashes' max_videos i rounds st.
Proof.
  revert i st. induction rounds as [|rounds IH]; intros i st Hsame; simpl;
    [ reflexivity | ].
  destruct (Hsame i ltac:(lia)) as [<- <-].
  destruct (crashes i); [ reflexivity | ].
  destruct (_ >=? max_videos); [ reflexivity | ].
  apply IH. intros j Hj. apply Hsame. lia.
Qed.

End SearchCap.

(** C8, as amended. The comment loops ([scrape_comments_for_video] of
    tiktok_comment and of tiktok_standalone) go on to another page only
    after a page whose [has_more] is 1, and end once the page cap is
    reached: with a cap of at least 1 the first makes at most [max_pages]
    fetches, and the second at most [max_comment_pages] for any cap. The
    scroll rounds of [scrape_search_url] do not read [has_more]: they are
    at most five, and the videos returned are at most [max_videos] (for a
    cap that is not negative). *)
Theorem pagination_ends_at_cap_or_last_page :
  (forall api max_pages,
      1 <= max_pages ->
      exists st,
        TiktokComment.scrape_comments_for_video api max_pages (Z.to_nat max_pages)
        = Some st
        /\ Z.of_nat (TiktokComment.fetches st) <= max_pages)
  /\ (forall api max_pages st st',
         TiktokComment.crawl_turn api max_pages st = (st', true) ->
         exists data,
           fst (TiktokComment.fetch_page
                  (api (TiktokComment.fetches st) (TiktokComment.cursor st)))
           = Ok data
           /\ has_more_of data = Some 1)
  /\ (forall scrape_comments baseqs api max_comment_pages,
         exists st,
           TiktokStandalone.scrape_comments_for_video scrape_comments baseqs api
             max_comment_pages (Z.to_nat max_comment_pages) = Some st
           /\ Z.of_nat (TiktokStandalone.fetches st) <= Z.max 0 max_comment_pages)
  /\ (forall baseqs api st st',
         TiktokStandalone.comment_turn baseqs api st = (st', true) ->
         exists data,
           fst (TiktokStandalone._fetch_comment_page baseqs
                  (api (TiktokStandalone.fetches st) (TiktokStandalone.cursor st)))
           = Ok data
           /\ has_more_of data = Some 1)
  /\ (forall raises captured crashes max_videos,
         0 <= max_videos ->
         Z.of_nat (List.length
                     (TiktokQuery.scrape_search_url raises captured crashes
                        max_videos))
         <= max_videos)
  /\ (forall raises captured captured' crashes crashes' max_videos,
         (forall j, (j < 5)%nat ->
                    captured j = captured' j /\ crashes j = crashes' j) ->
         TiktokQuery.scrape_search_url raises captured crashes max_videos
         = TiktokQuery.scrape_search_url raises captured' crashes' max_videos).
Proof.
  split; [ | split; [ | split; [ | split; [ | split ] ] ] ].
  - intros api max_pages Hcap.
    destruct (crawl_loop_terminates api max_pages (Z.to_nat max_pages)
                TiktokComment.crawl0) as [st Hst]; simpl; try lia.
    exists st. split; [ exact Hst | ].
    apply crawl_loop_bound in Hst; simpl in *; lia.
  - intros api max_pages st st' Hturn.
    now apply crawl_turn_goes_on in Hturn as (_ & _ & Hdata).
  - intros [|] baseqs api max_comment_pages;
      unfold TiktokStandalone.scrape_comments_for_video; simpl.
    + destruct (comment_loop_terminates baseqs api max_comment_pages
                  (Z.to_nat max_comment_pages) TiktokStandalone.comment_crawl0)
        as [st Hst]; simpl; try lia.
      exists st. split; [ exact Hst | ].
      apply comment_loop_bound in Hst; simpl in *; lia.
    + eexists. split; [ reflexivity | simpl; lia ].
  - intros baseqs api st st' Hturn.
    now apply comment_turn_goes_on in Hturn as (_ & Hdata).
  - intros raises captured crashes max_videos Hcap.
    now apply slice_to_length.
  - intros raises captured captured' crashes crashes' max_videos Hsame.
    unfold TiktokQuery.scrape_search_url. f_equal. f_equal.
    apply scroll_rounds_ext. intros j Hj. apply Hsame. lia.
Qed.

Lemma pagination_ends_at_cap_or_last_page_witness :
  exists st,
    TiktokComment.scrape_comments_for_video (fun _ _ => Samples.always_503) 5
      (Z.to_nat 5) = Some st
    /\ Z.of_nat (TiktokComment.fetches st) <= 5.
Proof.
  apply (proj1 pagination_ends_at_cap_or_last_page). lia.
Defined.

(** C8 as stated fails in [scrape_search_url]: a response that reports
    [has_more] false does not end the rounds, and the video of a response
    captured after it is collected as well. *)
Lemma search_rounds_go_on_after_last_page :
  map TiktokQuery.video_id
    (TiktokQuery.scrape_search_url (fun _ => false) Samples.captured_past_the_end
       (fun _ => false) 200)
  = [PStr "7301"; PStr "7302"].
Proof. reflexivity. Qed.

(** The cap of tiktok_comment is tested after the fetch: a cap of 0 still
    fetches one page. *)
Lemma comment_crawl_fetches_a_page_with_cap_zero :
  option_map TiktokComment.fetches
    (TiktokComment.scrape_comments_for_video (fun _ _ => Samples.always_503) 0 1)
  = Some 1%nat.
Proof. reflexivity. Qed.

End Pagination.

(** ** Deduplication *)
Module Dedup.
Import Py.

(** No two members of the list are equal in Python's sense. *)
Fixpoint unique_ids (l : list scalar) : bool :=
  match l with
  | [] => true
  | a :: r => (negb (py_in a r) && unique_ids r)%bool
  end.

(** The number of members equal to [a]. *)
Definition count_id (a : scalar) (l : list scalar) : nat :=
  List.length (filter (fun b => py_eqb b a) l).

Inductive subseq {A : Type} : list A -> list A -> Prop :=
| subseq_nil : subseq [] []
| subseq_skip x l1 l2 : subseq l1 l2 -> subseq l1 (x :: l2)
| subseq_take x l1 l2 : subseq l1 l2 -> subseq (x :: l1) (x :: l2).

#[local] Hint Constructors subseq : core.

Lemma subseq_refl {A : Type} (l : list A) : subseq l l.
Proof. induction l; auto. Qed.

Lemma subseq_nil_l {A : Type} (l : list A) : subseq [] l.
Proof. induction l; auto. Qed.

Lemma subseq_app {A : Type} (l1 l2 r1 r2 : list A) :
  subseq l1 l2 -> subseq r1 r2 -> subseq (l1 ++ r1) (l2 ++ r2).
Proof. induction 1; simpl; auto. Qed.

Lemma subseq_In {A : Type} (l1 l2 : list A) (x : A) :
  subseq l1 l2 -> In x l1 -> In x l2.
Proof. induction 1; simpl; intuition. Qed.

Lemma subseq_firstn {A : Type} (n : nat) (l : list A) : subseq (firstn n l) l.
Proof.
  revert n. induction l as [|x l IH]; intros [|n]; simpl; auto.
  apply subseq_nil_l.
Qed.

Lemma dyadic_eqb_sym (x y : Z * Z) : dyadic_eqb x y = dyadic_eqb y x.
Proof. unfold dyadic_eqb. now rewrite Z.min_comm, Z.eqb_sym. Qed.

Lemma py_eqb_sym (a b : scalar) : py_eqb a b = py_eqb b a.
Proof.
  destruct a as [| | |[| | |]|], b as [| | |[| | |]|]; simpl;
    try reflexivity; try apply dyadic_eqb_sym.
  apply String.eqb_sym.
Qed.

Lemma py_eqb_str (s : string) (b : scalar) :
  py_eqb b (PStr s) = true <-> b = PStr s.
Proof.
  split; [ | intros ->; simpl; apply String.eqb_refl ].
  destruct b as [|[|]| |[| | |]|t]; simpl; try discriminate.
  intros Heq. apply String.eqb_eq in Heq. now subst.
Qed.

Lemma py_in_false (a : scalar) (l : list scalar) :
  py_in a l = false <-> forall b, In b l -> py_eqb a b = false.
Proof.
  unfold py_in. induction l as [|c l IH]; simpl.
  - split; [ intros _ b [] | reflexivity ].
  - rewrite orb_false_iff, IH. split.
    + intros [Hc Hl] b [<-|Hb]; auto.
    + intros Hall. split; [ apply Hall; auto | intros b Hb; apply Hall; auto ].
Qed.

Lemma py_in_str (s : string) (l : list scalar) :
  py_in (PStr s) l = true <-> In (PStr s) l.
Proof.
  unfold py_in. rewrite existsb_exists. split.
  - intros (b & Hb & Heq). rewrite py_eqb_sym in Heq.
    apply py_eqb_str in Heq. now subst.
  - intros Hin. exists (PStr s). split; [ assumption | ].
    simpl. apply String.eqb_refl.
Qed.

Lemma unique_ids_spec (l : list scalar) :
  unique_ids l = true <->
  forall l1 a l2, l = l1 ++ a :: l2 -> forall b, In b l2 -> py_eqb a b = false.
Proof.
  induction l as [|c l IH]; simpl.
  - split; [ intros _ [|? ?] ? ? ?; discriminate | reflexivity ].
  - rewrite andb_true_iff, negb_true_iff, py_in_false, IH. split.
    + intros [Hc Hl] [|x l1] a l2 Heq; injection Heq as -> ->; eauto.
    + intros Hall. split.
      * apply (Hall [] c l eq_refl).
      * intros l1 a l2 ->. apply (Hall (c :: l1) a l2 eq_refl).
Qed.

Lemma unique_ids_subseq (l1 l2 : list scalar) :
  subseq l1 l2 -> unique_ids l2 = true -> unique_ids l1 = true.
Proof.
  induction 1 as [|x l1 l2 Hs IH|x l1 l2 Hs IH]; simpl; auto.
  - rewrite andb_true_iff. intros [_ Hu]. auto.
  - rewrite !andb_true_iff, !negb_true_iff, !py_in_false.
    intros [Hx Hu]. split; [ | auto ].
    intros b Hb. apply Hx. eapply subseq_In; eauto.
Qed.

Lemma unique_ids_rev (l : list scalar) :
  unique_ids l = true -> unique_ids (rev l) = true.
Proof.
  rewrite !unique_ids_spec. intros Hu l1 a l2 Hrev b Hb.
  apply (f_equal (@rev scalar)) in Hrev.
  rewrite rev_involutive, rev_app_distr in Hrev. simpl in Hrev.
  rewrite <- app_assoc in Hrev. simpl in Hrev.
  apply in_rev in Hb. apply in_split in Hb as (m1 & m2 & Hm).
  rewrite Hm, <- app_assoc in Hrev. simpl in Hrev.
  rewrite py_eqb_sym.
  apply (Hu m1 b (m2 ++ a :: rev l1) Hrev). apply in_elt.
Qed.

Lemma count_id_unique (s : string) (l : list scalar) :
  unique_ids l = true -> In (PStr s) l -> count_id (PStr s) l = 1%nat.
Proof.
  unfold count_id. induction l as [|c l IH]; simpl; [ intros _ [] | ].
  rewrite andb_true_iff, negb_true_iff. intros [Hc Hu] Hin.
  destruct (py_eqb c (PStr s)) eqn:Hcs.
  - apply py_eqb_str in Hcs. subst c. simpl. f_equal.
    rewrite py_in_false in Hc.
    clear - Hc. induction l as [|d l IH]; simpl; [ reflexivity | ].
    rewrite py_eqb_sym, (Hc d) by (left; reflexivity).
    apply IH. intros b Hb. apply Hc. now right.
  - destruct Hin as [->|Hin]; [ | auto ].
    simpl in Hcs. now rewrite String.eqb_refl in Hcs.
Qed.

Lemma py_in_incl (a : scalar) (l l' : list scalar) :
  incl l l' -> py_in a l = true -> py_in a l' = true.
Proof.
  unfold py_in. rewrite !existsb_exists. intros Hincl (b & Hb & Heq).
  exists b. split; [ now apply Hincl | assumption ].
Qed.

(** *** [_collect] of tiktok_page *)
Section Page.
Import TiktokPage.

(** [seen] holds the ids of [items], latest first, each once. *)
Definition collected (its : list json) (sn : list scalar) : Prop :=
  map item_id its = rev sn /\ unique_ids sn = true.

(** A video of a page is a JSON object whose id, if any, is a scalar. *)
Definition well_formed_video (v : json) : Prop :=
  exists a, jget v "id" = Some (JAtom a).

(** The response passes the filters of [_collect] and its [itemList] is a
    list of well-formed videos that holds [v]. *)
Definition delivers (r : response) (v : json) : Prop :=
  url_is_item_list r = true
  /\ status r = 200
  /\ content_type_is_json r = true
  /\ exists d vs,
      body r = Some (JDict d)
      /\ assoc "itemList" d = Some (JList vs)
      /\ In v vs
      /\ Forall well_formed_video vs.

Lemma collect_videos_collected (vs its : list json) (sn : list scalar)
    (its' : list json) (sn' : list scalar) (raised : bool) :
  collect_videos vs its sn = (its', sn', raised) ->
  collected its sn ->
  collected its' sn' /\ incl sn sn'.
Proof.
  revert its sn. induction vs as [|v vs IH]; intros its sn; simpl.
  - intros [= <- <- <-] Hinv. split; [ assumption | apply incl_refl ].
  - destruct (jget v "id") as [vid|] eqn:Hid;
      [ | intros [= <- <- <-] Hinv; split; [ assumption | apply incl_refl ] ].
    destruct (jtruthy vid); [ | apply IH ].
    destruct vid as [a| |];
      try (intros [= <- <- <-] Hinv; split; [ assumption | apply incl_refl ]).
    destruct (py_in a sn) eqn:Hin; [ apply IH | ].
    intros Hrec [Hids Huniq].
    apply IH in Hrec as [Hinv' Hincl].
    + split; [ assumption | ].
      intros b Hb. apply Hincl. now right.
    + split.
      * rewrite map_app, Hids. simpl. unfold item_id. now rewrite Hid.
      * simpl. now rewrite Hin, Huniq.
Qed.

Lemma collect_videos_marks_seen (vs its : list json) (sn : list scalar)
    (its' : list json) (sn' : list scalar) :
  collect_videos vs its sn = (its', sn', false) ->
  collected its sn ->
  forall v s, In v vs -> jget v "id" = Some (JStr s) -> s <> "" ->
              In (PStr s) sn'.
Proof.
  revert its sn. induction vs as [|v vs IH]; intros its sn; simpl;
    [ intros _ _ v a [] | ].
  destruct (jget v "id") as [vid|] eqn:Hid; [ | discriminate ].
  destruct (jtruthy vid) eqn:Htruthy.
  - destruct vid as [a| |]; try discriminate.
    destruct (py_in a sn) eqn:Hin.
    + intros Hrec Hinv w s [<-|Hw] Hwid Hs; [ | eapply IH; eauto ].
      rewrite Hid in Hwid. injection Hwid as ->.
      destruct (collect_videos_collected _ _ _ _ _ _ Hrec Hinv) as [_ Hincl].
      apply Hincl. now apply py_in_str.
    + intros Hrec [Hids Huniq].
      assert (collected (its ++ [v]) (a :: sn)) as Hinv'.
      { split.
        - rewrite map_app, Hids. simpl. unfold item_id. now rewrite Hid.
        - simpl. now rewrite Hin, Huniq. }
      intros w s [<-|Hw] Hwid Hs; [ | eapply IH; eauto ].
      rewrite Hid in Hwid. injection Hwid as ->.
      destruct (collect_videos_collected _ _ _ _ _ _ Hrec Hinv') as [_ Hincl].
      apply Hincl. now left.
  - intros Hrec Hinv w s [<-|Hw] Hwid Hs; [ | eapply IH; eauto ].
    rewrite Hid in Hwid. injection Hwid as ->. simpl in Htruthy.
    apply negb_false_iff, String.eqb_eq in Htruthy. contradiction.
Qed.

Lemma collect_videos_well_formed (vs its : list json) (sn : list scalar) :
  Forall well_formed_video vs ->
  snd (collect_videos vs its sn) = false.
Proof.
  intros Hwf. revert its sn. induction Hwf as [|v vs [a Ha] _ IH];
    intros its sn; simpl; [ reflexivity | ].
  rewrite Ha. destruct (jtruthy (JAtom a)); [ | apply IH ].
  destruct (py_in a sn); apply IH.
Qed.

Lemma _collect_collected (h : harvest) (r : response) :
  collected (items h) (seen h) ->
  collected (items (_collect h r)) (seen (_collect h r))
  /\ incl (seen h) (seen (_collect h r)).
Proof.
  intros Hinv. unfold _collect.
  repeat match goal with
         | |- context [if ?b then h else _] =>
             destruct b; [ split; [ assumption | apply incl_refl ] | ]
         | |- context [match ?e with Some _ => _ | None => h end] =>
             destruct e; [ | split; [ assumption | apply incl_refl ] ]
         end.
  destruct (collect_videos l (items h) (seen h)) as [[its' sn'] raised] eqn:Hcv.
  simpl. eapply collect_videos_collected; eauto.
Qed.

Lemma collect_all_from_collected (resps : list response) (h : harvest) :
  collected (items h) (seen h) ->
  collected (items (fold_left _collect resps h)) (seen (fold_left _collect resps h))
  /\ incl (seen h) (seen (fold_left _collect resps h)).
Proof.
  revert h. induction resps as [|r resps IH]; intros h Hinv; simpl.
  - split; [ assumption | apply incl_refl ].
  - destruct (_collect_collected h r Hinv) as [Hinv1 Hincl1].
    destruct (IH _ Hinv1) as [Hinv2 Hincl2].
    split; [ assumption | eapply incl_tran; eauto ].
Qed.

Lemma _collect_delivers (h : harvest) (r : response) (v : json) (s : string) :
  collected (items h) (seen h) ->
  delivers r v ->
  jget v "id" = Some (JStr s) -> s <> "" ->
  In (PStr s) (seen (_collect h r)).
Proof.
  intros Hinv (Hurl & Hstatus & Hct & d & vs & Hbody & Hlist & Hv & Hwf) Hid Hs.
  unfold _collect. rewrite Hurl, Hstatus, Hct, Hbody. simpl. rewrite Hlist. simpl.
  pose proof (collect_videos_well_formed vs (items h) (seen h) Hwf) as Hok.
  destruct (collect_videos vs (items h) (seen h)) as [[its' sn'] raised] eqn:Hcv.
  simpl in Hok. subst raised. simpl.
  eapply collect_videos_marks_seen; eauto.
Qed.

Lemma collect_all_unique (resps : list response) :
  unique_ids (map item_id (items (collect_all resps))) = true.
Proof.
  destruct (collect_all_from_collected resps harvest0) as [[Hids Huniq] _];
    [ now split | ].
  unfold collect_all. rewrite Hids. now apply unique_ids_rev.
Qed.

Lemma collect_all_exactly_one (resps : list response) (v : json) (s : string) :
  s <> "" ->
  jget v "id" = Some (JStr s) ->
  Exists (fun r => delivers r v) resps ->
  count_id (PStr s) (map item_id (items (collect_all resps))) = 1%nat.
Proof.
  intros Hs Hid Hex.
  apply count_id_unique; [ apply collect_all_unique | ].
  destruct (collect_all_from_collected resps harvest0) as [[Hids _] _];
    [ now split | ].
  unfold collect_all in *. rewrite Hids. apply -> in_rev.
  apply Exists_exists in Hex as (r & Hr & Hdel).
  apply in_split in Hr as (before & after & ->).
  rewrite fold_left_app. simpl.
  destruct (collect_all_from_collected before harvest0) as [Hinv1 _];
    [ now split | ].
  pose proof (_collect_delivers _ r v s Hinv1 Hdel Hid Hs) as Hseen.
  destruct (_collect_collected _ r Hinv1) as [Hinv2 _].
  destruct (collect_all_from_collected after _ Hinv2) as [_ Hincl].
  now apply Hincl.
Qed.

End Page.

(** *** [_process_api_response] of tiktok_query *)
Section Query.
Import TiktokQuery.
Variable raises : json -> bool.

Definition raw_id (item : json) : scalar :=
  match jget item "id" with
  | Some (JAtom a) => a
  | _ => PNone
  end.

(** [found] holds the items whose ids were added to [ids0] to give [ids]. *)
Definition gathered (found : list json) (ids ids0 : list scalar) : Prop :=
  exists new, ids = new ++ ids0
              /\ map raw_id found = rev new
              /\ unique_ids ids = true.

(** The ids of the records are among the processed ids, in their order. *)
Definition recorded (st : scraper) : Prop :=
  subseq (map video_id (videos_data st)) (rev (processed_ids st))
  /\ unique_ids (processed_ids st) = true.

Lemma extract_video_id (item : json) (v : video) :
  _extract_video_data raises item = Some v -> video_id v = raw_id item.
Proof.
  unfold _extract_video_data. intros Hv. unbind Hv.
  now injection Hv as <-.
Qed.

Lemma extract_all_subseq (found : list json) :
  subseq (map video_id (extract_all raises found)) (map raw_id found).
Proof.
  induction found as [|item found IH]; simpl; [ constructor | ].
  destruct (_extract_video_data raises item) as [v|] eqn:Hv; simpl.
  - rewrite (extract_video_id _ _ Hv). now constructor.
  - now constructor.
Qed.

Lemma extract_all_In (found : list json) (item : json) (v : video) :
  In item found ->
  _extract_video_data raises item = Some v ->
  In v (extract_all raises found).
Proof.
  induction found as [|it found IH]; simpl; [ intros [] | ].
  intros [->|Hin] Hv.
  - rewrite Hv. now left.
  - destruct (_extract_video_data raises it); [ right | ]; auto.
Qed.

(** What one [if item and ...] statement does. *)
Lemma dedup_item_cases (item : json) (found : list json) (ids : list scalar)
    (found' : list json) (ids' : list scalar) (raised : bool) :
  dedup_item item found ids = (found', ids', raised) ->
  (found' = found /\ ids' = ids)
  \/ (found' = found ++ [item] /\ ids' = raw_id item :: ids
      /\ py_in (raw_id item) ids = false /\ raised = false).
Proof.
  unfold dedup_item, raw_id, jget, jget_default.
  destruct (jtruthy item); [ | intros [= <- <- <-]; now left ].
  destruct item as [a|l|d]; try (intros [= <- <- <-]; now left).
  destruct (assoc "id" d) as [[a|l|d']|];
    try (intros [= <- <- <-]; now left).
  - destruct (py_in a ids) eqn:Hin; intros [= <- <- <-]; [ now left | now right ].
  - destruct (py_in PNone ids); intros [= <- <- <-]; now left.
Qed.

Lemma gathered_step (item : json) (found : list json) (ids ids0 : list scalar)
    (found' : list json) (ids' : list scalar) (raised : bool) :
  dedup_item item found ids = (found', ids', raised) ->
  gathered found ids ids0 ->
  gathered found' ids' ids0 /\ incl ids ids' /\ incl found' (found ++ [item]).
Proof.
  intros Hd (new & Hids & Hfound & Huniq).
  apply dedup_item_cases in Hd as [[-> ->]|(-> & -> & Hin & _)].
  - split; [ now exists new | split; [ apply incl_refl | now apply incl_appl ] ].
  - split; [ | split; [ now apply incl_tl | apply incl_refl ] ].
    exists (raw_id item :: new). split; [ now rewrite Hids | split ].
    + rewrite map_app, Hfound. reflexivity.
    + simpl. now rewrite Hin, Huniq.
Qed.

Lemma process_item_list_gathered (l found : list json) (ids ids0 : list scalar)
    (found' : list json) (ids' : list scalar) (raised : bool) :
  process_item_list l found ids = (found', ids', raised) ->
  gathered found ids ids0 ->
  gathered found' ids' ids0 /\ incl ids ids' /\ incl found' (found ++ l).
Proof.
  revert found ids. induction l as [|item l IH]; intros found ids; simpl.
  - intros [= <- <- <-] Hg. rewrite app_nil_r.
    split; [ assumption | split; apply incl_refl ].
  - destruct (dedup_item item found ids) as [[found1 ids1] raised1] eqn:Hd.
    intros Hrec Hg.
    destruct (gathered_step _ _ _ _ _ _ _ Hd Hg) as (Hg1 & Hincl1 & Hf1).
    assert (incl (found ++ [item]) (found ++ item :: l)) as Hsub.
    { apply incl_app; [ now apply incl_appl | ].
      intros x [<-|[]]. apply in_elt. }
    destruct raised1.
    + injection Hrec as <- <- <-.
      split; [ assumption | split; [ assumption | ] ].
      eapply incl_tran; eauto.
    + destruct (IH _ _ Hrec Hg1) as (Hg2 & Hincl2 & Hf2).
      split; [ assumption | split; [ eapply incl_tran; eauto | ] ].
      intros x Hx. apply Hf2 in Hx. apply in_app_or in Hx as [Hx|Hx].
      * now apply Hsub, Hf1.
      * apply in_or_app. right. now right.
Qed.

(** The items of the sections of [data['data']] that the first loop
    looks at. *)
Definition section_items (sections : list json) : list json :=
  flat_map (fun section =>
              match section with
              | JDict d =>
                  if is_video_section d then
                    match assoc "item" d with
                    | Some item => [item]
                    | None => []
                    end
                  else []
              | _ => []
              end) sections.

Lemma process_sections_items (sections found : list json) (ids : list scalar) :
  process_sections sections found ids
  = process_item_list (section_items sections) found ids.
Proof.
  revert found ids. induction sections as [|section sections IH];
    intros found ids; simpl; [ reflexivity | ].
  destruct section as [a|l|d]; simpl; auto.
  destruct (is_video_section d); simpl; auto.
  destruct (assoc "item" d) as [item|]; simpl; auto.
  destruct (dedup_item item found ids) as [[found1 ids1] raised1].
  destruct raised1; auto.
Qed.

(** All the items a response offers to the two loops. *)
Definition response_items (data : json) : list json :=
  match data with
  | JDict d =>
      match assoc "data" d with
      | Some (JList sections) => section_items sections
      | _ => []
      end
      ++ match assoc "itemList" d with
         | Some (JList l) => l
         | _ => []
         end
  | _ => []
  end.

Lemma process_item_list_app (l1 l2 found : list json) (ids : list scalar) :
  process_item_list (l1 ++ l2) found ids
  = let '(found1, ids1, raised1) := process_item_list l1 found ids in
    if raised1 then (found1, ids1, true)
    else process_item_list l2 found1 ids1.
Proof.
  revert found ids. induction l1 as [|item l1 IH]; intros found ids; simpl.
  - now destruct (process_item_list l2 found ids) as [[? ?] ?].
  - destruct (dedup_item item found ids) as [[found1 ids1] raised1].
    destruct raised1; [ reflexivity | apply IH ].
Qed.

(** [_process_api_response] in terms of the items of the response. *)
Lemma process_as_item_list (st : scraper) (data : json) :
  _process_api_response raises st data
  = match data with
    | JDict _ =>
        let '(found, ids, raised) :=
          process_item_list (response_items data) [] (processed_ids st) in
        if raised then {| videos_data := videos_data st; processed_ids := ids |}
        else {| videos_data := videos_data st ++ extract_all raises found;
                processed_ids := ids |}
    | _ => st
    end.
Proof.
  destruct data as [a|l|d]; try reflexivity.
  unfold _process_api_response, response_items.
  rewrite process_item_list_app.
  assert (Hlist : forall found ids,
             match assoc "itemList" d with
             | Some (JList l) => process_item_list l found ids
             | _ => (found, ids, false)
             end
             = process_item_list
                 match assoc "itemList" d with
                 | Some (JList l) => l
                 | _ => []
                 end found ids)
    by (intros found ids; destruct (assoc "itemList" d) as [[a|l|d']|];
        reflexivity).
  destruct (assoc "data" d) as [[a|sections|d']|]; simpl;
    try rewrite process_sections_items;
    try (destruct (process_item_list (section_items sections) []
                     (processed_ids st)) as [[found1 ids1] []]; simpl;
         [ reflexivity | ]);
    rewrite Hlist;
    match goal with
    | |- context [process_item_list ?l ?f ?i] =>
        destruct (process_item_list l f i) as [[found2 ids2] []]
    end; reflexivity.
Qed.

Lemma process_recorded (st : scraper) (data : json) :
  recorded st ->
  recorded (_process_api_response raises st data)
  /\ incl (processed_ids st) (processed_ids (_process_api_response raises st data))
  /\ incl (videos_data st) (videos_data (_process_api_response raises st data)).
Proof.
  intros [Hsub Huniq]. rewrite process_as_item_list.
  destruct data as [a|l|d];
    try (split; [ now split | split; apply incl_refl ]).
  destruct (process_item_list (response_items (JDict d)) [] (processed_ids st))
    as [[found ids] raised] eqn:Hp.
  apply process_item_list_gathered with (ids0 := processed_ids st) in Hp
    as ((new & -> & Hfound & Huniq') & Hincl & _);
    [ | exists []; now repeat split ].
  destruct raised; unfold recorded; simpl.
  - split; [ split; [ | assumption ] | split; [ assumption | apply incl_refl ] ].
    rewrite rev_app_distr, <- (app_nil_r (map _ _)).
    apply subseq_app; [ assumption | apply subseq_nil_l ].
  - split; [ split; [ | assumption ] | split; [ assumption | now apply incl_appl ] ].
    rewrite rev_app_distr, map_app.
    apply subseq_app; [ assumption | ].
    rewrite <- Hfound. apply extract_all_subseq.
Qed.

Lemma fold_recorded (resps : list json) (st : scraper) :
  recorded st ->
  recorded (fold_left (_process_api_response raises) resps st)
  /\ incl (processed_ids st)
       (processed_ids (fold_left (_process_api_response raises) resps st))
  /\ incl (videos_data st)
       (videos_data (fold_left (_process_api_response raises) resps st)).
Proof.
  revert st. induction resps as [|data resps IH]; intros st Hrec; simpl.
  - split; [ assumption | split; apply incl_refl ].
  - destruct (process_recorded st data Hrec) as (Hrec1 & Hi1 & Hv1).
    destruct (IH _ Hrec1) as (Hrec2 & Hi2 & Hv2).
    split; [ assumption | split; eapply incl_tran; eauto ].
Qed.

Lemma scroll_rounds_recorded (captured : nat -> list json)
    (crashes : nat -> bool) (max_videos : Z) (rounds i : nat) (st : scraper) :
  recorded st ->
  recorded (scroll_rounds raises captured crashes max_videos i rounds st).
Proof.
  revert i st. induction rounds as [|rounds IH]; intros i st Hrec; simpl;
    [ assumption | ].
  destruct (crashes i); [ assumption | ].
  destruct (fold_recorded (captured i) st Hrec) as (Hrec1 & _).
  destruct (_ >=? max_videos); [ assumption | now apply IH ].
Qed.

Lemma recorded_unique (st : scraper) :
  recorded st -> unique_ids (map video_id (videos_data st)) = true.
Proof.
  intros [Hsub Huniq]. eapply unique_ids_subseq; eauto.
  now apply unique_ids_rev.
Qed.

Lemma scrape_search_url_unique (captured : nat -> list json)
    (crashes : nat -> bool) (max_videos : Z) :
  unique_ids
    (map video_id (scrape_search_url raises captured crashes max_videos))
  = true.
Proof.
  unfold scrape_search_url, slice_to.
  set (st := scroll_rounds _ _ _ _ _ _ _).
  assert (recorded st) as Hrec
    by (apply scroll_rounds_recorded; split; [ constructor | reflexivity ]).
  apply recorded_unique in Hrec.
  destruct (0 <=? max_videos); rewrite <- firstn_map;
    eapply unique_ids_subseq; eauto using subseq_firstn.
Qed.

(** An item the two loops handle without raising: a false value, or a
    JSON object whose [id] key holds a scalar. *)
Definition well_formed_item (item : json) : Prop :=
  jtruthy item = false
  \/ exists d a, item = JDict d /\ assoc "id" d = Some (JAtom a).

Lemma dedup_item_dict (d : list (string * json)) (a : scalar)
    (found : list json) (ids : list scalar) :
  assoc "id" d = Some (JAtom a) ->
  dedup_item (JDict d) found ids
  = if py_in a ids then (found, ids, false)
    else (found ++ [JDict d], a :: ids, false).
Proof.
  intros Hid. unfold dedup_item. rewrite Hid.
  destruct d; [ discriminate | reflexivity ].
Qed.

Lemma dedup_item_well_formed (item : json) (found : list json)
    (ids : list scalar) :
  well_formed_item item -> snd (dedup_item item found ids) = false.
Proof.
  intros [Hfalse|(d & a & -> & Hid)].
  - unfold dedup_item. now rewrite Hfalse.
  - rewrite (dedup_item_dict d a found ids Hid). now destruct (py_in a ids).
Qed.

Lemma process_item_list_well_formed (l found : list json) (ids : list scalar) :
  Forall well_formed_item l -> snd (process_item_list l found ids) = false.
Proof.
  intros Hwf. revert found ids. induction Hwf as [|item l Hitem _ IH];
    intros found ids; simpl; [ reflexivity | ].
  pose proof (dedup_item_well_formed item found ids Hitem) as Hok.
  destruct (dedup_item item found ids) as [[found1 ids1] raised1].
  simpl in Hok. subst raised1. apply IH.
Qed.

Lemma process_item_list_marks (l found : list json) (ids ids0 : list scalar)
    (found' : list json) (ids' : list scalar) :
  process_item_list l found ids = (found', ids', false) ->
  gathered found ids ids0 ->
  forall d s, In (JDict d) l -> assoc "id" d = Some (JStr s) -> In (PStr s) ids'.
Proof.
  revert found ids. induction l as [|item l IH]; intros found ids; simpl;
    [ intros _ _ d s [] | ].
  destruct (dedup_item item found ids) as [[found1 ids1] raised1] eqn:Hd.
  destruct raised1; [ discriminate | ].
  intros Hrec Hg d s [->|Hin] Hid.
  - destruct (gathered_step _ _ _ _ _ _ _ Hd Hg) as (Hg1 & _ & _).
    destruct (process_item_list_gathered _ _ _ _ _ _ _ Hrec Hg1) as (_ & Hincl & _).
    apply Hincl. rewrite (dedup_item_dict d (PStr s) found ids Hid) in Hd.
    destruct (py_in (PStr s) ids) eqn:Hseen; injection Hd as <- <-.
    + now apply py_in_str.
    + now left.
  - destruct (gathered_step _ _ _ _ _ _ _ Hd Hg) as (Hg1 & _ & _).
    eapply IH; eauto.
Qed.

Section OneRecord.
Variable s : string.

(** A processed id [s] has its record. *)
Definition kept (st : scraper) : Prop :=
  In (PStr s) (processed_ids st) ->
  exists v, In v (videos_data st) /\ video_id v = PStr s.

(** The response raises nowhere, and its items with id [s] can be
    extracted. *)
Definition clean (data : json) : Prop :=
  Forall well_formed_item (response_items data)
  /\ forall item, In item (response_items data) -> raw_id item = PStr s ->
                  _extract_video_data raises item <> None.

Lemma process_kept (st : scraper) (data : json) :
  recorded st -> kept st -> clean data ->
  kept (_process_api_response raises st data)
  /\ forall d, In (JDict d) (response_items data) ->
               assoc "id" d = Some (JStr s) ->
               In (PStr s) (processed_ids (_process_api_response raises st data)).
Proof.
  intros [Hsub Huniq] Hkept [Hwf Hextract]. rewrite process_as_item_list.
  destruct data as [a|l|d0]; try (split; [ assumption | intros d [] ]).
  pose proof (process_item_list_well_formed _ [] (processed_ids st) Hwf) as Hok.
  destruct (process_item_list (response_items (JDict d0)) [] (processed_ids st))
    as [[found ids] raised] eqn:Hp.
  simpl in Hok. subst raised.
  assert (gathered [] (processed_ids st) (processed_ids st)) as Hg0
    by (exists []; now repeat split).
  pose proof (process_item_list_marks _ _ _ _ _ _ Hp Hg0) as Hmarks.
  destruct (process_item_list_gathered _ _ _ _ _ _ _ Hp Hg0)
    as ((new & -> & Hfound & _) & _ & Hfrom).
  split; [ | intros d Hd Hid; simpl; eauto ].
  unfold kept. simpl. intros Hin. apply in_app_or in Hin as [Hin|Hin].
  - apply in_rev in Hin. rewrite <- Hfound in Hin.
    apply in_map_iff in Hin as (item & Hid & Hitem).
    pose proof (Hfrom _ Hitem) as Hresp. simpl in Hresp.
    destruct (_extract_video_data raises item) as [v|] eqn:Hv;
      [ | now destruct (Hextract item Hresp Hid) ].
    exists v. split.
    + apply in_or_app. right. eapply extract_all_In; eauto.
    + now rewrite (extract_video_id _ _ Hv).
  - destruct (Hkept Hin) as (v & Hv & Hvid).
    exists v. split; [ apply in_or_app; now left | assumption ].
Qed.

Lemma fold_kept (resps : list json) (st : scraper) :
  recorded st -> kept st -> Forall clean resps ->
  kept (fold_left (_process_api_response raises) resps st)
  /\ ((In (PStr s) (processed_ids st)
       \/ exists data d, In data resps /\ In (JDict d) (response_items data)
                         /\ assoc "id" d = Some (JStr s)) ->
      In (PStr s)
        (processed_ids (fold_left (_process_api_response raises) resps st))).
Proof.
  revert st. induction resps as [|data resps IH]; intros st Hrec Hkept Hclean;
    simpl.
  - split; [ assumption | ]. intros [Hin|(data & d & [] & _)]. assumption.
  - inversion Hclean as [|? ? Hdata Hrest]; subst.
    destruct (process_kept st data Hrec Hkept Hdata) as [Hkept1 Hmark].
    destruct (process_recorded st data Hrec) as (Hrec1 & Hincl & _).
    destruct (IH _ Hrec1 Hkept1 Hrest) as [Hkept2 Hgoes].
    split; [ assumption | ].
    intros [Hin|(data' & d & [<-|Hin] & Hitem & Hid)]; apply Hgoes.
    + left. now apply Hincl.
    + left. eapply Hmark; eauto.
    + right. now exists data', d.
Qed.

Lemma process_exactly_one (resps : list json) :
  Forall clean resps ->
  (exists data d, In data resps /\ In (JDict d) (response_items data)
                  /\ assoc "id" d = Some (JStr s)) ->
  count_id (PStr s)
    (map video_id
       (videos_data
          (fold_left (_process_api_response raises) resps scraper0)))
  = 1%nat.
Proof.
  intros Hclean Hex.
  assert (recorded scraper0) as Hrec0 by (split; [ constructor | reflexivity ]).
  destruct (fold_recorded resps scraper0 Hrec0) as (Hrec & _).
  destruct (fold_kept resps scraper0 Hrec0) as [Hkept Hgoes];
    [ intros [] | assumption | ].
  apply count_id_unique; [ now apply recorded_unique | ].
  destruct (Hkept (Hgoes (or_intror Hex))) as (v & Hv & Hvid).
  rewrite <- Hvid. now apply in_map.
Qed.

End OneRecord.
End Query.

(** C2. Whatever the responses of one harvest are, no two records it
    accumulates carry the same identifier: [_collect] appends a video, and
    [_process_api_response] a record, only for an id that is not in the
    seen-set of the run, and adds the id to the set. A video that arrives
    in one response or in several (with a non-empty string id, in responses
    that raise nowhere; for the search scraper, extracted without an
    exception) has exactly one record. The same page fetched twice gives
    one record. *)
Theorem harvest_has_one_record_per_id :
  (forall resps,
      unique_ids (map TiktokPage.item_id
                    (TiktokPage.items (TiktokPage.collect_all resps))) = true)
  /\ (forall resps v s,
         s <> "" ->
         jget v "id" = Some (JStr s) ->
         Exists (fun r => delivers r v) resps ->
         count_id (PStr s)
           (map TiktokPage.item_id
              (TiktokPage.items (TiktokPage.collect_all resps))) = 1%nat)
  /\ (forall raises captured crashes max_videos,
         unique_ids
           (map TiktokQuery.video_id
              (TiktokQuery.scrape_search_url raises captured crashes
                 max_videos)) = true)
  /\ (forall raises resps s,
         Forall (clean raises s) resps ->
         (exists data d, In data resps /\ In (JDict d) (response_items data)
                         /\ assoc "id" d = Some (JStr s)) ->
         count_id (PStr s)
           (map TiktokQuery.video_id
              (TiktokQuery.videos_data
                 (fold_left (TiktokQuery._process_api_response raises) resps
                    TiktokQuery.scraper0))) = 1%nat)
  /\ map TiktokPage.item_id
       (TiktokPage.items
          (TiktokPage.collect_all
             [Samples.profile_response ["7301"; "7302"];
              Samples.profile_response ["7302"; "7303"]]))
     = [PStr "7301"; PStr "7302"; PStr "7303"]
  /\ map TiktokQuery.video_id
       (TiktokQuery.scrape_search_url (fun _ => false)
          (fun _ => [Samples.search_response "7301" true;
                     Samples.search_response "7301" true])
          (fun _ => false) 200)
     = [PStr "7301"].
Proof.
  split; [ | split; [ | split; [ | split; [ | split ] ] ] ].
  - apply collect_all_unique.
  - intros resps v s. apply collect_all_exactly_one.
  - apply scrape_search_url_unique.
  - intros raises resps s. apply process_exactly_one.
  - reflexivity.
  - reflexivity.
Qed.

Lemma harvest_has_one_record_per_id_witness :
  count_id (PStr "7302")
    (map TiktokPage.item_id
       (TiktokPage.items
          (TiktokPage.collect_all
             [Samples.profile_response ["7301"; "7302"];
              Samples.profile_response ["7302"; "7303"]]))) = 1%nat.
Proof.
  apply (proj1 (proj2 harvest_has_one_record_per_id) _
           (JDict [("id", JStr "7302")]) "7302").
  - discriminate.
  - reflexivity.
  - apply Exists_cons_hd. repeat split.
    exists [("itemList", JList [JDict [("id", JStr "7301")];
                                JDict [("id", JStr "7302")]]);
            ("hasMore", JAtom (PBool true))],
           [JDict [("id", JStr "7301")]; JDict [("id", JStr "7302")]].
    repeat split.
    + right. now left.
    + repeat constructor; eexists; reflexivity.
Defined.

End Dedup.

(** ** Hashtags and mentions *)
Module Tags.
Import Py.

(** A token of [findall]: the marker, then one or more characters of the
    class. *)
Definition is_token (marker : ascii) (cls : ascii -> bool) (t : string) : Prop :=
  exists body,
    t = String marker (string_of_list_ascii body)
    /\ body <> []
    /\ forallb cls body = true.

Lemma emit_tokens (marker : ascii) (cls : ascii -> bool)
    (cur : option (list ascii)) (t : string) :
  (forall tok, cur = Some tok -> forallb cls tok = true) ->
  In t (emit marker cur) -> is_token marker cls t.
Proof.
  intros Hcur. destruct cur as [[|c tok]|]; simpl; try tauto.
  intros [<-|[]]. exists (rev (c :: tok)). repeat split.
  - simpl. intros Hnil. apply app_eq_nil in Hnil as [_ Hnil]. discriminate.
  - rewrite forallb_forall. intros x Hx. apply in_rev in Hx.
    specialize (Hcur _ eq_refl). rewrite forallb_forall in Hcur. auto.
Qed.

Lemma scan_tokens_are_tokens (marker : ascii) (cls : ascii -> bool)
    (l : list ascii) (cur : option (list ascii)) (t : string) :
  (forall tok, cur = Some tok -> forallb cls tok = true) ->
  In t (scan_tokens marker cls cur l) -> is_token marker cls t.
Proof.
  revert cur. induction l as [|c l IH]; intros cur Hcur; simpl.
  - now apply emit_tokens.
  - assert (Hnext : forall tok,
               (if Ascii.eqb c marker then Some [] else None) = Some tok ->
               forallb cls tok = true)
      by (intros tok; destruct (Ascii.eqb c marker); intros [= <-]; reflexivity).
    destruct cur as [tok|]; [ | now apply IH ].
    destruct (cls c) eqn:Hc.
    + apply IH. intros tok' [= <-]. simpl. rewrite Hc. now apply Hcur.
    + intros Hin. apply in_app_or in Hin as [Hin|Hin].
      * now apply (emit_tokens marker cls (Some tok)).
      * now apply (IH (if Ascii.eqb c marker then Some [] else None) Hnext).
Qed.

Lemma findall_tokens (marker : ascii) (cls : ascii -> bool) (text t : string) :
  In t (findall marker cls text) -> is_token marker cls t.
Proof.
  unfold findall. intros Hin.
  apply (scan_tokens_are_tokens marker cls (list_ascii_of_string text) None t);
    [ intros tok; discriminate | exact Hin ].
Qed.

Section Extraction.
Context `{Runtime}.

(** [list(set(l))[:30]] *)
Definition listed (l : list string) : list string := firstn 30 (set_list l).

Lemma listed_NoDup (l : list string) : NoDup (listed l).
Proof.
  unfold listed.
  pose proof (set_list_NoDup l) as Hnd.
  rewrite <- (firstn_skipn 30 (set_list l)) in Hnd.
  now apply NoDup_app_remove_r in Hnd.
Qed.

Lemma listed_length (l : list string) : (List.length (listed l) <= 30)%nat.
Proof. apply firstn_le_length. Qed.

Lemma listed_In (l : list string) (t : string) : In t (listed l) -> In t l.
Proof.
  unfold listed. intros Hin. apply set_list_In.
  rewrite <- (firstn_skipn 30 (set_list l)). apply in_or_app. now left.
Qed.

Lemma set_list_length (l : list string) :
  List.length (set_list l) = List.length (nodup string_dec l).
Proof.
  apply Permutation_length, NoDup_Permutation.
  - apply set_list_NoDup.
  - apply NoDup_nodup.
  - intros x. rewrite set_list_In, nodup_In. tauto.
Qed.

(** With at most 30 distinct tokens none is dropped. *)
Lemma listed_all (l : list string) (t : string) :
  (List.length (nodup string_dec l) <= 30)%nat -> In t l -> In t (listed l).
Proof.
  intros Hfew Hin. unfold listed.
  rewrite firstn_all2 by (rewrite set_list_length; exact Hfew).
  now apply set_list_In.
Qed.

Lemma findall_empty (marker : ascii) (cls : ascii -> bool) :
  findall marker cls "" = [].
Proof. reflexivity. Qed.

(** What [list(set(re.findall(...)))[:30]] guarantees for a pattern. *)
Definition selects (marker : ascii) (cls : ascii -> bool) (text : string)
    (out : list string) : Prop :=
  NoDup out
  /\ (List.length out <= 30)%nat
  /\ (forall t, In t out ->
                In t (findall marker cls text) /\ is_token marker cls t)
  /\ ((List.length (nodup string_dec (findall marker cls text)) <= 30)%nat ->
      forall t, In t (findall marker cls text) -> In t out).

Lemma listed_selects (marker : ascii) (cls : ascii -> bool) (text : string) :
  selects marker cls text
    (if (text =? "")%string then [] else listed (findall marker cls text)).
Proof.
  destruct (String.eqb_spec text "") as [->|_].
  - split; [ constructor | split; [ simpl; lia | split ] ].
    + intros t [].
    + intros _ t Ht. exact Ht.
  - split; [ apply listed_NoDup | split; [ apply listed_length | split ] ].
    + intros t Ht. apply listed_In in Ht. split; [ exact Ht | ].
      eapply findall_tokens; eauto.
    + intros Hfew t Ht. now apply listed_all.
Qed.

End Extraction.

(** The class of a hashtag holds every code point from 128 up, and that of
    a mention the letters beyond ASCII. *)
Lemma hashtag_char_beyond_ascii (c : ascii) :
  (128 <= nat_of_ascii c)%nat -> InstagramScraper.hashtag_char c = true.
Proof.
  intros Hc. unfold InstagramScraper.hashtag_char.
  apply orb_true_iff. right. now apply Nat.leb_le.
Qed.

(** C7, as amended. [_extract_hashtags] and [_extract_mentions] (the same
    text in both Instagram files) return tokens that the pattern matches in
    the text (the marker, then one or more characters of the class, which
    for a hashtag holds every code point from 128 up), with no token
    twice, at most 30 of them, and all the distinct tokens when these are
    at most 30. Tokens that differ in case are different tokens, and the
    order is the one in which the runtime lists the set. *)
Theorem tags_are_distinct_matches_capped_at_30 :
  forall (R : Runtime) (text : string),
    selects "#" InstagramScraper.hashtag_char text
      (InstagramScraper._extract_hashtags text)
    /\ selects "@" InstagramScraper.mention_char text
         (InstagramScraper._extract_mentions text)
    /\ InstagramStandalone._extract_hashtags text
       = InstagramScraper._extract_hashtags text
    /\ InstagramStandalone._extract_mentions text
       = InstagramScraper._extract_mentions text
    /\ forall c, (128 <= nat_of_ascii c)%nat ->
                 InstagramScraper.hashtag_char c = true.
Proof.
  intros R text. split; [ | split; [ | split; [ | split ] ] ]; try reflexivity.
  - apply listed_selects.
  - apply listed_selects.
  - apply hashtag_char_beyond_ascii.
Qed.

Lemma tags_are_distinct_matches_capped_at_30_witness :
  InstagramScraper.hashtag_char (ascii_of_nat 233) = true.
Proof.
  apply (proj2 (proj2 (proj2 (proj2
           (tags_are_distinct_matches_capped_at_30 Samples.runtime ""))))).
  apply Nat.leb_le. reflexivity.
Defined.

(** C7 as stated fails: two hashtags that differ only in case are both
    returned, whatever the order in which the runtime lists the set. *)
Lemma hashtags_differing_in_case_are_both_kept :
  @InstagramScraper._extract_hashtags Samples.runtime "#Love and #love"
  = ["#Love"; "#love"]
  /\ lower "#Love" = lower "#love"
  /\ forall R : Runtime,
      In "#Love" (@InstagramScraper._extract_hashtags R "#Love and #love")
      /\ In "#love" (@InstagramScraper._extract_hashtags R "#Love and #love").
Proof.
  split; [ reflexivity | split; [ reflexivity | ] ].
  intros R.
  pose proof (listed_selects "#" InstagramScraper.hashtag_char "#Love and #love")
    as (_ & _ & _ & Hall).
  change (In "#Love" (InstagramScraper._extract_hashtags "#Love and #love")
          /\ In "#love" (InstagramScraper._extract_hashtags "#Love and #love")).
  change (InstagramScraper._extract_hashtags "#Love and #love")
    with (if ("#Love and #love" =? "")%string then []
          else listed (findall "#" InstagramScraper.hashtag_char "#Love and #love")).
  assert (Hfound : findall "#" InstagramScraper.hashtag_char "#Love and #love"
                   = ["#Love"; "#love"]) by reflexivity.
  rewrite Hfound in Hall.
  split; apply Hall; simpl; auto; lia.
Qed.

(** The order of the result is the runtime's: a runtime that lists a set
    from its last member gives the tags of a text in reverse. *)
Lemma hashtags_come_in_the_order_of_the_set :
  @InstagramScraper._extract_hashtags Samples.reversing_runtime "#one #two"
  = ["#two"; "#one"].
Proof. reflexivity. Qed.

End Tags.

(** ** The Instagram normalizer *)
Module Normalizer.
Import Py.

Lemma substring_length (n : nat) (s : string) :
  (String.length (substring 0 n s) <= n)%nat.
Proof.
  revert s. induction n as [|n IH]; intros [|c s]; simpl; try lia.
  specialize (IH s). lia.
Qed.

Section WithRuntime.
Context `{Runtime}.

Lemma safe_int_or0 (v : scalar) :
  InstagramScraper.safe_int v 0 = or0 (py_int v).
Proof. now destruct v as [| | |[| | |]|]. Qed.

Lemma safe_str_missing (v : scalar) :
  pd_isna v = true -> InstagramScraper.safe_str v "" = "".
Proof. unfold InstagramScraper.safe_str. now intros ->. Qed.

(** The first value that is true, or the last value. *)
Fixpoint first_truthy (l : list scalar) : scalar :=
  match l with
  | [] => PNone
  | [x] => x
  | x :: r => if truthy x then x else first_truthy r
  end.

Lemma resolve_first_truthy (r : InstagramScraper.row) :
  InstagramScraper.resolve_post_id r
  = first_truthy [InstagramScraper.get r "id"; InstagramScraper.get r "pk";
                  InstagramScraper.get r "shortCode";
                  InstagramScraper.get r "code"].
Proof. reflexivity. Qed.

Lemma resolve_all_false (r : InstagramScraper.row) :
  truthy (InstagramScraper.get r "id") = false ->
  truthy (InstagramScraper.get r "pk") = false ->
  truthy (InstagramScraper.get r "shortCode") = false ->
  truthy (InstagramScraper.get r "code") = false ->
  truthy (InstagramScraper.resolve_post_id r) = false.
Proof.
  intros H1 H2 H3 H4. unfold InstagramScraper.resolve_post_id, py_or.
  now rewrite H1, H2, H3.
Qed.

(** The integer a raw identifier stands for, when it stands for one. *)
Definition direct_id (v : scalar) : option Z :=
  match v with
  | PBool _ | PInt _ | PFloat _ => py_int v
  | PStr s => if isdigit s then int_of_string s else None
  | PNone => None
  end.

Lemma convert_post_id_cases (idx : Z) (r : InstagramScraper.row) (v : scalar) :
  pd_isna v = false ->
  match direct_id v with
  | Some z => InstagramScraper.convert_post_id idx r v = z
  | None =>
      exists x,
        InstagramScraper.convert_post_id idx r v = InstagramScraper.hash_id x
        /\ (v = PStr x
            \/ x = py_str (InstagramScraper.get_default r "shortCode" (PInt idx)))
  end.
Proof.
  unfold InstagramScraper.convert_post_id, InstagramScraper.post_id_try, direct_id.
  destruct v as [|b|z|[| | |m e]|s]; simpl; try discriminate; intros _;
    try reflexivity;
    try (eexists; split; [ reflexivity | now right ]).
  - destruct (isdigit s).
    + destruct (int_of_string s); [ reflexivity | ].
      eexists; split; [ reflexivity | now right ].
    + exists s. split; [ reflexivity | now left ].
Qed.

Lemma scraper_record (idx : Z) (r : InstagramScraper.row)
    (rec : InstagramScraper.post_record) :
  InstagramScraper.normalize_post idx r = Some rec ->
  let get := InstagramScraper.get r in
  let raw_id := InstagramScraper.resolve_post_id r in
  truthy raw_id = true /\ pd_isna raw_id = false
  /\ InstagramScraper.post_id rec = InstagramScraper.convert_post_id idx r raw_id
  /\ InstagramScraper.caption rec
     = substring 0 2000 (InstagramScraper.safe_str (get "caption") "")
  /\ InstagramScraper.likes_count rec = InstagramScraper.safe_int (get "likesCount") 0
  /\ InstagramScraper.comments_count rec
     = InstagramScraper.safe_int (get "commentsCount") 0
  /\ InstagramScraper.video_view_count rec
     = InstagramScraper.safe_int (get "videoViewCount") 0
  /\ InstagramScraper.video_play_count rec
     = InstagramScraper.safe_int (get "videoPlayCount") 0
  /\ InstagramScraper.owner_username rec
     = InstagramScraper.safe_str (get "ownerUsername") ""
  /\ InstagramScraper.owner_full_name rec
     = InstagramScraper.safe_str (get "ownerFullName") ""
  /\ InstagramScraper.location_name rec
     = InstagramScraper.safe_str (get "locationName") ""
  /\ InstagramScraper.display_url rec
     = InstagramScraper.safe_str (get "displayUrl") ""
  /\ InstagramScraper.url rec = InstagramScraper.safe_str (get "url") ""
  /\ InstagramScraper.video_url rec
     = (if truthy (get "videoUrl")
        then Some (InstagramScraper.safe_str (get "videoUrl") "") else None).
Proof.
  unfold InstagramScraper.normalize_post. cbv zeta.
  destruct (truthy (InstagramScraper.get r "type")); [ | discriminate ].
  destruct (InstagramScraper.get r "type"); try discriminate.
  destruct (InstagramScraper.is_valid_type _); [ | discriminate ]. simpl.
  destruct (truthy (InstagramScraper.resolve_post_id r)); [ | discriminate ].
  destruct (pd_isna (InstagramScraper.resolve_post_id r)); [ discriminate | ].
  simpl. intros [= <-]. simpl. repeat split; reflexivity.
Qed.

Lemma standalone_record (r : InstagramStandalone.row)
    (rec : InstagramStandalone.post_record) :
  InstagramStandalone.normalize_post r = Some rec ->
  let get := InstagramStandalone.get r in
  let raw_id := InstagramStandalone.resolve_post_id r in
  truthy raw_id = true /\ pd_isna raw_id = false
  /\ InstagramStandalone.post_id rec = py_str raw_id
  /\ InstagramStandalone.caption rec
     = substring 0 2000 (InstagramStandalone.safe_str (get "caption") "")
  /\ InstagramStandalone.likes_count rec
     = InstagramStandalone.safe_int (get "likesCount") 0
  /\ InstagramStandalone.comments_count rec
     = InstagramStandalone.safe_int (get "commentsCount") 0
  /\ InstagramStandalone.video_view_count rec
     = InstagramStandalone.safe_int (get "videoViewCount") 0
  /\ InstagramStandalone.owner_username rec
     = InstagramStandalone.safe_str (get "ownerUsername") ""
  /\ InstagramStandalone.owner_full_name rec
     = InstagramStandalone.safe_str (get "ownerFullName") ""
  /\ InstagramStandalone.location_name rec
     = InstagramStandalone.safe_str (get "locationName") ""
  /\ InstagramStandalone.display_url rec
     = InstagramStandalone.safe_str (get "displayUrl") ""
  /\ InstagramStandalone.url rec = InstagramStandalone.safe_str (get "url") ""
  /\ InstagramStandalone.video_url rec
     = (if truthy (get "videoUrl")
        then Some (InstagramStandalone.safe_str (get "videoUrl") "") else None).
Proof.
  unfold InstagramStandalone.normalize_post. cbv zeta.
  destruct (InstagramStandalone.get_default r "type" (PStr "")); try discriminate.
  destruct (negb _ && negb _)%bool; [ discriminate | ].
  destruct (truthy (InstagramStandalone.resolve_post_id r)); [ | discriminate ].
  destruct (pd_isna (InstagramStandalone.resolve_post_id r)); [ discriminate | ].
  simpl. intros [= <-]. simpl. repeat split; reflexivity.
Qed.

Lemma safe_int_default (v : scalar) :
  pd_isna v = true \/ v = PFloat FPosInf \/ v = PFloat FNegInf
  \/ py_int v = None ->
  InstagramScraper.safe_int v 0 = 0.
Proof.
  rewrite safe_int_or0.
  intros [Hna | [-> | [-> | Hint]]]; try reflexivity.
  - now destruct v as [| | |[| | |]|].
  - now rewrite Hint.
Qed.

Lemma scraper_excerpt_length (v : scalar) :
  (String.length (InstagramScraper.hashtag_post_caption v) <= 500)%nat.
Proof.
  unfold InstagramScraper.hashtag_post_caption.
  destruct (truthy v); [ apply substring_length | simpl; lia ].
Qed.

Lemma standalone_excerpt_length (r : InstagramStandalone.row) :
  (String.length (InstagramStandalone.hashtag_post_caption r) <= 500)%nat.
Proof. apply substring_length. Qed.

End WithRuntime.

(** C6, as amended. [safe_int] maps a missing, NaN, infinite or otherwise
    invalid value to 0 and [safe_str] a missing or NaN value to the empty
    string. In every record of [normalize_and_insert_posts] and of
    [normalize_profile_data] the counters are the [safe_int] and the string
    fields the [safe_str] of their cells, and the caption is cut at 2000
    characters; [video_url] alone is null, not empty, when the raw
    [videoUrl] is missing or empty. The caption excerpts of the hashtag
    normalizers are at most 500 characters. A row with a NaN like count, no
    caption and only the short code "abc123" gives a record with 0 likes,
    an empty caption and an id made from the short code. *)
Theorem normalizer_defaults_and_caps :
  forall R : Runtime,
    (forall v,
        pd_isna v = true \/ v = PFloat FPosInf \/ v = PFloat FNegInf
        \/ py_int v = None ->
        InstagramScraper.safe_int v 0 = 0)
    /\ (forall v, pd_isna v = true -> InstagramScraper.safe_str v "" = "")
    /\ (forall idx r rec,
           InstagramScraper.normalize_post idx r = Some rec ->
           let get := InstagramScraper.get r in
           InstagramScraper.likes_count rec
           = InstagramScraper.safe_int (get "likesCount") 0
           /\ InstagramScraper.comments_count rec
              = InstagramScraper.safe_int (get "commentsCount") 0
           /\ InstagramScraper.video_view_count rec
              = InstagramScraper.safe_int (get "videoViewCount") 0
           /\ InstagramScraper.video_play_count rec
              = InstagramScraper.safe_int (get "videoPlayCount") 0
           /\ InstagramScraper.caption rec
              = substring 0 2000 (InstagramScraper.safe_str (get "caption") "")
           /\ (String.length (InstagramScraper.caption rec) <= 2000)%nat
           /\ InstagramScraper.owner_username rec
              = InstagramScraper.safe_str (get "ownerUsername") ""
           /\ InstagramScraper.owner_full_name rec
              = InstagramScraper.safe_str (get "ownerFullName") ""
           /\ InstagramScraper.location_name rec
              = InstagramScraper.safe_str (get "locationName") ""
           /\ InstagramScraper.display_url rec
              = InstagramScraper.safe_str (get "displayUrl") ""
           /\ InstagramScraper.url rec = InstagramScraper.safe_str (get "url") ""
           /\ InstagramScraper.video_url rec
              = (if truthy (get "videoUrl")
                 then Some (InstagramScraper.safe_str (get "videoUrl") "")
                 else None))
    /\ (forall r rec,
           InstagramStandalone.normalize_post r = Some rec ->
           let get := InstagramStandalone.get r in
           InstagramStandalone.likes_count rec
           = InstagramStandalone.safe_int (get "likesCount") 0
           /\ InstagramStandalone.comments_count rec
              = InstagramStandalone.safe_int (get "commentsCount") 0
           /\ InstagramStandalone.video_view_count rec
              = InstagramStandalone.safe_int (get "videoViewCount") 0
           /\ InstagramStandalone.caption rec
              = substring 0 2000 (InstagramStandalone.safe_str (get "caption") "")
           /\ (String.length (InstagramStandalone.caption rec) <= 2000)%nat
           /\ InstagramStandalone.owner_username rec
              = InstagramStandalone.safe_str (get "ownerUsername") ""
           /\ InstagramStandalone.owner_full_name rec
              = InstagramStandalone.safe_str (get "ownerFullName") ""
           /\ InstagramStandalone.location_name rec
              = InstagramStandalone.safe_str (get "locationName") ""
           /\ InstagramStandalone.display_url rec
              = InstagramStandalone.safe_str (get "displayUrl") ""
           /\ InstagramStandalone.url rec
              = InstagramStandalone.safe_str (get "url") ""
           /\ InstagramStandalone.video_url rec
              = (if truthy (get "videoUrl")
                 then Some (InstagramStandalone.safe_str (get "videoUrl") "")
                 else None))
    /\ (forall v,
           (String.length (InstagramScraper.hashtag_post_caption v) <= 500)%nat)
    /\ (forall r,
           (String.length (InstagramStandalone.hashtag_post_caption r) <= 500)%nat)
    /\ option_map
         (fun rec => (InstagramScraper.likes_count rec,
                      InstagramScraper.caption rec,
                      InstagramScraper.post_id rec))
         (InstagramScraper.normalize_post 0 Samples.short_code_row)
       = Some (0, "", InstagramScraper.hash_id "abc123")
    /\ option_map
         (fun rec => (InstagramStandalone.likes_count rec,
                      InstagramStandalone.caption rec,
                      InstagramStandalone.post_id rec))
         (InstagramStandalone.normalize_post Samples.short_code_row)
       = Some (0, "", "abc123").
Proof.
  intros R.
  split; [ apply safe_int_default | ].
  split; [ apply safe_str_missing | ].
  split; [ | split; [ | split; [ | split; [ | split ] ] ] ].
  - intros idx r rec Hrec get.
    destruct (scraper_record idx r rec Hrec)
      as (_ & _ & _ & Hcap & Hl & Hc & Hv & Hp & Hu & Hf & Hloc & Hd & Hurl & Hvid).
    repeat (split; [ assumption | ]).
    split; [ | repeat (split; [ assumption | ]); assumption ].
    rewrite Hcap. apply substring_length.
  - intros r rec Hrec get.
    destruct (standalone_record r rec Hrec)
      as (_ & _ & _ & Hcap & Hl & Hc & Hv & Hu & Hf & Hloc & Hd & Hurl & Hvid).
    repeat (split; [ assumption | ]).
    split; [ | repeat (split; [ assumption | ]); assumption ].
    rewrite Hcap. apply substring_length.
  - apply scraper_excerpt_length.
  - apply standalone_excerpt_length.
  - reflexivity.
  - reflexivity.
Qed.

Lemma normalizer_defaults_and_caps_witness :
  InstagramScraper.safe_int (PFloat FNaN) 0 = 0.
Proof.
  apply (proj1 (normalizer_defaults_and_caps Samples.runtime)).
  left. reflexivity.
Defined.

(** C6 as stated fails for [video_url]: the record of a row with no
    [videoUrl] has a null video URL, not the empty string. *)
Lemma missing_video_url_is_null :
  option_map InstagramScraper.video_url
    (@InstagramScraper.normalize_post Samples.runtime 0 Samples.short_code_row)
  = Some None
  /\ option_map InstagramStandalone.video_url
       (@InstagramStandalone.normalize_post Samples.runtime Samples.short_code_row)
     = Some None.
Proof. split; reflexivity. Qed.

(** C5: the code and the failing input. The identifier is the first of
    [id], [pk], [shortCode], [code] that is true in Python's sense, and a row
    in which none is true is skipped. The post id of the scraper is the
    integer the identifier stands for when it stands for one, and otherwise
    [abs(hash(x)) % 10**10] of the identifier string or of the short code
    (or row index); the standalone normalizer keeps the identifier as text.
    NaN is true for [or]: in a row whose [id] is NaN (the cell pandas
    gives a post with no id in a frame that has the column) the chain
    stops at the NaN, [pd.isna] rejects it, and the row is skipped although
    its short code is "abc123". *)
Theorem post_id_is_first_true_field :
  forall R : Runtime,
    (forall r,
        InstagramScraper.resolve_post_id r
        = first_truthy [InstagramScraper.get r "id"; InstagramScraper.get r "pk";
                        InstagramScraper.get r "shortCode";
                        InstagramScraper.get r "code"]
        /\ InstagramStandalone.resolve_post_id r
           = InstagramScraper.resolve_post_id r)
    /\ (forall idx r,
           truthy (InstagramScraper.get r "id") = false ->
           truthy (InstagramScraper.get r "pk") = false ->
           truthy (InstagramScraper.get r "shortCode") = false ->
           truthy (InstagramScraper.get r "code") = false ->
           InstagramScraper.normalize_post idx r = None
           /\ InstagramStandalone.normalize_post r = None)
    /\ (forall idx r rec,
           InstagramScraper.normalize_post idx r = Some rec ->
           match direct_id (InstagramScraper.resolve_post_id r) with
           | Some z => InstagramScraper.post_id rec = z
           | None =>
               exists x,
                 InstagramScraper.post_id rec = InstagramScraper.hash_id x
                 /\ (InstagramScraper.resolve_post_id r = PStr x
                     \/ x = py_str (InstagramScraper.get_default r "shortCode"
                                      (PInt idx)))
           end)
    /\ (forall r rec,
           InstagramStandalone.normalize_post r = Some rec ->
           InstagramStandalone.post_id rec
           = py_str (InstagramStandalone.resolve_post_id r))
    /\ InstagramScraper.get Samples.nan_id_row "shortCode" = PStr "abc123"
    /\ InstagramScraper.resolve_post_id Samples.nan_id_row = PFloat FNaN
    /\ InstagramScraper.normalize_post 0 Samples.nan_id_row = None
    /\ InstagramStandalone.normalize_post Samples.nan_id_row = None.
Proof.
  intros R.
  split; [ intros r; split; reflexivity | ].
  split; [ | split; [ | split; [ | repeat split; reflexivity ] ] ].
  - intros idx r H1 H2 H3 H4.
    pose proof (resolve_all_false r H1 H2 H3 H4) as Hraw.
    unfold InstagramScraper.normalize_post, InstagramStandalone.normalize_post.
    change (InstagramStandalone.resolve_post_id r)
      with (InstagramScraper.resolve_post_id r).
    cbv zeta. rewrite Hraw. simpl. split.
    + destruct (truthy (InstagramScraper.get r "type")); [ | reflexivity ].
      destruct (InstagramScraper.get r "type"); try reflexivity.
      now destruct (InstagramScraper.is_valid_type _).
    + destruct (InstagramStandalone.get_default r "type" (PStr ""));
        try reflexivity.
      now destruct (negb _ && negb _)%bool.
  - intros idx r rec Hrec.
    destruct (scraper_record idx r rec Hrec) as (_ & Hna & -> & _).
    now apply convert_post_id_cases.
  - intros r rec Hrec.
    now destruct (standalone_record r rec Hrec) as (_ & _ & -> & _).
Qed.

End Normalizer.

(** ** Splitting, stripping and replacing *)
Module Text.
Import Py.

Lemma has_char_In (c : ascii) (s : string) :
  has_char c s = true <-> In c (list_ascii_of_string s).
Proof.
  unfold has_char. rewrite existsb_exists. split.
  - intros (x & Hin & Heq). apply Ascii.eqb_eq in Heq. now subst.
  - intros Hin. exists c. split; [ exact Hin | apply Ascii.eqb_refl ].
Qed.

Lemma has_char_cons (c a : ascii) (s : string) :
  has_char c (String a s) = (Ascii.eqb c a || has_char c s)%bool.
Proof. reflexivity. Qed.

Lemma has_char_app (c : ascii) (s t : string) :
  has_char c (s ++ t)%string = (has_char c s || has_char c t)%bool.
Proof.
  induction s as [|a s IH]; [ reflexivity | ].
  simpl. rewrite !has_char_cons, IH. now rewrite orb_assoc.
Qed.

Lemma str_app_assoc (s t u : string) :
  ((s ++ t) ++ u)%string = (s ++ (t ++ u))%string.
Proof. induction s as [|a s IH]; simpl; [ reflexivity | now rewrite IH ]. Qed.

Lemma prefix_char (c : ascii) (r : string) :
  prefix (String c "") (String c r) = true.
Proof.
  simpl. destruct (ascii_dec c c); [ now destruct r | congruence ].
Qed.

Lemma has_char_substring (c : ascii) (n m : nat) (s : string) :
  has_char c s = false -> has_char c (substring n m s) = false.
Proof.
  revert n m. induction s as [|a s IH]; intros n m Hs.
  - now destruct n, m.
  - rewrite has_char_cons in Hs. apply orb_false_iff in Hs as [Ha Hs].
    destruct n as [|n]; simpl.
    + destruct m as [|m]; [ reflexivity | ].
      rewrite has_char_cons, Ha. simpl. now apply IH.
    + now apply IH.
Qed.

(** *** [str_split] *)

Lemma str_split_not_nil (sep : ascii) (s : string) : str_split sep s <> [].
Proof.
  induction s as [|c s IH]; simpl; [ discriminate | ].
  destruct (Ascii.eqb c sep); [ discriminate | ].
  destruct (str_split sep s); discriminate.
Qed.

(** No piece holds the separator. *)
Lemma str_split_pieces (sep : ascii) (s p : string) :
  In p (str_split sep s) -> has_char sep p = false.
Proof.
  revert p. induction s as [|c s IH]; intros p; simpl.
  - intros [<-|[]]. reflexivity.
  - destruct (Ascii.eqb_spec c sep) as [->|Hne].
    + intros [<-|Hin]; [ reflexivity | now apply IH ].
    + destruct (str_split sep s) as [|q qs] eqn:Hsplit.
      * intros [<-|[]]. rewrite has_char_cons.
        apply orb_false_iff. split; [ | reflexivity ].
        apply Ascii.eqb_neq. congruence.
      * intros [<-|Hin].
        -- rewrite has_char_cons. apply orb_false_iff. split.
           ++ apply Ascii.eqb_neq. congruence.
           ++ apply IH. now left.
        -- apply IH. now right.
Qed.

(** The first piece is the text before the first separator. *)
Lemma str_split_hd (sep : ascii) (s : string) :
  exists rest,
    s = (hd "" (str_split sep s) ++ rest)%string
    /\ (rest = "" \/ exists r, rest = String sep r).
Proof.
  induction s as [|c s (rest & Hs & Hrest)]; simpl.
  - exists "". split; [ reflexivity | now left ].
  - destruct (Ascii.eqb_spec c sep) as [->|Hne].
    + exists (String sep s). split; [ reflexivity | right; now exists s ].
    + destruct (str_split sep s) as [|q qs] eqn:Hsplit.
      * now destruct (str_split_not_nil sep s).
      * exists rest. simpl in *. split; [ now rewrite Hs at 1 | exact Hrest ].
Qed.

Lemma str_split_whole (sep : ascii) (s : string) :
  has_char sep s = false -> str_split sep s = [s].
Proof.
  induction s as [|a s IH]; [ reflexivity | ].
  rewrite has_char_cons. intros Hhas.
  apply orb_false_iff in Hhas as [Ha Hs].
  simpl. rewrite Ascii.eqb_sym, Ha. now rewrite (IH Hs).
Qed.

Lemma str_split_two (sep : ascii) (s : string) :
  has_char sep s = true -> exists q q' qs, str_split sep s = q :: q' :: qs.
Proof.
  induction s as [|c s IH]; [ discriminate | ].
  rewrite has_char_cons. simpl.
  destruct (Ascii.eqb_spec c sep) as [->|Hne].
  - intros _. destruct (str_split sep s) as [|q qs] eqn:Hsplit;
      [ now destruct (str_split_not_nil sep s) | ].
    now exists "", q, qs.
  - replace (Ascii.eqb sep c) with false
      by (symmetry; apply Ascii.eqb_neq; congruence).
    simpl. intros Hhas. destruct (IH Hhas) as (q & q' & qs & ->).
    now exists (String c q), q', qs.
Qed.

(** The last piece is the text after the last separator. *)
Lemma str_split_last (sep : ascii) (s : string) :
  exists before,
    s = (before ++ last (str_split sep s) "")%string
    /\ (has_char sep s = true -> exists b, before = (b ++ String sep "")%string).
Proof.
  induction s as [|c s (before & Hs & Hbefore)].
  - exists "". split; [ reflexivity | discriminate ].
  - destruct (has_char sep s) eqn:Hhas.
    + destruct (Hbefore eq_refl) as [b ->].
      destruct (str_split_two sep s Hhas) as (q & q' & qs & Hsplit).
      exists (String c (b ++ String sep "")). split.
      * simpl. f_equal.
        replace (last (if Ascii.eqb c sep then "" :: str_split sep s
                       else match str_split sep s with
                            | p :: ps => String c p :: ps
                            | [] => [String c ""]
                            end) "")
          with (last (str_split sep s) "");
          [ exact Hs | ].
        rewrite Hsplit. now destruct (Ascii.eqb c sep).
      * intros _. now exists (String c b).
    + simpl. rewrite (str_split_whole sep s Hhas).
      destruct (Ascii.eqb_spec c sep) as [->|Hne].
      * exists (String sep ""). split; [ reflexivity | intros _; now exists "" ].
      * exists "". split; [ reflexivity | ].
        rewrite has_char_cons, Hhas.
        replace (Ascii.eqb sep c) with false
          by (symmetry; apply Ascii.eqb_neq; congruence).
        discriminate.
Qed.

Lemma str_split_app (sep : ascii) (s t : string) :
  has_char sep s = false ->
  str_split sep (s ++ String sep t)%string = s :: str_split sep t.
Proof.
  induction s as [|a s IH]; simpl.
  - intros _. now rewrite Ascii.eqb_refl.
  - rewrite has_char_cons. intros Hhas.
    apply orb_false_iff in Hhas as [Ha Hs].
    rewrite Ascii.eqb_sym, Ha. now rewrite (IH Hs).
Qed.

(** Splitting what [join] built gives the pieces back. *)
Lemma str_split_join (sep : ascii) (l : list string) :
  l <> [] ->
  Forall (fun p => has_char sep p = false) l ->
  str_split sep (join (String sep "") l) = l.
Proof.
  intros Hne Hall. induction Hall as [|p l Hp Hall IH]; [ contradiction | ].
  destruct l as [|q l].
  - simpl. now apply str_split_whole.
  - change (join (String sep "") (p :: q :: l))
      with (p ++ String sep (join (String sep "") (q :: l)))%string.
    rewrite str_split_app by exact Hp. f_equal. apply IH. discriminate.
Qed.

(** *** [str_partition] *)

Lemma str_partition_app (sep : ascii) (k v : string) :
  has_char sep k = false ->
  str_partition sep (k ++ String sep v)%string = Some (k, v).
Proof.
  induction k as [|a k IH]; simpl.
  - intros _. now rewrite Ascii.eqb_refl.
  - rewrite has_char_cons. intros Hhas.
    apply orb_false_iff in Hhas as [Ha Hk].
    rewrite Ascii.eqb_sym, Ha. now rewrite (IH Hk).
Qed.

(** *** [replace] *)

(** Replacing a character by a text without it leaves none. *)
Lemma replace_from_char (c : ascii) (new s : string) :
  has_char c new = false ->
  has_char c (replace_from (String c "") new 0 s) = false.
Proof.
  intros Hnew. induction s as [|a s IH]; [ reflexivity | ].
  simpl. destruct (Ascii.eqb_spec c a) as [<-|Hne].
  - assert (Hpre : prefix "" s = true) by (now destruct s).
    destruct (ascii_dec c c) as [_|Hcc]; [ | contradiction ].
    rewrite Hpre, has_char_app, Hnew. exact IH.
  - destruct (ascii_dec c a) as [Heq|_]; [ contradiction | ].
    rewrite has_char_cons, IH.
    replace (Ascii.eqb c a) with false
      by (symmetry; now apply Ascii.eqb_neq).
    reflexivity.
Qed.

Lemma replace_char (c : ascii) (new s : string) :
  has_char c new = false ->
  has_char c (replace (String c "") new s) = false.
Proof. apply replace_from_char. Qed.

(** A replacement brings in no character that neither the text nor the
    new piece holds. *)
Lemma replace_from_keeps_out (c : ascii) (old new s : string) (skip : nat) :
  has_char c new = false ->
  has_char c s = false ->
  has_char c (replace_from old new skip s) = false.
Proof.
  intros Hnew. revert skip. induction s as [|a s IH]; intros skip Hs;
    [ reflexivity | ].
  rewrite has_char_cons in Hs. apply orb_false_iff in Hs as [Ha Hs].
  destruct skip as [|skip]; [ | now apply IH ].
  change (replace_from old new 0 (String a s))
    with (if prefix old (String a s)
          then (new ++ replace_from old new (String.length old - 1) s)%string
          else String a (replace_from old new 0 s)).
  destruct (prefix old (String a s)).
  - rewrite has_char_app, Hnew. now apply IH.
  - rewrite has_char_cons, Ha. now apply IH.
Qed.

Lemma replace_keeps_out (c : ascii) (old new s : string) :
  has_char c new = false ->
  has_char c s = false ->
  has_char c (replace old new s) = false.
Proof. apply replace_from_keeps_out. Qed.

(** *** [strip_char] *)

Lemma lstrip_head (f : ascii -> bool) (l : list ascii) :
  match lstrip f l with
  | a :: _ => f a = false
  | [] => True
  end.
Proof.
  induction l as [|a l IH]; simpl; [ exact I | ].
  destruct (f a) eqn:Hfa; [ exact IH | exact Hfa ].
Qed.

Lemma lstrip_keeps_head (f : ascii -> bool) (l : list ascii) :
  match l with
  | a :: _ => f a = false -> lstrip f l = l
  | [] => True
  end.
Proof. destruct l as [|a l]; simpl; [ exact I | ]. now intros ->. Qed.

Lemma lstrip_suffix (f : ascii -> bool) (l : list ascii) :
  exists pre, l = pre ++ lstrip f l.
Proof.
  induction l as [|a l (pre & Hpre)]; simpl; [ now exists [] | ].
  destruct (f a); [ exists (a :: pre); simpl; congruence | now exists [] ].
Qed.

(** What is left after stripping neither starts nor ends with a stripped
    character. *)
Lemma strip_chars_ends (f : ascii -> bool) (l : list ascii) :
  match strip_chars f l with
  | a :: _ => f a = false
  | [] => True
  end
  /\ match rev (strip_chars f l) with
     | a :: _ => f a = false
     | [] => True
     end.
Proof.
  unfold strip_chars. rewrite rev_involutive.
  split; [ | apply lstrip_head ].
  (* the first character of the result is the first of [lstrip f l] *)
  pose proof (lstrip_head f l) as Hhead.
  destruct (lstrip_suffix f (rev (lstrip f l))) as (pre & Hpre).
  remember (lstrip f (rev (lstrip f l))) as t eqn:Ht.
  assert (Hl : lstrip f l = rev t ++ rev pre).
  { rewrite <- (rev_involutive (lstrip f l)), Hpre, rev_app_distr. reflexivity. }
  destruct (rev t) as [|a r] eqn:Hrt; [ exact I | ].
  rewrite Hl in Hhead. exact Hhead.
Qed.

Lemma strip_chars_fixed (f : ascii -> bool) (l : list ascii) :
  match l with a :: _ => f a = false | [] => True end ->
  match rev l with a :: _ => f a = false | [] => True end ->
  strip_chars f l = l.
Proof.
  intros Hfirst Hlast. unfold strip_chars.
  assert (H1 : lstrip f l = l).
  { destruct l as [|a l]; [ reflexivity | simpl; now rewrite Hfirst ]. }
  rewrite H1.
  assert (H2 : lstrip f (rev l) = rev l).
  { destruct (rev l) as [|a r]; [ reflexivity | simpl; now rewrite Hlast ]. }
  rewrite H2. apply rev_involutive.
Qed.

Lemma strip_char_idempotent (c : ascii) (s : string) :
  strip_char c (strip_char c s) = strip_char c s.
Proof.
  unfold strip_char. rewrite list_ascii_of_string_of_list_ascii.
  f_equal. destruct (strip_chars_ends (Ascii.eqb c) (list_ascii_of_string s)).
  now apply strip_chars_fixed.
Qed.

Lemma list_ascii_of_string_app (s t : string) :
  list_ascii_of_string (s ++ t)%string
  = list_ascii_of_string s ++ list_ascii_of_string t.
Proof. induction s as [|a s IH]; simpl; [ reflexivity | now rewrite IH ]. Qed.

(** The stripped text neither starts nor ends with the character. *)
Lemma strip_char_ends (c : ascii) (s : string) :
  prefix (String c "") (strip_char c s) = false
  /\ forall t, strip_char c s <> (t ++ String c "")%string.
Proof.
  destruct (strip_chars_ends (Ascii.eqb c) (list_ascii_of_string s))
    as [Hfirst Hlast].
  unfold strip_char. split.
  - destruct (strip_chars (Ascii.eqb c) (list_ascii_of_string s)) as [|a l];
      [ reflexivity | ].
    simpl. destruct (ascii_dec c a) as [->|_]; [ | reflexivity ].
    now rewrite Ascii.eqb_refl in Hfirst.
  - intros t Heq.
    apply (f_equal list_ascii_of_string) in Heq.
    rewrite list_ascii_of_string_of_list_ascii, list_ascii_of_string_app in Heq.
    rewrite Heq, rev_app_distr in Hlast. simpl in Hlast.
    now rewrite Ascii.eqb_refl in Hlast.
Qed.

(** *** Dicts *)

Lemma assoc_dict_set_same {A : Type} (k : string) (v : A) (d : list (string * A)) :
  assoc k (dict_set k v d) = Some v.
Proof.
  induction d as [|[k' v'] d IH]; simpl.
  - now rewrite String.eqb_refl.
  - destruct (String.eqb_spec k k') as [->|Hne]; simpl.
    + now rewrite String.eqb_refl.
    + destruct (String.eqb_spec k k'); [ contradiction | exact IH ].
Qed.

Lemma assoc_dict_set_other {A : Type} (k k' : string) (v : A)
    (d : list (string * A)) :
  k' <> k -> assoc k' (dict_set k v d) = assoc k' d.
Proof.
  intros Hne. induction d as [|[k0 v0] d IH]; simpl.
  - destruct (String.eqb_spec k' k); [ contradiction | reflexivity ].
  - destruct (String.eqb_spec k k0) as [->|Hk]; simpl.
    + destruct (String.eqb_spec k' k0); [ contradiction | reflexivity ].
    + destruct (String.eqb_spec k' k0); [ reflexivity | exact IH ].
Qed.

Lemma assoc_app {A : Type} (k : string) (d1 d2 : list (string * A)) :
  assoc k (d1 ++ d2)
  = match assoc k d1 with Some v => Some v | None => assoc k d2 end.
Proof.
  induction d1 as [|[k' v'] d1 IH]; simpl; [ reflexivity | ].
  now destruct (k =? k')%string.
Qed.

Lemma assoc_setdefault {A : Type} (k k' : string) (v : A)
    (d : list (string * A)) :
  assoc k' (setdefault k v d)
  = match assoc k' d with
    | Some x => Some x
    | None => if (k' =? k)%string then Some v else None
    end.
Proof.
  unfold setdefault. destruct (assoc k d) eqn:Hk.
  - destruct (assoc k' d) eqn:Hk'; [ reflexivity | ].
    destruct (String.eqb_spec k' k); [ congruence | reflexivity ].
  - rewrite assoc_app. simpl. now destruct (assoc k' d).
Qed.

(** A pair with a new key goes to the end. *)
Lemma dict_set_new {A : Type} (k : string) (v : A) (d : list (string * A)) :
  ~ In k (map fst d) -> dict_set k v d = d ++ [(k, v)].
Proof.
  induction d as [|[k' v'] d IH]; simpl; [ reflexivity | ].
  intros Hnot. destruct (String.eqb_spec k k') as [->|Hne].
  - exfalso. apply Hnot. now left.
  - f_equal. apply IH. intros Hin. apply Hnot. now right.
Qed.

Lemma dict_of_pairs_from {A : Type} (pairs d : list (string * A)) :
  NoDup (map fst (d ++ pairs)) ->
  fold_left (fun d kv => dict_set (fst kv) (snd kv) d) pairs d = d ++ pairs.
Proof.
  revert d. induction pairs as [|[k v] pairs IH]; intros d Hnd; simpl.
  - now rewrite app_nil_r.
  - rewrite dict_set_new.
    + rewrite IH; rewrite <- app_assoc; [ reflexivity | exact Hnd ].
    + rewrite map_app in Hnd. simpl in Hnd.
      apply NoDup_remove_2 in Hnd. intros Hin. apply Hnd.
      apply in_or_app. now left.
Qed.

Lemma dict_of_distinct_pairs {A : Type} (pairs : list (string * A)) :
  NoDup (map fst pairs) -> dict_of_pairs pairs = pairs.
Proof. intros Hnd. unfold dict_of_pairs. now rewrite dict_of_pairs_from. Qed.

End Text.

(** ** The query parameters of the comment requests *)
Module Requests.
Import Py Text.

(** The query string that carries the given pairs. *)
Definition query_string (pairs : list (string * string)) : string :=
  join "&" (map (fun kv => (fst kv ++ "=" ++ snd kv)%string) pairs).

Lemma qs_pairs_of_chunks (pairs : list (string * string)) :
  Forall (fun kv => has_char "=" (fst kv) = false) pairs ->
  TiktokComment.qs_pairs (map (fun kv => (fst kv ++ "=" ++ snd kv)%string) pairs)
  = pairs.
Proof.
  induction 1 as [|[k v] pairs Hk _ IH]; [ reflexivity | ].
  simpl in *. rewrite (str_partition_app "=" k v Hk). simpl. now rewrite IH.
Qed.

Lemma baseqs_params_pairs (chunks : list string) (d : list (string * string)) :
  TiktokStandalone.baseqs_params chunks d
  = fold_left (fun d kv => dict_set (fst kv) (snd kv) d)
      (TiktokComment.qs_pairs chunks) d.
Proof.
  revert d. induction chunks as [|chunk chunks IH]; intros d; [ reflexivity | ].
  simpl. rewrite fold_left_app.
  destruct (str_partition "=" chunk) as [[k v]|]; simpl; apply IH.
Qed.

(** X1. [_parse_base_qs] reads back the pairs of a query string: for pairs
    with distinct keys, no ["&"] or ["="] in a key and no ["&"] in a value,
    parsing the string [k1=v1&k2=v2&...] gives the pairs, in their
    order. *)
Theorem parse_base_qs_reads_back_the_pairs (pairs : list (string * string)) :
  NoDup (map fst pairs) ->
  Forall (fun kv => has_char "&" (fst kv) = false
                    /\ has_char "=" (fst kv) = false
                    /\ has_char "&" (snd kv) = false) pairs ->
  TiktokComment._parse_base_qs (Some (query_string pairs)) = pairs.
Proof.
  intros Hkeys Hpairs. destruct pairs as [|p pairs]; [ reflexivity | ].
  assert (Hsplit : str_split "&" (query_string (p :: pairs))
                   = map (fun kv => (fst kv ++ "=" ++ snd kv)%string) (p :: pairs)).
  { apply str_split_join; [ discriminate | ].
    apply Forall_map. eapply Forall_impl; [ | exact Hpairs ].
    intros [k v] (Hk & _ & Hv). cbn [fst snd] in *.
    rewrite has_char_app, Hk. exact Hv. }
  unfold TiktokComment._parse_base_qs.
  destruct (query_string (p :: pairs)) as [|c q] eqn:Hq.
  - exfalso. simpl in Hsplit. injection Hsplit as Hp _.
    destruct p as [[|a k] v]; discriminate.
  - rewrite Hsplit, qs_pairs_of_chunks.
    + now apply dict_of_distinct_pairs.
    + eapply Forall_impl; [ | exact Hpairs ]. now intros kv (_ & Hk & _).
Qed.

Lemma parse_base_qs_reads_back_the_pairs_witness :
  TiktokComment._parse_base_qs
    (Some (query_string [("aid", "1988"); ("device_platform", "web_pc")]))
  = [("aid", "1988"); ("device_platform", "web_pc")].
Proof.
  apply parse_base_qs_reads_back_the_pairs.
  - repeat constructor; simpl; intuition discriminate.
  - repeat constructor.
Defined.

(** X2. The parameters [fetch_page] sends: [aweme_id] and [cursor] are those
    of the call, whatever the base query string says; [count] is the one of
    the base query string when it has one, and the argument otherwise;
    every other key is as in the base query string. With its default of 20
    for [count], [_fetch_comment_page] of tiktok_standalone sends the same
    parameters. *)
Theorem fetch_page_sends_the_call_s_video_and_cursor :
  forall base_qs video_id cursor count,
    let parsed := TiktokComment._parse_base_qs base_qs in
    let params := TiktokComment.fetch_page_params base_qs video_id cursor count in
    assoc "aweme_id" params = Some video_id
    /\ assoc "cursor" params = Some (str_of_int cursor)
    /\ assoc "count" params
       = Some match assoc "count" parsed with
              | Some c => c
              | None => str_of_int count
              end
    /\ (forall k, k <> "aweme_id" -> k <> "cursor" -> k <> "count" ->
                  assoc k params = assoc k parsed)
    /\ forall c q,
         TiktokStandalone.comment_page_params (String c q) video_id cursor
         = TiktokComment.fetch_page_params (Some (String c q)) video_id cursor 20.
Proof.
  intros base_qs video_id cursor count parsed params.
  unfold params, TiktokComment.fetch_page_params. fold parsed.
  repeat split.
  - rewrite assoc_setdefault, assoc_dict_set_other by discriminate.
    now rewrite assoc_dict_set_same.
  - rewrite assoc_setdefault. now rewrite assoc_dict_set_same.
  - rewrite assoc_setdefault, !assoc_dict_set_other by discriminate.
    now destruct (assoc "count" parsed).
  - intros k Hv Hc Hn.
    rewrite assoc_setdefault, !assoc_dict_set_other by assumption.
    destruct (assoc k parsed); [ reflexivity | ].
    destruct (String.eqb_spec k "count"); [ contradiction | reflexivity ].
  - intros c q. unfold TiktokStandalone.comment_page_params,
      TiktokComment.fetch_page_params, TiktokComment._parse_base_qs,
      dict_of_pairs.
    now rewrite baseqs_params_pairs.
Qed.

End Requests.

(** ** Names: profile names, parsed inputs and file names *)
Module Names.
Import Py Text.

Section Profile.
Variable urlparse_path : string -> option string.

Lemma handle_of_url (url : string) :
  has_char "@" url = true ->
  let name := hd "" (str_split "/"
                       (hd "" (str_split "?" (last (str_split "@" url) "")))) in
  has_char "/" name = false
  /\ has_char "@" name = false
  /\ has_char "?" name = false
  /\ exists before after,
       url = (before ++ "@" ++ name ++ after)%string
       /\ has_char "@" after = false
       /\ (after = "" \/ prefix "?" after = true \/ prefix "/" after = true).
Proof.
  intros Hat name.
  destruct (str_split_last "@" url) as (before & Hurl & Hbefore).
  destruct (Hbefore Hat) as [b ->].
  set (t := last (str_split "@" url) "") in *.
  assert (Ht : has_char "@" t = false).
  { apply (str_split_pieces "@" url).
    destruct (exists_last (str_split_not_nil "@" url)) as (l & x & Hl).
    unfold t. rewrite Hl, last_last, in_app_iff. right. now left. }
  destruct (str_split_hd "?" t) as (r1 & Hr1 & Hr1').
  set (q := hd "" (str_split "?" t)) in *.
  assert (Hq : has_char "?" q = false).
  { apply (str_split_pieces "?" t). unfold q.
    destruct (str_split "?" t) eqn:E;
      [ now destruct (str_split_not_nil "?" t) | now left ]. }
  destruct (str_split_hd "/" q) as (r2 & Hr2 & Hr2').
  fold name in Hr2.
  assert (Hname : has_char "/" name = false).
  { apply (str_split_pieces "/" q). unfold name.
    destruct (str_split "/" q) eqn:E;
      [ now destruct (str_split_not_nil "/" q) | now left ]. }
  rewrite Hr1, has_char_app in Ht. apply orb_false_iff in Ht as [Htq Htr1].
  rewrite Hr2, has_char_app in Htq, Hq.
  apply orb_false_iff in Htq as [Hn1 Hn2].
  apply orb_false_iff in Hq as [Hq1 Hq2].
  repeat split; try assumption.
  exists b, (r2 ++ r1)%string. repeat split.
  - rewrite Hurl at 1. rewrite Hr1, Hr2.
    rewrite !str_app_assoc. reflexivity.
  - now rewrite has_char_app, Hn2, Htr1.
  - destruct Hr2' as [->|[r ->]].
    + destruct Hr1' as [->|[r ->]];
        [ now left | right; left; apply prefix_char ].
    + right. right. apply prefix_char.
Qed.

(** X3. The profile name [extract_profile_name] returns never holds a
    ["/"]. For a URL with an ["@"] it is the text after the last ["@"] up
    to the first ["?"] or ["/"] that follows, so it holds neither ["@"] nor
    ["?"]; for a URL with no ["@"] it is never empty. *)
Theorem profile_name_is_the_handle_of_the_url (url : string) :
  let name := TiktokPage.extract_profile_name urlparse_path url in
  has_char "/" name = false
  /\ (has_char "@" url = false -> name <> "")
  /\ (has_char "@" url = true ->
      has_char "@" name = false
      /\ has_char "?" name = false
      /\ exists before after,
           url = (before ++ "@" ++ name ++ after)%string
           /\ has_char "@" after = false
           /\ (after = "" \/ prefix "?" after = true \/ prefix "/" after = true))
  /\ TiktokPage.extract_profile_name urlparse_path
       "https://www.tiktok.com/@tuborg?lang=en" = "tuborg".
Proof.
  intros name. unfold name, TiktokPage.extract_profile_name.
  destruct (has_char "@" url) eqn:Hat.
  - destruct (handle_of_url url Hat) as (Hslash & Hat' & Hq & Hurl).
    split; [ exact Hslash | ].
    split; [ discriminate | ].
    split; [ now intros _ | reflexivity ].
  - assert (Hfallback :
      let name := match urlparse_path url with
                  | Some path =>
                      match find (fun part =>
                                    (negb (part =? "")%string
                                     && negb (prefix "@" part))%bool)
                                 (str_split "/" (strip_char "/" path)) with
                      | Some part => part
                      | None => "unknown_profile"
                      end
                  | None => "unknown_profile"
                  end in
      has_char "/" name = false /\ name <> "").
    { destruct (urlparse_path url) as [path|]; [ | now split ].
      destruct (find _ _) as [part|] eqn:Hfind; [ | now split ].
      apply find_some in Hfind as [Hin Hpart].
      apply andb_true_iff in Hpart as [Hne _].
      split; [ now apply (str_split_pieces "/" (strip_char "/" path)) | ].
      intros ->. discriminate. }
    destruct Hfallback as [Hslash Hne].
    split; [ exact Hslash | ].
    split; [ now intros _ | ].
    split; [ discriminate | reflexivity ].
Qed.

End Profile.

(** X4. What [parse_input] of tiktok_standalone returns is a page with the
    stripped input, which then starts with "http", or a query with the
    stripped input, which then does not; and the file name [save_to_json]
    builds from it holds no ["/"], with at most 50 characters taken from
    the input value. *)
Theorem tiktok_input_and_file_name (netloc : string -> option string)
    (input_str input_type value timestamp : string) :
  TiktokStandalone.parse_input netloc input_str = Some (input_type, value) ->
  has_char "/" timestamp = false ->
  value = strip input_str
  /\ (input_type = "page" /\ prefix "http" value = true
      \/ input_type = "query" /\ prefix "http" value = false)
  /\ has_char "/" (TiktokStandalone.filename input_type value timestamp) = false
  /\ has_char "@" (TiktokStandalone.input_value value) = false
  /\ (String.length (TiktokStandalone.input_value value) <= 50)%nat.
Proof.
  intros Hparse Hts.
  assert (Hvalue : has_char "/" (TiktokStandalone.input_value value) = false
                   /\ has_char "@" (TiktokStandalone.input_value value) = false).
  { unfold TiktokStandalone.input_value. split; apply has_char_substring.
    - apply replace_keeps_out; [ reflexivity | now apply replace_char ].
    - now apply replace_char. }
  destruct Hvalue as [Hslash Hat].
  assert (Hname : forall ty, has_char "/" ty = false ->
            has_char "/" (TiktokStandalone.filename ty value timestamp) = false).
  { intros ty Hty. unfold TiktokStandalone.filename.
    now rewrite !has_char_app, Hty, Hslash, Hts. }
  unfold TiktokStandalone.parse_input in Hparse. cbv zeta in Hparse.
  destruct (prefix "http" (strip input_str)) eqn:Hhttp.
  - destruct (netloc (strip input_str)) as [n|]; [ | discriminate ].
    destruct (contains "tiktok.com" n); [ | discriminate ].
    injection Hparse as <- <-.
    split; [ reflexivity | ].
    split; [ left; now split | ].
    split; [ now apply Hname | ].
    split; [ exact Hat | apply Normalizer.substring_length ].
  - injection Hparse as <- <-.
    split; [ reflexivity | ].
    split; [ right; now split | ].
    split; [ now apply Hname | ].
    split; [ exact Hat | apply Normalizer.substring_length ].
Qed.

Lemma tiktok_input_and_file_name_witness :
  let value := "https://www.tiktok.com/@tuborg" in
  value = strip " https://www.tiktok.com/@tuborg "
  /\ ("page" = "page" /\ prefix "http" value = true
      \/ "page" = "query" /\ prefix "http" value = false)
  /\ has_char "/" (TiktokStandalone.filename "page" value "20250301_101500")
     = false
  /\ has_char "@" (TiktokStandalone.input_value value) = false
  /\ (String.length (TiktokStandalone.input_value value) <= 50)%nat.
Proof.
  apply (tiktok_input_and_file_name (fun _ => Some "www.tiktok.com")
           " https://www.tiktok.com/@tuborg "); reflexivity.
Defined.

(** X5. What [parse_input] of instagram_standalone returns is a hashtag or
    a profile. A hashtag value is the stripped input without the ["#"] at
    its ends, and [prepare_hashtag_input] searches for it unchanged; a
    profile value starts with "http". The file name [save_to_json] builds
    holds no ["/"], with at most 50 characters taken from the value. *)
Theorem instagram_input_and_file_name (netloc : string -> option string)
    (input_str : string) (given : option string)
    (input_type value timestamp : string) (results_limit : Z) :
  InstagramStandalone.parse_input netloc input_str given
  = Some (input_type, value) ->
  has_char "/" timestamp = false ->
  (input_type = "hashtag"
   /\ value = strip_char "#" (strip input_str)
   /\ prefix "#" value = false
   /\ (forall s, value <> (s ++ "#")%string)
   /\ jget (InstagramStandalone.prepare_hashtag_input results_limit value) "search"
      = Some (JStr value)
   \/ input_type = "profile" /\ prefix "http" value = true)
  /\ has_char "/" (InstagramStandalone.filename input_type value timestamp) = false
  /\ (String.length (InstagramStandalone.input_value value) <= 50)%nat.
Proof.
  intros Hparse Hts.
  assert (Hvalue : has_char "/" (InstagramStandalone.input_value value) = false).
  { unfold InstagramStandalone.input_value. apply has_char_substring.
    now apply replace_char. }
  assert (Hname : forall ty, has_char "/" ty = false ->
            has_char "/" (InstagramStandalone.filename ty value timestamp) = false).
  { intros ty Hty. unfold InstagramStandalone.filename.
    now rewrite !has_char_app, Hty, Hvalue, Hts. }
  assert (Hhashtag : forall ty v,
            Some ("hashtag", strip_char "#" (strip input_str)) = Some (ty, v) ->
            ty = "hashtag"
            /\ v = strip_char "#" (strip input_str)
            /\ prefix "#" v = false
            /\ (forall s, v <> (s ++ "#")%string)
            /\ jget (InstagramStandalone.prepare_hashtag_input results_limit v)
                 "search" = Some (JStr v)).
  { intros ty v [= <- <-].
    destruct (strip_char_ends "#" (strip input_str)) as [Hfirst Hlast].
    repeat split; try assumption.
    unfold InstagramStandalone.prepare_hashtag_input, jget, jget_default.
    cbv zeta. simpl. now rewrite strip_char_idempotent. }
  assert (Hdetected :
            (if prefix "http" (strip input_str)
             then match netloc (strip input_str) with
                  | Some n =>
                      if contains "instagram.com" n
                      then Some ("profile", strip input_str)
                      else None
                  | None => None
                  end
             else Some ("hashtag", strip_char "#" (strip input_str)))
            = Some (input_type, value) ->
            input_type = "hashtag"
            /\ value = strip_char "#" (strip input_str)
            /\ prefix "#" value = false
            /\ (forall s, value <> (s ++ "#")%string)
            /\ jget (InstagramStandalone.prepare_hashtag_input results_limit value)
                 "search" = Some (JStr value)
            \/ input_type = "profile" /\ prefix "http" value = true).
  { destruct (prefix "http" (strip input_str)) eqn:Hhttp.
    - destruct (netloc (strip input_str)) as [n|]; [ | discriminate ].
      destruct (contains "instagram.com" n); [ | discriminate ].
      intros [= <- <-]. right. now split.
    - intros Heq. left. now apply Hhashtag. }
  assert (Hkind :
            input_type = "hashtag"
            /\ value = strip_char "#" (strip input_str)
            /\ prefix "#" value = false
            /\ (forall s, value <> (s ++ "#")%string)
            /\ jget (InstagramStandalone.prepare_hashtag_input results_limit value)
                 "search" = Some (JStr value)
            \/ input_type = "profile" /\ prefix "http" value = true).
  { unfold InstagramStandalone.parse_input in Hparse. cbv zeta in Hparse.
    destruct given as [[|c t]|]; try (now apply Hdetected).
    destruct (String.eqb_spec (String c t) "hashtag");
      [ left; now apply Hhashtag | ].
    destruct (String.eqb_spec (String c t) "profile");
      [ | now apply Hdetected ].
    destruct (prefix "http" (strip input_str)) eqn:Hhttp;
      injection Hparse as <- <-; right; split; auto. }
  split; [ exact Hkind | ].
  split; [ | apply Normalizer.substring_length ].
  apply Hname. destruct Hkind as [(-> & _)|(-> & _)]; reflexivity.
Qed.

Lemma instagram_input_and_file_name_witness :
  ("hashtag" = "hashtag"
   /\ "music" = strip_char "#" (strip " #music ")
   /\ prefix "#" "music" = false
   /\ (forall s, "music" <> (s ++ "#")%string)
   /\ jget (InstagramStandalone.prepare_hashtag_input 200 "music") "search"
      = Some (JStr "music")
   \/ "hashtag" = "profile" /\ prefix "http" "music" = true)
  /\ has_char "/" (InstagramStandalone.filename "hashtag" "music" "20250301_101500")
     = false
  /\ (String.length (InstagramStandalone.input_value "music") <= 50)%nat.
Proof.
  apply (instagram_input_and_file_name (fun _ => None) " #music " None);
    reflexivity.
Defined.

End Names.

(** ** Values fit for JSON *)
Module Cleaning.
Import Py.

(** Induction over a JSON value and the values it holds. *)
Lemma json_induction (P : json -> Prop) :
  (forall a, P (JAtom a)) ->
  (forall l, Forall P l -> P (JList l)) ->
  (forall d, Forall (fun kv => P (snd kv)) d -> P (JDict d)) ->
  forall v, P v.
Proof.
  intros Hatom Hlist Hdict.
  fix IH 1. intros [a|l|d].
  - apply Hatom.
  - apply Hlist. induction l as [|v l IHl]; constructor; [ apply IH | exact IHl ].
  - apply Hdict. induction d as [|[k v] d IHd]; constructor;
      [ apply IH | exact IHd ].
Qed.

(** A NaN or an infinity somewhere in the value. *)
Fixpoint holds_nan (v : json) : bool :=
  match v with
  | JAtom (PFloat (FFinite _ _)) => false
  | JAtom (PFloat _) => true
  | JAtom _ => false
  | JList l => existsb holds_nan l
  | JDict d => existsb (fun kv : string * json => let (_, x) := kv in holds_nan x) d
  end.

(** X6. [clean_value] leaves no NaN and no infinity at any depth of the
    value, and returns a value that holds none as it is. *)
Theorem clean_value_leaves_no_nan :
  forall v,
    holds_nan (InstagramScraper.clean_value v) = false
    /\ (holds_nan v = false -> InstagramScraper.clean_value v = v).
Proof.
  induction v as [a|l IH|d IH] using json_induction.
  - destruct a as [| | |[| | |m e]|]; simpl; split; try reflexivity;
      discriminate.
  - simpl. split.
    + induction IH as [|v l [Hv _] _ IHl]; [ reflexivity | ].
      simpl. now rewrite Hv.
    + intros Hl. f_equal.
      induction IH as [|v l [_ Hv] _ IHl]; [ reflexivity | ].
      simpl in Hl. apply orb_false_iff in Hl as [Hv' Hl].
      simpl. now rewrite (Hv Hv'), (IHl Hl).
  - simpl. split.
    + induction IH as [|[k v] d [Hv _] _ IHd]; [ reflexivity | ].
      simpl in *. now rewrite Hv.
    + intros Hd. f_equal.
      induction IH as [|[k v] d [_ Hv] _ IHd]; [ reflexivity | ].
      simpl in *. apply orb_false_iff in Hd as [Hv' Hd].
      now rewrite (Hv Hv'), (IHd Hd).
Qed.

End Cleaning.

(** ** The types of the stored posts *)
Module PostTypes.
Import Py.

Lemma valid_type_cases (t : string) :
  InstagramScraper.is_valid_type t = true ->
  In (replace "graph" "" (lower t)) ["image"; "video"; "sidecar"; "carousel"].
Proof.
  unfold InstagramScraper.is_valid_type. rewrite existsb_exists.
  intros (v & Hin & Heq). apply String.eqb_eq in Heq. rewrite Heq.
  simpl in Hin.
  repeat (destruct Hin as [<-|Hin]; [ vm_compute; tauto | ]).
  contradiction.
Qed.

Section WithRuntime.
Context `{Runtime}.

(** X7. The [post_type] of every record the post normalizers build is one
    of image, video, sidecar and carousel; the standalone normalizer, which
    lets a row with an empty type through, also stores the empty type. *)
Theorem stored_post_type_is_one_of_four :
  (forall idx r rec,
      InstagramScraper.normalize_post idx r = Some rec ->
      In (InstagramScraper.post_type rec)
         ["image"; "video"; "sidecar"; "carousel"])
  /\ (forall r rec,
         InstagramStandalone.normalize_post r = Some rec ->
         In (InstagramStandalone.post_type rec)
            [""; "image"; "video"; "sidecar"; "carousel"]).
Proof.
  split.
  - intros idx r rec. unfold InstagramScraper.normalize_post. cbv zeta.
    destruct (truthy (InstagramScraper.get r "type")); [ | discriminate ].
    destruct (InstagramScraper.get r "type") as [| | | |t]; try discriminate.
    destruct (InstagramScraper.is_valid_type (strip t)) eqn:Hvalid;
      [ | discriminate ].
    simpl. destruct (negb _ || _)%bool; [ discriminate | ].
    intros [= <-]. simpl. now apply valid_type_cases.
  - intros r rec. unfold InstagramStandalone.normalize_post. cbv zeta.
    destruct (InstagramStandalone.get_default r "type" (PStr ""))
      as [| | | |t]; try discriminate.
    destruct (String.eqb_spec t "") as [->|Hne]; simpl.
    + destruct (negb _ || _)%bool; [ discriminate | ].
      intros [= <-]. simpl. now left.
    + destruct (InstagramStandalone.is_valid_type t) eqn:Hvalid;
        [ | discriminate ].
      simpl. destruct (negb _ || _)%bool; [ discriminate | ].
      intros [= <-]. simpl. right. now apply valid_type_cases.
Qed.

End WithRuntime.
End PostTypes.

(** ** Comment rows and commenters *)
Module CommentRows.
Import Py Http.

(** The two places that read a commenter's avatar agree on every user. *)
Lemma avatar_paths_agree (u : json) :
  TiktokComment.commenter_avatar u = TiktokComment.avatar_url u.
Proof.
  unfold TiktokComment.commenter_avatar, TiktokComment.avatar_url.
  destruct u as [a|l|d]; try reflexivity.
  unfold jget, jget_default.
  destruct (assoc "avatar_thumb" d) as [[a|l|t]|]; try reflexivity.
  - unfold jor. destruct (jtruthy (JAtom a)); reflexivity.
  - unfold jor. destruct (jtruthy (JList l)); reflexivity.
  - unfold jor. destruct t as [|kv t].
    + reflexivity.
    + cbn [jtruthy is_dict].
      destruct (assoc "url_list" (kv :: t)) as [[x|x|x]|]; try reflexivity.
      * destruct x as [| | | |s]; simpl; try reflexivity.
        -- now destruct b.
        -- now destruct (z =? 0).
        -- destruct f as [| | |m e]; try reflexivity. now destruct (m =? 0).
        -- now destruct s.
      * now destruct x.
      * now destruct x.
Qed.

Lemma commenters_ok_after_rows (cs : list json) (rows : list TiktokComment.comment_row) :
  TiktokComment.comments_to_rows cs = Some rows ->
  TiktokComment.commenters_ok cs = true.
Proof.
  revert rows. induction cs as [|c cs IH]; intros rows; [ reflexivity | ].
  simpl. unfold TiktokComment.comment_to_row.
  destruct (jget c "user") as [x|]; [ | discriminate ].
  rewrite avatar_paths_agree.
  destruct (TiktokComment.parent_cid c); [ | discriminate ].
  destruct (TiktokComment.avatar_url (jor x (JDict []))); [ | discriminate ].
  destruct (TiktokComment.comments_to_rows cs) as [rs|]; [ | discriminate ].
  intros _. now apply (IH rs).
Qed.

(** X8. The avatar stored with a comment row is the avatar stored for its
    commenter: [insert_comments] and [upsert_commenters] compute the same
    value for every user, so once the rows of a page are built the update
    of the commenters does not raise, and [insert_comments] hands over one
    row per comment. *)
Theorem comment_row_and_commenter_share_the_avatar :
  (forall u, TiktokComment.commenter_avatar u = TiktokComment.avatar_url u)
  /\ (forall c row,
         TiktokComment.comment_to_row c = Some row ->
         (x <- jget c "user" ;; TiktokComment.commenter_avatar (jor x (JDict [])))
         = Some (TiktokComment.user_avatar row))
  /\ (forall cs rows,
         TiktokComment.comments_to_rows cs = Some rows ->
         TiktokComment.insert_comments (JList cs) = Some rows
         /\ List.length rows = List.length cs).
Proof.
  split; [ exact avatar_paths_agree | split ].
  - intros c row. unfold TiktokComment.comment_to_row.
    destruct (jget c "user") as [x|]; [ | discriminate ].
    rewrite avatar_paths_agree.
    destruct (TiktokComment.parent_cid c); [ | discriminate ].
    destruct (TiktokComment.avatar_url (jor x (JDict []))); [ | discriminate ].
    now intros [= <-].
  - intros cs rows Hrows. split.
    + unfold TiktokComment.insert_comments.
      destruct cs as [|c cs]; [ now injection Hrows as <- | ].
      cbn [jtruthy negb jiter]. rewrite Hrows.
      now rewrite (commenters_ok_after_rows _ _ Hrows).
    + revert rows Hrows. induction cs as [|c cs IH]; intros rows; simpl.
      * now intros [= <-].
      * destruct (TiktokComment.comment_to_row c); [ | discriminate ].
        destruct (TiktokComment.comments_to_rows cs) as [rs|]; [ | discriminate ].
        intros [= <-]. simpl. f_equal. now apply IH.
Qed.

End CommentRows.

(** ** What a crawl returns and what a harvest keeps *)
Module Counts.
Import Py Http.

Lemma comments_to_rows_length (cs : list json)
    (rows : list TiktokComment.comment_row) :
  TiktokComment.comments_to_rows cs = Some rows ->
  List.length rows = List.length cs.
Proof.
  revert rows. induction cs as [|c cs IH]; intros rows; simpl.
  - now intros [= <-].
  - destruct (TiktokComment.comment_to_row c); [ | discriminate ].
    destruct (TiktokComment.comments_to_rows cs) as [rs|]; [ | discriminate ].
    intros [= <-]. simpl. f_equal. now apply IH.
Qed.

Lemma jiter_length (v : json) (cs : list json) :
  jiter v = Some cs -> List.length cs = jlen v.
Proof.
  destruct v as [[| | | |s]|l|d]; simpl; try discriminate; intros [= <-].
  - rewrite length_map. induction s as [|c s IH]; simpl; congruence.
  - reflexivity.
  - apply length_map.
Qed.

Lemma insert_comments_length (comments : json)
    (rows : list TiktokComment.comment_row) :
  jtruthy comments = true ->
  TiktokComment.insert_comments comments = Some rows ->
  List.length rows = jlen comments.
Proof.
  intros Htrue. unfold TiktokComment.insert_comments. rewrite Htrue. simpl.
  destruct (jiter comments) as [cs|] eqn:Hiter; [ | discriminate ].
  destruct (TiktokComment.comments_to_rows cs) as [rs|] eqn:Hrows;
    [ | discriminate ].
  destruct (TiktokComment.commenters_ok cs); [ | discriminate ].
  intros [= <-]. rewrite (comments_to_rows_length _ _ Hrows).
  now apply jiter_length.
Qed.

Section Crawl.
Import TiktokComment.
Variable api : nat -> Z -> nat -> outcome.
Variable max_pages : Z.

Definition counted (st : crawl) : Prop :=
  total_fetched st = Z.of_nat (List.length (inserted st)).

Lemma crawl_turn_counted (st : crawl) :
  counted st -> counted (fst (crawl_turn api max_pages st)).
Proof.
  unfold counted, crawl_turn. intros Hst.
  destruct (fst (fetch_page _)) as [data|e]; [ | exact Hst ].
  destruct (x <- jget data "comments" ;; Some (jor x (JList [])))
    as [comments|]; [ | exact Hst ].
  assert (Hrows : forall rows n,
            (if jtruthy comments
             then (rows <- insert_comments comments ;;
                   if has_len comments
                   then Some (rows, Z.of_nat (jlen comments))
                   else None)
             else Some ([], 0)) = Some (rows, n) ->
            n = Z.of_nat (List.length rows)).
  { intros rows n. destruct (jtruthy comments) eqn:Htrue.
    - destruct (insert_comments comments) as [rs|] eqn:Hins; [ | discriminate ].
      destruct (has_len comments); [ | discriminate ].
      intros [= <- <-]. now rewrite (insert_comments_length _ _ Htrue Hins).
    - now intros [= <- <-]. }
  destruct (if jtruthy comments then _ else _) as [[rows n]|];
    [ | exact Hst ].
  specialize (Hrows rows n eq_refl).
  assert (Hsum : total_fetched st + n
                 = Z.of_nat (List.length (inserted st ++ rows)))
    by (rewrite length_app; lia).
  destruct (x <- jget_default data "has_more" (JInt 0) ;; jint x) as [more|];
    [ | exact Hsum ].
  destruct (x <- jget_default data "cursor" (JInt 0) ;; jint x)
    as [next_cursor|]; [ | exact Hsum ].
  destruct (_ || _)%bool; exact Hsum.
Qed.

Lemma crawl_loop_counted (fuel : nat) (st st' : crawl) :
  counted st -> crawl_loop api max_pages fuel st = Some st' -> counted st'.
Proof.
  revert st. induction fuel as [|fuel IH]; intros st Hst; simpl;
    [ discriminate | ].
  pose proof (crawl_turn_counted st Hst) as Hturn.
  destruct (crawl_turn api max_pages st) as [st1 goes_on].
  destruct goes_on; [ now apply IH | now intros [= <-] ].
Qed.

End Crawl.

(** X9. [scrape_comments_for_video] of tiktok_comment ends, and the count
    it returns is the number of comment rows it built and handed to
    [insert_comments]' table insert. *)
Theorem returned_count_is_the_number_of_rows :
  forall api max_pages,
    exists st,
      TiktokComment.scrape_comments_for_video api max_pages
        (Z.to_nat (Z.max 1 max_pages)) = Some st
      /\ TiktokComment.total_fetched st
         = Z.of_nat (List.length (TiktokComment.inserted st)).
Proof.
  intros api max_pages.
  destruct (Pagination.crawl_loop_terminates api max_pages
              (Z.to_nat (Z.max 1 max_pages)) TiktokComment.crawl0)
    as [st Hst]; simpl; try lia.
  exists st. split; [ exact Hst | ].
  eapply crawl_loop_counted; [ | exact Hst ]. reflexivity.
Qed.

(** *** A harvest only grows *)

Lemma collect_videos_grows (vs items : list json) (seen : list scalar) :
  exists more new,
    fst (fst (TiktokPage.collect_videos vs items seen)) = items ++ more
    /\ snd (fst (TiktokPage.collect_videos vs items seen)) = new ++ seen.
Proof.
  revert items seen. induction vs as [|v vs IH]; intros items seen; simpl.
  - exists [], []. now rewrite app_nil_r.
  - destruct (jget v "id") as [vid|]; [ | exists [], []; now rewrite app_nil_r ].
    destruct (jtruthy vid); [ | apply IH ].
    destruct vid as [a|l|d]; try (exists [], []; now rewrite app_nil_r).
    destruct (py_in a seen); [ apply IH | ].
    destruct (IH (items ++ [v]) (a :: seen)) as (more & new & -> & ->).
    exists (v :: more), (new ++ [a]). now rewrite <- !app_assoc.
Qed.

Lemma _collect_grows (h : TiktokPage.harvest) (r : TiktokPage.response) :
  (exists more, TiktokPage.items (TiktokPage._collect h r)
                = TiktokPage.items h ++ more)
  /\ (exists new, TiktokPage.seen (TiktokPage._collect h r)
                  = new ++ TiktokPage.seen h)
  /\ (TiktokPage.done h = true -> TiktokPage.done (TiktokPage._collect h r) = true).
Proof.
  assert (Hsame : (exists more, TiktokPage.items h = TiktokPage.items h ++ more)
                  /\ (exists new, TiktokPage.seen h = new ++ TiktokPage.seen h)
                  /\ (TiktokPage.done h = true -> TiktokPage.done h = true)).
  { split; [ exists []; now rewrite app_nil_r | split; [ now exists [] | trivial ] ]. }
  unfold TiktokPage._collect.
  destruct (_ || _)%bool; [ exact Hsame | ].
  destruct (negb _); [ exact Hsame | ].
  destruct (TiktokPage.body r) as [data|]; [ | exact Hsame ].
  destruct (jget_default data "itemList" (JList [])) as [video_list|];
    [ | exact Hsame ].
  destruct (jiter video_list) as [vs|]; [ | exact Hsame ].
  destruct (collect_videos_grows vs (TiktokPage.items h) (TiktokPage.seen h))
    as (more & new & Hitems & Hseen).
  destruct (TiktokPage.collect_videos vs (TiktokPage.items h) (TiktokPage.seen h))
    as [[items' seen'] raised].
  simpl in *. split; [ now exists more | split; [ now exists new | ] ].
  intros Hdone. destruct raised; [ exact Hdone | ].
  destruct (jget_default data "hasMore" (JInt 1)); [ | exact Hdone ].
  now rewrite Hdone.
Qed.

Lemma fold_collect_grows (resps : list TiktokPage.response) (h : TiktokPage.harvest) :
  (exists more, TiktokPage.items (fold_left TiktokPage._collect resps h)
                = TiktokPage.items h ++ more)
  /\ (exists new, TiktokPage.seen (fold_left TiktokPage._collect resps h)
                  = new ++ TiktokPage.seen h)
  /\ (TiktokPage.done h = true ->
      TiktokPage.done (fold_left TiktokPage._collect resps h) = true).
Proof.
  revert h. induction resps as [|r resps IH]; intros h; simpl.
  - split; [ exists []; now rewrite app_nil_r | split; [ now exists [] | trivial ] ].
  - destruct (IH (TiktokPage._collect h r)) as ((m2 & H2) & (n2 & S2) & D2).
    destruct (_collect_grows h r) as ((m1 & H1) & (n1 & S1) & D1).
    split; [ | split ].
    + exists (m1 ++ m2). now rewrite H2, H1, app_assoc.
    + exists (n2 ++ n1). now rewrite S2, S1, app_assoc.
    + auto.
Qed.

(** X10. The harvest of a profile only grows: the videos collected from
    the first responses stay, in their order, at the head of the videos
    collected from all of them, the set of seen ids only gains members,
    and once a response has set [done] every later state has it set. *)
Theorem harvest_only_grows :
  forall first later,
    let h1 := TiktokPage.collect_all first in
    let h2 := TiktokPage.collect_all (first ++ later) in
    (exists more, TiktokPage.items h2 = TiktokPage.items h1 ++ more)
    /\ (exists new, TiktokPage.seen h2 = new ++ TiktokPage.seen h1)
    /\ (TiktokPage.done h1 = true -> TiktokPage.done h2 = true).
Proof.
  intros first later h1 h2. unfold h2, h1, TiktokPage.collect_all.
  rewrite fold_left_app. apply fold_collect_grows.
Qed.

End Counts.

(** ** The hashtag summaries *)
Module HashtagSummary.
Import Py Text.

Definition sum_Z (l : list Z) : Z := fold_right Z.add 0 l.

Lemma sum_Z_app (l1 l2 : list Z) : sum_Z (l1 ++ l2) = sum_Z l1 + sum_Z l2.
Proof. induction l1 as [|x l1 IH]; simpl; [ reflexivity | rewrite IH; lia ]. Qed.

Lemma slug_has_no_space (s : string) : has_char " " (replace " " "" s) = false.
Proof. now apply replace_char. Qed.

(** *** instagram_scraper.py *)
Section Scraper.
Import InstagramScraper.Hashtag.
Context `{Runtime}.
Variable container_str : json -> string.

(** The engagement the stored posts add up to. *)
Definition engagement_of (l : list post_data) : Z :=
  sum_Z (map (fun p => likesCount p + commentsCount p) l).

Definition short_captions (l : list post_data) : Prop :=
  Forall (fun p => (String.length (caption p) <= 500)%nat) l.

Lemma caption_of_length (v : json) :
  (String.length (caption_of container_str v) <= 500)%nat.
Proof.
  unfold caption_of. destruct (jtruthy v); [ | simpl; lia ].
  apply Normalizer.substring_length.
Qed.

Lemma post_step_adds (post : json) (l : list post_data) (t : Z) :
  exists added,
    post_step container_str post (l, t) = (l ++ added, t + engagement_of added)
    /\ (List.length added <= 1)%nat
    /\ short_captions added.
Proof.
  unfold post_step.
  assert (Hnone : exists added,
            (l, t) = (l ++ added, t + engagement_of added)
            /\ (List.length added <= 1)%nat /\ short_captions added).
  { exists []. rewrite app_nil_r. unfold engagement_of. simpl.
    split; [ f_equal; lia | split; [ lia | constructor ] ]. }
  destruct post as [a|ps|d]; try exact Hnone.
  cbv zeta. destruct (negb _); [ exact Hnone | ].
  eexists [_]. cbn [fst snd]. unfold engagement_of.
  split; [ apply f_equal2; [ reflexivity | simpl; lia ] | ].
  split; [ simpl; lia | ].
  constructor; [ apply caption_of_length | constructor ].
Qed.

Lemma posts_fold_adds (ps : list json) (l : list post_data) (t : Z) :
  exists added,
    fold_left (fun acc post => post_step container_str post acc) ps (l, t)
    = (l ++ added, t + engagement_of added)
    /\ (List.length added <= List.length ps)%nat
    /\ short_captions added.
Proof.
  revert l t. induction ps as [|post ps IH]; intros l t; simpl.
  - exists []. rewrite app_nil_r. unfold engagement_of. simpl.
    split; [ f_equal; lia | split; [ lia | constructor ] ].
  - destruct (post_step_adds post l t) as (a1 & -> & Hlen1 & Hcap1).
    destruct (IH (l ++ a1) (t + engagement_of a1)) as (a2 & -> & Hlen2 & Hcap2).
    exists (a1 ++ a2). rewrite <- app_assoc. unfold engagement_of in *.
    rewrite map_app, sum_Z_app, length_app.
    split; [ f_equal; lia | split; [ lia | now apply Forall_app ] ].
Qed.

Lemma row_posts_length (row : list (string * json)) (k : string) :
  (List.length (row_posts row k) <= 10)%nat.
Proof.
  unfold row_posts.
  destruct (assoc k row) as [[a|l|d]|]; try (simpl; lia).
  apply firstn_le_length.
Qed.

Lemma rows_fold_adds (rows : list (list (string * json)))
    (latest top : list post_data) (t : Z) :
  exists more_latest more_top,
    fold_left (row_step container_str) rows (latest, top, t)
    = (latest ++ more_latest, top ++ more_top,
       t + engagement_of more_top + engagement_of more_latest)
    /\ (List.length more_latest <= 10 * List.length rows)%nat
    /\ (List.length more_top <= 10 * List.length rows)%nat
    /\ short_captions more_latest
    /\ short_captions more_top.
Proof.
  revert latest top t. induction rows as [|row rows IH]; intros latest top t.
  - exists [], []. simpl. rewrite !app_nil_r. unfold engagement_of. simpl.
    repeat split; try lia; try constructor. f_equal. lia.
  - cbn [fold_left List.length]. unfold row_step at 2.
    destruct (posts_fold_adds (row_posts row "topPosts") top t)
      as (a1 & -> & Hlen1 & Hcap1).
    destruct (posts_fold_adds (row_posts row "latestPosts") latest
                (t + engagement_of a1))
      as (a2 & -> & Hlen2 & Hcap2).
    destruct (IH (latest ++ a2) (top ++ a1)
                (t + engagement_of a1 + engagement_of a2))
      as (m1 & m2 & -> & Hl1 & Hl2 & Hc1 & Hc2).
    pose proof (row_posts_length row "topPosts").
    pose proof (row_posts_length row "latestPosts").
    exists (a2 ++ m1), (a1 ++ m2). rewrite <- !app_assoc.
    unfold engagement_of in *. rewrite !map_app, !sum_Z_app, !length_app.
    repeat split; try lia; try (now apply Forall_app). f_equal. lia.
Qed.

(** X11. The record [normalize_and_insert_hashtag] inserts holds at least
    one post; its [total_engagement] is the sum of the likes and comments
    of the posts it stores; every row of the frame gives at most 10 top
    posts and 10 latest posts; no stored caption is longer than 500
    characters; and the slug holds neither a ["#"] nor a space. *)
Theorem hashtag_record_adds_up (rows : list (list (string * json)))
    (hashtag : string) (rec : hashtag_record) :
  normalize_and_insert_hashtag container_str rows hashtag = Some rec ->
  (1 <= posts_count rec)%nat
  /\ posts_count rec
     = (List.length (latest_posts rec) + List.length (top_posts rec))%nat
  /\ total_engagement rec
     = engagement_of (top_posts rec) + engagement_of (latest_posts rec)
  /\ (List.length (top_posts rec) <= 10 * List.length rows)%nat
  /\ (List.length (latest_posts rec) <= 10 * List.length rows)%nat
  /\ short_captions (top_posts rec)
  /\ short_captions (latest_posts rec)
  /\ has_char "#" (hashtag_slug rec) = false
  /\ has_char " " (hashtag_slug rec) = false.
Proof.
  unfold normalize_and_insert_hashtag. cbv zeta.
  destruct (rows_fold_adds rows [] [] 0)
    as (latest & top & -> & Hl1 & Hl2 & Hc1 & Hc2).
  simpl app. intros Hrec.
  assert (Hslug : forall s,
            has_char "#" (replace "#" "" (replace " " "" s)) = false
            /\ has_char " " (replace "#" "" (replace " " "" s)) = false).
  { intros s. split; [ now apply replace_char | ].
    apply replace_keeps_out; [ reflexivity | apply slug_has_no_space ]. }
  destruct (Hslug (lower (strip_char "#" hashtag))) as [Hs1 Hs2].
  destruct latest as [|p latest]; [ destruct top as [|q top];
                                    [ discriminate | ] | ];
    injection Hrec as <-; cbn [posts_count latest_posts top_posts
                               total_engagement hashtag_slug];
    repeat split; try assumption; simpl; lia.
Qed.

End Scraper.

Lemma hashtag_record_adds_up_witness :
  exists rec,
    InstagramScraper.Hashtag.normalize_and_insert_hashtag
      (H := Samples.runtime) (fun _ => "") Samples.hashtag_frame "#Tuborg"
    = Some rec
    /\ (1 <= InstagramScraper.Hashtag.posts_count rec)%nat
    /\ InstagramScraper.Hashtag.total_engagement rec = 47.
Proof.
  eexists. split; [ reflexivity | ].
  split; [ | reflexivity ].
  apply (hashtag_record_adds_up (H := Samples.runtime) (fun _ => "")
           Samples.hashtag_frame "#Tuborg").
  reflexivity.
Defined.

(** *** instagram_standalone.py *)
Section Standalone.
Import InstagramStandalone.Hashtag.
Context `{Runtime}.

Definition engagement_of_rows (l : list post_data) : Z :=
  sum_Z (map (fun p => likesCount p + commentsCount p) l).

(** The owner names that count: those that are not empty. *)
Definition owners (l : list post_data) : list string :=
  filter (fun u => negb (u =? "")%string) (map ownerUsername l).

Definition summed (rows_seen : nat) (st : list post_data * Z * list string)
    : Prop :=
  let '(posts_data, total, users) := st in
  total = engagement_of_rows posts_data
  /\ (List.length posts_data <= rows_seen)%nat
  /\ NoDup users
  /\ (forall u, In u users <-> In u (owners posts_data))
  /\ Forall (fun p => (String.length (caption p) <= 500)%nat) posts_data.

Lemma row_post_caption (r : InstagramStandalone.row) (p : post_data) :
  row_post r = Some p -> (String.length (caption p) <= 500)%nat.
Proof.
  unfold row_post. cbv zeta.
  destruct (_ && _)%bool; [ discriminate | ].
  destruct (_ || _)%bool; [ discriminate | ].
  destruct (count_of r "likesCount"); [ | discriminate ].
  destruct (count_of r "commentsCount"); [ | discriminate ].
  intros [= <-]. simpl. apply Normalizer.substring_length.
Qed.

Lemma row_step_summed (n : nat) (st : list post_data * Z * list string)
    (r : InstagramStandalone.row) :
  summed n st -> summed (S n) (row_step st r).
Proof.
  destruct st as [[posts_data total] users].
  intros (Htotal & Hlen & Hnd & Hin & Hcap). unfold row_step.
  destruct (row_post r) as [p|] eqn:Hp;
    [ | repeat split; auto; apply Hin ].
  unfold summed, engagement_of_rows, owners in *.
  rewrite !map_app, sum_Z_app, filter_app, length_app. simpl.
  split; [ lia | ]. split; [ lia | ].
  destruct (String.eqb_spec (ownerUsername p) "") as [Hempty|Hname]; simpl.
  - rewrite app_nil_r. repeat split; auto; try apply Hin.
    apply Forall_app. split; [ exact Hcap | ].
    constructor; [ now apply (row_post_caption r) | constructor ].
  - destruct (existsb (String.eqb (ownerUsername p)) users) eqn:Hseen.
    + split; [ exact Hnd | ]. split.
      * intros u. rewrite in_app_iff, <- Hin. simpl. split; [ tauto | ].
        intros [Hu|[<-|[]]]; [ exact Hu | ].
        apply existsb_exists in Hseen as (x & Hx & Heq).
        apply String.eqb_eq in Heq. now subst.
      * apply Forall_app. split; [ exact Hcap | ].
        constructor; [ now apply (row_post_caption r) | constructor ].
    + assert (Hnew : ~ In (ownerUsername p) users).
      { intros Hu. apply Bool.not_true_iff_false in Hseen. apply Hseen.
        apply existsb_exists. exists (ownerUsername p).
        split; [ exact Hu | apply String.eqb_refl ]. }
      split; [ now constructor | ]. split.
      * intros u. rewrite in_app_iff, <- Hin. simpl. tauto.
      * apply Forall_app. split; [ exact Hcap | ].
        constructor; [ now apply (row_post_caption r) | constructor ].
Qed.

Lemma rows_fold_summed (rows : list InstagramStandalone.row) (n : nat)
    (st : list post_data * Z * list string) :
  summed n st -> summed (n + List.length rows) (fold_left row_step rows st).
Proof.
  revert n st. induction rows as [|r rows IH]; intros n st Hst; simpl.
  - now rewrite Nat.add_0_r.
  - replace (n + S (List.length rows))%nat with (S n + List.length rows)%nat
      by lia.
    apply IH. now apply row_step_summed.
Qed.

(** X12. The summary [normalize_hashtag_data] returns holds at least one
    post and no more posts than the frame has rows; its
    [total_engagement] is the sum of the likes and comments of its posts;
    [unique_users_count] is the number of distinct owner names of its
    posts, the empty name apart, so it never exceeds [posts_count]; no
    caption is longer than 500 characters; and the slug holds no space. *)
Theorem hashtag_summary_adds_up (rows : list InstagramStandalone.row)
    (hashtag : string) (d : hashtag_data) :
  normalize_hashtag_data rows hashtag = Some d ->
  (1 <= posts_count d <= List.length rows)%nat
  /\ posts_count d = List.length (posts d)
  /\ total_engagement d = engagement_of_rows (posts d)
  /\ unique_users_count d = List.length (nodup string_dec (owners (posts d)))
  /\ (unique_users_count d <= posts_count d)%nat
  /\ Forall (fun p => (String.length (caption p) <= 500)%nat) (posts d)
  /\ has_char " " (hashtag_slug d) = false.
Proof.
  unfold normalize_hashtag_data. cbv zeta.
  assert (Hstart : summed 0 ([], 0, [])).
  { repeat split; simpl; try lia; try constructor; tauto. }
  pose proof (rows_fold_summed rows 0 _ Hstart) as Hsum.
  destruct (fold_left row_step rows ([], 0, [])) as [[posts_data total] users].
  destruct Hsum as (Htotal & Hlen & Hnd & Hin & Hcap).
  destruct posts_data as [|p posts_data]; [ discriminate | ].
  intros [= <-]. cbn [posts_count posts total_engagement unique_users_count
                      hashtag_slug].
  assert (Hcount : List.length users
                   = List.length (nodup string_dec (owners (p :: posts_data)))).
  { apply Permutation_length. apply NoDup_Permutation;
      [ exact Hnd | apply NoDup_nodup | ].
    intros u. rewrite Hin. symmetry. apply nodup_In. }
  split; [ simpl in *; lia | ].
  split; [ reflexivity | ].
  split; [ exact Htotal | ].
  split; [ exact Hcount | ].
  split; [ | split; [ exact Hcap | apply slug_has_no_space ] ].
  rewrite Hcount.
  etransitivity; [ apply NoDup_incl_length; [ apply NoDup_nodup | ] | ].
  - intros u Hu. apply nodup_In in Hu. exact Hu.
  - unfold owners. etransitivity; [ apply filter_length_le | ].
    now rewrite length_map.
Qed.

End Standalone.

Lemma hashtag_summary_adds_up_witness :
  exists d,
    InstagramStandalone.Hashtag.normalize_hashtag_data (H := Samples.runtime)
      Samples.posts_frame "#Tuborg" = Some d
    /\ (1 <= InstagramStandalone.Hashtag.posts_count d
         <= List.length Samples.posts_frame)%nat
    /\ InstagramStandalone.Hashtag.unique_users_count d = 1%nat.
Proof.
  eexists. split; [ reflexivity | ].
  split; [ | reflexivity ].
  apply (hashtag_summary_adds_up (H := Samples.runtime) Samples.posts_frame
           "#Tuborg").
  reflexivity.
Defined.

End HashtagSummary.

